(** * env-audit: the extraction-and-merge pipeline

    A shallow embedding of the TypeScript sources of env-audit: the
    Finding / FileRef data model ([types.ts]), the helpers of [utils]
    ([createFileRef], [createFinding], [mergeFindings], ...), the runtime
    type guards, the dotenv, shell, AST and YAML providers and the
    scanner that orchestrates them.

    Conventions.
    - A JavaScript string is a [string]; the model covers text made of
      one-byte characters (the code points below 256).
    - A JavaScript number used as a line, a column or an index is a [Z].
    - An optional property ([defaultValue?: string]) is an [option];
      [None] is [undefined].
    - A function that can throw returns in the error monad [sum JsError]
      of ExtLib: [inl e] is a thrown [e], [inr v] a returned [v];
      [throw] is [raise] and [try { } catch { }] is [catch]. *)

From Stdlib Require Import String Ascii List Bool ZArith Lia.
From ExtLib Require Import Structures.Monad Structures.MonadExc.
From ExtLib Require Import Data.Monads.EitherMonad.
Import ListNotations.
Import MonadNotation.
Local Open Scope monad_scope.
Local Open Scope string_scope.
Local Open Scope Z_scope.
Set Warnings "-register-all".

(** ** Thrown values *)

(** [Error] and the error classes of [types.ts]. *)
Inductive JsError : Type :=
| Error (message : string)
| ParseError (message : string) (filePath : string) (line : option Z)
| FileSystemError (message : string) (operation : string) (path : string).

(** The result of a call that may throw. *)
Abbreviation js := (sum JsError).

(** ** [types.ts]: the data model *)

Inductive Source : Type :=
| process | importmeta | docker | gha | shell | dotenv | ast.

Definition Source_eqb (a b : Source) : bool :=
  match a, b with
  | process, process | importmeta, importmeta | docker, docker
  | gha, gha | shell, shell | dotenv, dotenv | ast, ast => true
  | _, _ => false
  end.

(** The string a [Source] value is at run time. *)
Definition Source_tag (s : Source) : string :=
  match s with
  | process => "process"
  | importmeta => "importmeta"
  | docker => "docker"
  | gha => "gha"
  | shell => "shell"
  | dotenv => "dotenv"
  | ast => "ast"
  end.

Module FileRef.
Record t : Type := mk {
  filePath : string;
  line : Z;
  column : Z;
  context : option string;
  hint : option string
}.
End FileRef.

Module Finding.
Record t : Type := mk {
  name : string;
  source : Source;
  files : list FileRef.t;
  required : bool;
  defaultValue : option string;
  isPublic : bool;
  notes : option (list string)
}.
End Finding.

(** The [options] argument of [createFinding]: every property optional. *)
Module FindingOptions.
Record t : Type := mk {
  required : option bool;
  defaultValue : option string;
  isPublic : option bool;
  notes : option (list string)
}.
Definition empty : t := mk None None None None.
End FindingOptions.

(** ** JavaScript helpers *)

(** [a ?? b] *)
Definition nullish {A : Type} (a : option A) (b : A) : A :=
  match a with Some x => x | None => b end.

(** Truthiness of a string, and of an optional string. *)
Definition truthy_string (s : string) : bool := negb (String.eqb s EmptyString).

Definition truthy (o : option string) : bool :=
  match o with Some s => truthy_string s | None => false end.

(** [arr.findIndex(p)]: the first index whose element satisfies [p], or -1. *)
Fixpoint findIndex_from {A : Type} (p : A -> bool) (arr : list A) (i : Z) : Z :=
  match arr with
  | [] => -1
  | x :: rest => if p x then i else findIndex_from p rest (i + 1)
  end.

Definition findIndex {A : Type} (p : A -> bool) (arr : list A) : Z :=
  findIndex_from p arr 0.

(** [arr.filter((x, index) => p x index)] *)
Fixpoint filter_from {A : Type} (p : A -> Z -> bool) (arr : list A) (i : Z) : list A :=
  match arr with
  | [] => []
  | x :: rest =>
      if p x i then x :: filter_from p rest (i + 1) else filter_from p rest (i + 1)
  end.

Definition filter_index {A : Type} (p : A -> Z -> bool) (arr : list A) : list A :=
  filter_from p arr 0.

(** ** [utils]: constructors and the merge *)

Section Utils.

(** [path.resolve] of node: the absolute form of a path. It depends on
    the working directory of the process, so it is a parameter here. *)
Variable path_resolve : string -> string.

Definition createFileRef (filePath : string) (line column : Z)
           (context : option string) : FileRef.t :=
  FileRef.mk (path_resolve filePath) line column context None.

End Utils.

Definition createFinding (name : string) (source : Source)
           (files : list FileRef.t) (options : FindingOptions.t) : Finding.t :=
  Finding.mk name source files
             (nullish (FindingOptions.required options) true)
             (FindingOptions.defaultValue options)
             (nullish (FindingOptions.isPublic options) false)
             (FindingOptions.notes options).

(** Two references are the same position: path, line and column agree. *)
Definition same_position (file f : FileRef.t) : bool :=
  String.eqb (FileRef.filePath f) (FileRef.filePath file)
  && Z.eqb (FileRef.line f) (FileRef.line file)
  && Z.eqb (FileRef.column f) (FileRef.column file).

Definition sourceOrder : list Source :=
  [ast; process; importmeta; dotenv; shell; docker; gha].

(** [f.notes?.length] as a condition. *)
Definition has_notes (f : Finding.t) : bool :=
  match Finding.notes f with
  | Some (_ :: _) => true
  | _ => false
  end.

Definition mergeFindings (findings : list Finding.t) : js Finding.t :=
  match findings with
  | [] => raise (Error "Cannot merge empty findings array")
  | [only] => ret only
  | first :: _ =>
      let firstName := Finding.name first in
      if negb (forallb (fun f => String.eqb (Finding.name f) firstName) findings)
      then raise (Error "All findings must have the same name to merge")
      else
        let allFiles := flat_map Finding.files findings in
        let uniqueFiles :=
          filter_index
            (fun file index => Z.eqb (findIndex (same_position file) allFiles) index)
            allFiles in
        let primarySource :=
          nullish
            (find (fun source =>
                     existsb (fun f => Source_eqb (Finding.source f) source) findings)
                  sourceOrder)
            (Finding.source first) in
        ret (createFinding firstName primarySource uniqueFiles
               (FindingOptions.mk
                  (Some (existsb Finding.required findings))
                  (match find (fun f => truthy (Finding.defaultValue f)) findings with
                   | Some f => Finding.defaultValue f
                   | None => None
                   end)
                  (Some (existsb Finding.isPublic findings))
                  (if existsb has_notes findings
                   then Some (flat_map (fun f => nullish (Finding.notes f) []) findings)
                   else None)))
  end.

(** [isPublicVariable]: a non-empty name that starts with one of the prefixes. *)
Definition isPublicVariable (name : string) (prefixes : list string) : bool :=
  if negb (truthy_string name) then false
  else existsb (fun prefix => String.prefix prefix name) prefixes.

(** ** [types.ts]: the runtime type guards

    The guards take a value of type [unknown]; [JsValue] is the part of
    the JavaScript value space they can tell apart. *)

Inductive JsValue : Type :=
| JsUndefined
| JsNull
| JsBoolean (b : bool)
| JsNumber (n : Z)
| JsString (s : string)
| JsArray (items : list JsValue)
| JsObject (props : list (string * JsValue)).

Definition typeof (v : JsValue) : string :=
  match v with
  | JsUndefined => "undefined"
  | JsNull | JsArray _ | JsObject _ => "object"
  | JsBoolean _ => "boolean"
  | JsNumber _ => "number"
  | JsString _ => "string"
  end.

(** [arr.includes(x)] on an array of strings. *)
Definition includes (arr : list string) (x : string) : bool :=
  existsb (String.eqb x) arr.

Fixpoint lookup_prop (key : string) (props : list (string * JsValue)) : JsValue :=
  match props with
  | [] => JsUndefined
  | (k, v) :: rest => if String.eqb k key then v else lookup_prop key rest
  end.

(** [obj.key] for the property names the guards read (no prototype
    property among them). *)
Definition get (obj : JsValue) (key : string) : JsValue :=
  match obj with
  | JsObject props => lookup_prop key props
  | _ => JsUndefined
  end.

Definition Array_isArray (v : JsValue) : bool :=
  match v with JsArray _ => true | _ => false end.

Definition isValidSource (value : JsValue) : bool :=
  String.eqb (typeof value) "string"
  && match value with
     | JsString s =>
         includes ["process"; "importmeta"; "docker"; "gha"; "shell"; "dotenv"] s
     | _ => false
     end.

Definition isFinding (value : JsValue) : bool :=
  if negb (String.eqb (typeof value) "object")
     || match value with JsNull => true | _ => false end
  then false
  else
    let obj := value in
    String.eqb (typeof (get obj "name")) "string"
    && isValidSource (get obj "source")
    && Array_isArray (get obj "files")
    && String.eqb (typeof (get obj "required")) "boolean"
    && String.eqb (typeof (get obj "isPublic")) "boolean".

(** The object a [FileRef] or a [Finding] is at run time: an optional
    property that is [None] is absent. *)
Definition optional_prop {A : Type} (key : string) (inj : A -> JsValue)
           (o : option A) : list (string * JsValue) :=
  match o with Some x => [(key, inj x)] | None => [] end.

Definition FileRef_value (r : FileRef.t) : JsValue :=
  JsObject
    ([("filePath", JsString (FileRef.filePath r));
      ("line", JsNumber (FileRef.line r));
      ("column", JsNumber (FileRef.column r))]
     ++ optional_prop "context" JsString (FileRef.context r)
     ++ optional_prop "hint" JsString (FileRef.hint r)).

Definition Finding_value (f : Finding.t) : JsValue :=
  JsObject
    ([("name", JsString (Finding.name f));
      ("source", JsString (Source_tag (Finding.source f)));
      ("files", JsArray (map FileRef_value (Finding.files f)));
      ("required", JsBoolean (Finding.required f));
      ("isPublic", JsBoolean (Finding.isPublic f))]
     ++ optional_prop "defaultValue" JsString (Finding.defaultValue f)
     ++ optional_prop "notes" (fun l => JsArray (map JsString l)) (Finding.notes f)).

(** ** [types.ts]: scan options *)

Module FrameworkConfig.
Record t : Type := mk {
  name : string;
  publicPrefixes : list string;
  includePatterns : option (list string);
  excludePatterns : option (list string);
  patterns : option (list string)
}.
End FrameworkConfig.

(** [framework?: string | FrameworkConfig] *)
Inductive FrameworkOption : Type :=
| FrameworkName (key : string)
| FrameworkObject (config : FrameworkConfig.t).

Module ScanOptions.
(** [Partial<ScanOptions>]. A field is what reading the property gives,
    [None] for [undefined]. Reading does not tell a property that is
    absent from one that is present and holds [undefined]; an object
    spread does, so [undefinedProperties] lists the own properties of
    the object that hold [undefined]. *)
Record t : Type := mk {
  dir : option string;
  include : option (list string);
  exclude : option (list string);
  framework : option FrameworkOption;
  publicPrefixes : option (list string);
  maxFileSize : option Z;
  followSymlinks : option bool;
  cacheDir : option string;
  cache : option bool;
  respectGitignore : option bool;
  debug : option bool;
  includeProviders : option (list string);
  excludeProviders : option (list string);
  undefinedProperties : list string
}.
Definition empty : t :=
  mk None None None None None None None None None None None None None [].
End ScanOptions.

(** The own properties that hold [undefined] once [key] is set to
    [value]. *)
Definition set_undefined {A : Type} (key : string) (value : option A)
           (keys : list string) : list string :=
  let others := filter (fun k => negb (String.eqb k key)) keys in
  match value with
  | Some _ => others
  | None => key :: others
  end.

(** [{ key: fallback, ...options }] at [key], and as well
    [{ ...defaults, ...options }] at a property that the rest of the
    literal does not set: the property of [options] when it is an own
    property, whatever it holds, and [fallback] when it is absent. *)
Definition spread {A : Type} (key : string) (options : ScanOptions.t)
           (given fallback : option A) : option A :=
  match given with
  | Some _ => given
  | None =>
      if includes (ScanOptions.undefinedProperties options) key then None
      else fallback
  end.

(** ** Strings

    The methods of [String.prototype] and the character classes of the
    regular expressions that the providers use. *)

Definition code (c : ascii) : Z := Z.of_N (N_of_ascii c).

Definition in_range (lo hi : Z) (c : ascii) : bool :=
  (lo <=? code c) && (code c <=? hi).

(** [\s], among one-byte characters: tab, line feed, vertical tab, form
    feed, carriage return, space and no-break space. *)
Definition is_space (c : ascii) : bool :=
  in_range 9 13 c || Z.eqb (code c) 32 || Z.eqb (code c) 160.

(** The characters [.] does not match: line feed and carriage return. *)
Definition is_line_terminator (c : ascii) : bool :=
  Z.eqb (code c) 10 || Z.eqb (code c) 13.

(** [[A-Za-z_]] and [[A-Za-z0-9_]] *)
Definition is_ident_start (c : ascii) : bool :=
  in_range 65 90 c || in_range 97 122 c || Z.eqb (code c) 95.

Definition is_ident_char (c : ascii) : bool :=
  is_ident_start c || in_range 48 57 c.

Definition dquote : ascii := "034"%char.
Definition squote : ascii := "'"%char.
Definition newline : ascii := "010"%char.

(** The longest prefix whose characters satisfy [p], and what follows it:
    what a greedy [[class]*] consumes. *)
Fixpoint span (p : ascii -> bool) (s : string) : string * string :=
  match s with
  | EmptyString => (EmptyString, EmptyString)
  | String c rest =>
      if p c then let (taken, left) := span p rest in (String c taken, left)
      else (EmptyString, s)
  end.

Definition trimStart (s : string) : string := snd (span is_space s).

Fixpoint trimEnd (s : string) : string :=
  match s with
  | EmptyString => EmptyString
  | String c rest =>
      let rest' := trimEnd rest in
      if String.eqb rest' EmptyString && is_space c then EmptyString else String c rest'
  end.

Definition trim (s : string) : string := trimEnd (trimStart s).

Definition len (s : string) : Z := Z.of_nat (String.length s).

(** [s.indexOf(needle)]: the first index where [needle] starts, or -1. *)
Fixpoint indexOf_from (needle s : string) (i : Z) : Z :=
  if String.prefix needle s then i
  else match s with
       | EmptyString => -1
       | String _ rest => indexOf_from needle rest (i + 1)
       end.

Definition indexOf (needle s : string) : Z := indexOf_from needle s 0.

Definition str_includes (needle s : string) : bool := 0 <=? indexOf needle s.

Definition startsWith (prefix s : string) : bool := String.prefix prefix s.

Definition clamp (n bound : Z) : Z := Z.max 0 (Z.min n bound).

(** [s.substring(a, b)] and [s.substring(a)] *)
Definition substring (s : string) (a b : Z) : string :=
  let a' := clamp a (len s) in
  let b' := clamp b (len s) in
  let lo := Z.min a' b' in
  let hi := Z.max a' b' in
  String.substring (Z.to_nat lo) (Z.to_nat (hi - lo)) s.

Definition substring_from (s : string) (a : Z) : string :=
  substring s a (len s).

(** [s.slice(a, b)]: a negative index counts from the end. *)
Definition slice (s : string) (a b : Z) : string :=
  let rel i := if i <? 0 then Z.max 0 (len s + i) else Z.min i (len s) in
  let lo := rel a in
  let hi := rel b in
  String.substring (Z.to_nat lo) (Z.to_nat (Z.max 0 (hi - lo))) s.

Definition endsWith (suffix s : string) : bool :=
  (len suffix <=? len s)
  && String.eqb (substring_from s (len s - len suffix)) suffix.

(** [(s.match(/c/g) || []).length]: how many times [c] occurs. *)
Fixpoint count_char (c : ascii) (s : string) : Z :=
  match s with
  | EmptyString => 0
  | String d rest => (if Ascii.eqb c d then 1 else 0) + count_char c rest
  end.

(** [s.toUpperCase()]; the letters a-z are mapped, every other character
    is kept. *)
Definition upper_char (c : ascii) : ascii :=
  if in_range 97 122 c then ascii_of_N (N_of_ascii c - 32) else c.

Fixpoint toUpperCase (s : string) : string :=
  match s with
  | EmptyString => EmptyString
  | String c rest => String (upper_char c) (toUpperCase rest)
  end.

(** [s.split(sep)] for a separator that is not empty. [skip] counts the
    characters of a separator still to be passed over, [piece] is the
    piece being read. *)
Fixpoint split_go (sep s : string) (skip : nat) (piece : string) : list string :=
  match s with
  | EmptyString => [piece]
  | String c rest =>
      match skip with
      | S k => split_go sep rest k piece
      | O =>
          if String.prefix sep s
          then piece :: split_go sep rest (String.length sep - 1) EmptyString
          else split_go sep rest O (piece ++ String c EmptyString)
      end
  end.

Definition split (sep s : string) : list string := split_go sep s O EmptyString.

(** [s.split(sep, limit)] *)
Definition split_limit (sep s : string) (limit : nat) : list string :=
  firstn limit (split sep s).

(** [/^[A-Za-z_][A-Za-z0-9_]*$/.test(name)] after the guard on an empty
    name. *)
Definition isValidEnvVarName (name : string) : bool :=
  if negb (truthy_string name) then false
  else match name with
       | EmptyString => false
       | String c rest =>
           is_ident_start c && String.eqb (snd (span is_ident_char rest)) EmptyString
       end.

Fixpoint string_forallb (p : ascii -> bool) (s : string) : bool :=
  match s with
  | EmptyString => true
  | String c rest => p c && string_forallb p rest
  end.

(** ** The dotenv provider *)

Module EnvLine.
(** What [parseEnvLine] returns for a line it accepts. *)
Record t : Type := mk {
  name : string;
  defaultValue : option string;
  hasDefault : bool;
  comment : option string
}.
End EnvLine.

Module ParsedValue.
Record t : Type := mk {
  value : option string;
  hasValue : bool
}.
End ParsedValue.

Definition placeholders : list string :=
  [EmptyString; "YOUR_VALUE_HERE"; "CHANGE_ME"; "REPLACE_ME"; "TODO"; "TBD";
   "..."; "xxx"; "XXX"].

Definition quoted_with (q : ascii) (s : string) : bool :=
  startsWith (String q EmptyString) s && endsWith (String q EmptyString) s.

Definition parseEnvValue (value : string) : ParsedValue.t :=
  if negb (truthy_string value) then ParsedValue.mk None false
  else
    let trimmedValue := trim value in
    let trimmedValue :=
      if quoted_with dquote trimmedValue || quoted_with squote trimmedValue
      then slice trimmedValue 1 (-1)
      else trimmedValue in
    if includes placeholders (toUpperCase trimmedValue)
    then ParsedValue.mk None false
    else ParsedValue.mk (Some trimmedValue) true.

(** [workingLine.match(re)] for the key-value pattern of [parseEnvLine]:
    a name ([[A-Za-z_][A-Za-z0-9_]*], group 1), blanks, [=], blanks, and
    the rest of the input when it holds no line terminator (group 2).
    Every starred class is followed by something it cannot match itself
    (a name by blanks or [=], blanks by [=]), and giving blanks back to
    group 2 cannot help it reach the end of the input, so the greedy
    reading is the only one. *)
Definition match_key_value (workingLine : string) : option (string * string) :=
  match workingLine with
  | EmptyString => None
  | String c rest =>
      if is_ident_start c then
        let (name_tail, after_name) := span is_ident_char rest in
        match snd (span is_space after_name) with
        | String "=" after_eq =>
            let value := snd (span is_space after_eq) in
            if string_forallb (fun d => negb (is_line_terminator d)) value
            then Some (String c name_tail, value)
            else None
        | _ => None
        end
      else None
  end.

Definition parseEnvLine (line : string) (lineNumber : Z) : option EnvLine.t :=
  let commentIndex := indexOf "#" line in
  let beforeComment := substring line 0 commentIndex in
  let singleQuotes := count_char squote beforeComment in
  let doubleQuotes := count_char dquote beforeComment in
  let '(workingLine, comment) :=
    if (0 <? commentIndex)
       && Z.eqb (singleQuotes mod 2) 0 && Z.eqb (doubleQuotes mod 2) 0
    then (trim beforeComment, Some (trim (substring_from line (commentIndex + 1))))
    else (line, None) in
  match match_key_value workingLine with
  | None => None
  | Some (name, value) =>
      if negb (truthy_string name) then None
      else if negb (isValidEnvVarName name) then None
      else
        let parsedValue := parseEnvValue value in
        Some (EnvLine.mk name (ParsedValue.value parsedValue)
                         (ParsedValue.hasValue parsedValue) comment)
  end.

Section DotenvProvider.

Variable path_resolve : string -> string.

(** [readFileSafe filePath maxSize]: the text of the file, [None] when
    it is larger than [maxSize] or cannot be read. *)
Variable readFileSafe : string -> Z -> option string.

(** The body of the loop of [scanFile] over the lines, from line
    [lineNumber] on. *)
Fixpoint scanLines (filePath : string) (publicPrefixes : list string)
         (lines : list string) (lineNumber : Z) : list Finding.t :=
  match lines with
  | [] => []
  | raw :: rest =>
      let line := trim raw in
      let later := scanLines filePath publicPrefixes rest (lineNumber + 1) in
      if negb (truthy_string line) || startsWith "#" line then later
      else
        match parseEnvLine line lineNumber with
        | None => later
        | Some envVar =>
            let fileRef :=
              createFileRef path_resolve filePath lineNumber 1
                            (EnvLine.comment envVar) in
            let finding :=
              createFinding (EnvLine.name envVar) dotenv [fileRef]
                (FindingOptions.mk
                   (Some (negb (EnvLine.hasDefault envVar)))
                   (if truthy (EnvLine.defaultValue envVar)
                    then EnvLine.defaultValue envVar else None)
                   (Some (isPublicVariable (EnvLine.name envVar) publicPrefixes))
                   (match EnvLine.comment envVar with
                    | Some comment =>
                        if truthy_string comment then Some [comment] else None
                    | None => None
                    end)) in
            finding :: later
        end
  end.

Definition dotenv_scanFile (filePath : string) (options : ScanOptions.t)
  : list Finding.t :=
  match readFileSafe filePath
                     (nullish (ScanOptions.maxFileSize options) (1024 * 1024)) with
  | None => []
  | Some content =>
      if negb (truthy_string content) then []
      else
        let lines := split (String newline EmptyString) content in
        let publicPrefixes := nullish (ScanOptions.publicPrefixes options) [] in
        scanLines filePath publicPrefixes lines 1
  end.

End DotenvProvider.

Definition sample_env_line : string :=
  "NAME=" ++ String dquote ("hello world" ++ String dquote " # comment").

(** ** The shell provider: references on a line *)

Module VarRef.
(** An element of the array [extractVariableReferences] returns. *)
Record t : Type := mk {
  name : string;
  hasDefault : bool;
  defaultValue : option string;
  startColumn : Z;
  endColumn : Z
}.
End VarRef.

Module RegexMatch.
(** A match of [patterns.varRef]: the matched text and the two groups,
    of which the one that took no part is [undefined]. *)
Record t : Type := mk {
  fullMatch : string;
  group1 : option string;
  group2 : option string
}.
End RegexMatch.

(** The first alternative of [patterns.varRef] after the dollar sign: an
    opening brace, a name, optionally [:-] and a run of characters other
    than a closing brace, then the closing brace. The result is group 1.
    The name is followed by [:] or by the closing brace, which no name
    character is, and the run by the closing brace, which it excludes:
    shortening either never leads to a match. *)
Definition varRef_braced (after_dollar : string) : option string :=
  match after_dollar with
  | String "{" (String c rest) =>
      if is_ident_start c then
        let (name_tail, after_name) := span is_ident_char rest in
        let varName := String c name_tail in
        let with_default :=
          match after_name with
          | String ":" (String "-" after_op) =>
              let (text, closing) :=
                span (fun d => negb (Ascii.eqb d "}")) after_op in
              match closing with
              | String "}" _ => Some (varName ++ ":-" ++ text)
              | _ => None
              end
          | _ => None
          end in
        match with_default with
        | Some content => Some content
        | None =>
            match after_name with
            | String "}" _ => Some varName
            | _ => None
            end
        end
      else None
  | _ => None
  end.

(** The second alternative: a name right after the dollar sign (group 2). *)
Definition varRef_simple (after_dollar : string) : option string :=
  match after_dollar with
  | String c rest =>
      if is_ident_start c
      then Some (String c (fst (span is_ident_char rest)))
      else None
  | EmptyString => None
  end.

(** A match of [patterns.varRef] that starts at the head of [s]. *)
Definition varRef_at (s : string) : option RegexMatch.t :=
  match s with
  | String "$" after_dollar =>
      match varRef_braced after_dollar with
      | Some content =>
          Some (RegexMatch.mk ("${" ++ content ++ "}") (Some content) None)
      | None =>
          match varRef_simple after_dollar with
          | Some varName =>
              Some (RegexMatch.mk ("$" ++ varName) None (Some varName))
          | None => None
          end
      end
  | _ => None
  end.

Definition strip_quotes (defaultValue : string) : string :=
  if truthy_string defaultValue && quoted_with dquote defaultValue
  then slice defaultValue 1 (-1)
  else if truthy_string defaultValue && quoted_with squote defaultValue
  then slice defaultValue 1 (-1)
  else defaultValue.

(** [parts[i] || ''] *)
Definition part (parts : list string) (i : nat) : string := nth i parts EmptyString.

(** The body of the [while] loop of [extractVariableReferences] for one
    match found at [index]; [None] is the [continue] on an empty name. *)
Definition reference_of_match (m : RegexMatch.t) (index : Z) : option VarRef.t :=
  let fullMatch := RegexMatch.fullMatch m in
  let '(varName, hasDefault, defaultValue) :=
    match RegexMatch.group1 m with
    | Some bracedContent =>
        if truthy_string bracedContent then
          if str_includes ":-" bracedContent then
            let parts := split_limit ":-" bracedContent 2 in
            (part parts 0, true, Some (strip_quotes (part parts 1)))
          else if str_includes ":=" bracedContent then
            let parts := split_limit ":=" bracedContent 2 in
            (part parts 0, true, Some (strip_quotes (part parts 1)))
          else (bracedContent, false, None)
        else (nullish (RegexMatch.group2 m) EmptyString, false, None)
    | None => (nullish (RegexMatch.group2 m) EmptyString, false, None)
    end in
  if negb (truthy_string varName) then None
  else
    let startColumn := index + 1 in
    let endColumn := index + len fullMatch in
    Some (VarRef.mk varName hasDefault defaultValue startColumn endColumn).

(** The [exec] loop of a global pattern: the matches of [varRef] in the
    text from [index] on, each search resuming where the last match
    ended. [skip] counts the characters of the last match still to be
    passed over. *)
Fixpoint exec_all (s : string) (index : Z) (skip : nat) : list (RegexMatch.t * Z) :=
  match s with
  | EmptyString => []
  | String _ rest =>
      match skip with
      | S k => exec_all rest (index + 1) k
      | O =>
          match varRef_at s with
          | Some m =>
              (m, index)
                :: exec_all rest (index + 1)
                            (String.length (RegexMatch.fullMatch m) - 1)
          | None => exec_all rest (index + 1) O
          end
      end
  end.

Definition extractVariableReferences (line : string) : list VarRef.t :=
  flat_map (fun found =>
              match reference_of_match (fst found) (snd found) with
              | Some reference => [reference]
              | None => []
              end)
           (exec_all line 0 O).

(** A character other than the dollar sign. *)
Definition not_dollar (c : ascii) : bool := negb (Ascii.eqb c "$").

(** ** The AST provider: syntax trees

    The nodes of a Babel syntax tree that the provider inspects, each
    with the children Babel's [traverse] walks, in the order of its
    visitor keys. A node carries its [loc] where the provider reads it:
    on member expressions and on variable declarators. *)

Module Position.
Record t : Type := mk { line : Z; column : Z }.
End Position.

Module SourceLocation.
(** [finish] is the property [end]. *)
Record t : Type := mk { start : Position.t; finish : Position.t }.
End SourceLocation.

Inductive Node : Type :=
| Identifier (name : string)
| StringLiteral (value : string)
| NumericLiteral (value : Z)
| MetaProperty (meta property : Node)
| MemberExpression (loc : option SourceLocation.t)
                   (object property : Node) (computed : bool)
| LogicalExpression (operator : string) (left right : Node)
| ConditionalExpression (test consequent alternate : Node)
| CallExpression (callee : Node) (arguments : list Node)
| AssignmentPattern (left right : Node)
| ObjectProperty (key value : Node)
| RestElement (argument : Node)
| ObjectPattern (properties : list Node)
| VariableDeclarator (loc : option SourceLocation.t)
                     (id : Node) (init : option Node)
| VariableDeclaration (kind : string) (declarations : list Node)
| ExpressionStatement (expression : Node)
| IfStatement (test consequent : Node) (alternate : option Node)
| BlockStatement (body : list Node)
| Program (body : list Node)
| File (program : Node).

(** A [NodePath] of Babel: the node, the property of the parent it hangs
    in, the parent and the path of the parent. *)
Inductive NodePath : Type :=
| mkPath (node : Node) (key : string)
         (parent : option Node) (parentPath : option NodePath).

Module Path.
Definition node (p : NodePath) : Node :=
  match p with mkPath n _ _ _ => n end.
Definition key (p : NodePath) : string :=
  match p with mkPath _ k _ _ => k end.
Definition parent (p : NodePath) : option Node :=
  match p with mkPath _ _ q _ => q end.
Definition parentPath (p : NodePath) : option NodePath :=
  match p with mkPath _ _ _ q => q end.
End Path.

(** The paths [traverse] enters below [parent], in the order it enters
    them: each child, then what is below it. *)
Fixpoint descend (parent : Node) (parentPath : option NodePath) {struct parent}
  : list NodePath :=
  let enter (key : string) (child : Node) :=
    let path := mkPath child key (Some parent) parentPath in
    path :: descend child (Some path) in
  let enter_opt (key : string) (child : option Node) :=
    match child with Some c => enter key c | None => [] end in
  match parent with
  | Identifier _ | StringLiteral _ | NumericLiteral _ => []
  | MetaProperty meta property => enter "meta" meta ++ enter "property" property
  | MemberExpression _ object property _ =>
      enter "object" object ++ enter "property" property
  | LogicalExpression _ lhs rhs => enter "left" lhs ++ enter "right" rhs
  | ConditionalExpression test consequent alternate =>
      enter "test" test ++ enter "consequent" consequent
            ++ enter "alternate" alternate
  | CallExpression callee arguments =>
      enter "callee" callee ++ flat_map (enter "arguments") arguments
  | AssignmentPattern lhs rhs => enter "left" lhs ++ enter "right" rhs
  | ObjectProperty key value => enter "key" key ++ enter "value" value
  | RestElement argument => enter "argument" argument
  | ObjectPattern properties => flat_map (enter "properties") properties
  | VariableDeclarator _ id init => enter "id" id ++ enter_opt "init" init
  | VariableDeclaration _ declarations =>
      flat_map (enter "declarations") declarations
  | ExpressionStatement expression => enter "expression" expression
  | IfStatement test consequent alternate =>
      enter "test" test ++ enter "consequent" consequent
            ++ enter_opt "alternate" alternate
  | BlockStatement body => flat_map (enter "body") body
  | Program body => flat_map (enter "body") body
  | File program => enter "program" program
  end.

Definition traverse_paths (root : Node) : list NodePath := descend root None.

(** ** The AST provider: observations *)

Module EnvVarNode.
Record t : Type := mk {
  name : string;
  source : Source;
  location : SourceLocation.t;
  hasGuards : bool;
  defaultValue : option string;
  context : option string
}.
End EnvVarNode.

Module UsageContext.
(** [{ hasGuards: boolean; defaultValue?: string }] *)
Record t : Type := mk {
  hasGuards : bool;
  defaultValue : option string
}.
End UsageContext.

Definition isIdentifierNamed (n : Node) (expected : string) : bool :=
  match n with
  | Identifier name => String.eqb name expected
  | _ => false
  end.

(** [t.isMemberExpression(n) && t.isIdentifier(n.object) &&
    n.object.name === 'process' && t.isIdentifier(n.property) &&
    n.property.name === 'env'] *)
Definition isProcessEnv (n : Node) : bool :=
  match n with
  | MemberExpression _ object property _ =>
      isIdentifierNamed object "process" && isIdentifierNamed property "env"
  | _ => false
  end.

(** [import.meta] *)
Definition isImportMeta (n : Node) : bool :=
  match n with
  | MetaProperty meta property =>
      isIdentifierNamed meta "import" && isIdentifierNamed property "meta"
  | _ => false
  end.

(** [t.isMemberExpression(n) && t.isMetaProperty(n.object) && ... &&
    t.isIdentifier(n.property) && n.property.name === 'env'] *)
Definition isImportMetaEnv (n : Node) : bool :=
  match n with
  | MemberExpression _ object property _ =>
      isImportMeta object && isIdentifierNamed property "env"
  | _ => false
  end.

Definition isStringLiteral (n : Node) : bool :=
  match n with StringLiteral _ => true | _ => false end.

Definition isIfStatement (n : Node) : bool :=
  match n with IfStatement _ _ _ => true | _ => false end.

(** [path.node.loc] *)
Definition loc_of (n : Node) : option SourceLocation.t :=
  match n with
  | MemberExpression loc _ _ _ => loc
  | VariableDeclarator loc _ _ => loc
  | _ => None
  end.

Definition default_location : SourceLocation.t :=
  SourceLocation.mk (Position.mk 1 0) (Position.mk 1 0).

Definition createEnvVarNode (name : string) (source : Source) (path : NodePath)
           (context : UsageContext.t) : EnvVarNode.t :=
  let location := nullish (loc_of (Path.node path)) default_location in
  EnvVarNode.mk name source
    (SourceLocation.mk
       (Position.mk (Position.line (SourceLocation.start location))
                    (Position.column (SourceLocation.start location)))
       (Position.mk (Position.line (SourceLocation.finish location))
                    (Position.column (SourceLocation.finish location))))
    (UsageContext.hasGuards context)
    (if truthy (UsageContext.defaultValue context)
     then UsageContext.defaultValue context else None)
    None.

(** The [while] loop of [analyzeUsageContext]: some path from
    [currentPath] upwards is the test of an [if] statement. The test
    [parent.test === currentPath.node] compares node objects; a node is
    the [test] of its parent when that is the property it hangs in. *)
Fixpoint inIfTest (currentPath : NodePath) : bool :=
  match currentPath with
  | mkPath _ key (Some parent) (Some parentPath) =>
      if isIfStatement parent && String.eqb key "test" then true
      else inIfTest parentPath
  | _ => false
  end.

Definition isLogical (operator : string) (n : Node) : bool :=
  match n with
  | LogicalExpression op _ _ => String.eqb op operator
  | _ => false
  end.

(** [path.parent.right.value] when the right operand is a string literal. *)
Definition right_literal (n : Node) : option string :=
  match n with
  | LogicalExpression _ _ (StringLiteral value) => Some value
  | _ => None
  end.

Definition analyzeUsageContext (path : NodePath) : UsageContext.t :=
  match Path.parent path with
  | None => UsageContext.mk false None
  | Some parent =>
      let hasGuards := false in
      let defaultValue : option string := None in
      (* logical OR *)
      let hasGuards := if isLogical "||" parent then true else hasGuards in
      let defaultValue :=
        if isLogical "||" parent then
          match right_literal parent with
          | Some value => Some value
          | None => defaultValue
          end
        else defaultValue in
      (* ternary *)
      let hasGuards :=
        match parent with
        | ConditionalExpression _ _ _ => true
        | _ => hasGuards
        end in
      (* nullish coalescing *)
      let hasGuards := if isLogical "??" parent then true else hasGuards in
      let defaultValue :=
        if isLogical "??" parent then
          match right_literal parent with
          | Some value => Some value
          | None => defaultValue
          end
        else defaultValue in
      (* if statements *)
      let hasGuards := if inIfTest path then true else hasGuards in
      UsageContext.mk hasGuards
                      (if truthy defaultValue then defaultValue else None)
  end.

Definition analyzeProcessEnvAccess (path : NodePath) : option EnvVarNode.t :=
  let node := Path.node path in
  match node with
  | MemberExpression _ object property _ =>
      let direct :=
        if isProcessEnv object then
          match property with
          | Identifier name =>
              Some (createEnvVarNode name ast path (analyzeUsageContext path))
          | StringLiteral value =>
              Some (createEnvVarNode value ast path (analyzeUsageContext path))
          | _ => None
          end
        else None in
      match direct with
      | Some found => Some found
      | None =>
          (* bracket notation *)
          if isProcessEnv object then
            match property with
            | StringLiteral value =>
                Some (createEnvVarNode value ast path (analyzeUsageContext path))
            | _ => None
            end
          else None
      end
  | _ => None
  end.

Definition analyzeImportMetaEnvAccess (path : NodePath) : option EnvVarNode.t :=
  let node := Path.node path in
  match node with
  | MemberExpression _ object property _ =>
      if isImportMetaEnv object then
        match property with
        | Identifier name =>
            Some (createEnvVarNode name importmeta path (analyzeUsageContext path))
        | StringLiteral value =>
            Some (createEnvVarNode value importmeta path (analyzeUsageContext path))
        | _ => None
        end
      else None
  | _ => None
  end.

(** The body of the loop of [analyzeDestructuring] over the properties
    of the pattern: what one property pushes. *)
Definition destructuredProperty (source : Source) (path : NodePath) (prop : Node)
  : list EnvVarNode.t :=
  match prop with
  | ObjectProperty (Identifier name) (AssignmentPattern _ rhs) =>
      (* destructuring with default *)
      let defaultValue :=
        match rhs with
        | StringLiteral value => Some value
        | _ => None
        end in
      let contextOptions :=
        if truthy defaultValue then UsageContext.mk true defaultValue
        else UsageContext.mk false None in
      [createEnvVarNode name source path contextOptions]
  | ObjectProperty (Identifier name) _ =>
      (* regular destructuring *)
      [createEnvVarNode name source path (UsageContext.mk false None)]
  | _ => []
  end.

(** The idiom root a declarator destructures, [null] when it is neither. *)
Definition destructuringSource (init : option Node) : option Source :=
  let source : option Source := None in
  let source :=
    match init with
    | Some i => if isProcessEnv i then Some ast else source
    | None => source
    end in
  let source :=
    match init with
    | Some i => if isImportMetaEnv i then Some importmeta else source
    | None => source
    end in
  source.

Definition analyzeDestructuring (path : NodePath) : list EnvVarNode.t :=
  match Path.node path with
  | VariableDeclarator _ (ObjectPattern properties) init =>
      match destructuringSource init with
      | None => []
      | Some source => flat_map (destructuredProperty source path) properties
      end
  | _ => []
  end.

(** The two visitors of [extractEnvVariables], applied to one path. *)
Definition visit (path : NodePath) : list EnvVarNode.t :=
  match Path.node path with
  | MemberExpression _ _ _ _ =>
      match analyzeProcessEnvAccess path with
      | Some processNode => [processNode]
      | None =>
          match analyzeImportMetaEnvAccess path with
          | Some importMetaNode => [importMetaNode]
          | None => []
          end
      end
  | VariableDeclarator _ _ _ => analyzeDestructuring path
  | _ => []
  end.

Definition extractEnvVariables (root : Node) : list EnvVarNode.t :=
  flat_map visit (traverse_paths root).

(** The path is an access to the process environment: a member of
    [process.env], or a declarator that destructures [process.env]. *)
Definition observesProcessEnv (path : NodePath) : bool :=
  match Path.node path with
  | MemberExpression _ object _ _ => isProcessEnv object
  | VariableDeclarator _ _ (Some init) => isProcessEnv init
  | _ => false
  end.

(** ** A [Map] with string keys

    A JavaScript [Map] iterates in insertion order, and [set] on a key
    that is present keeps the place of the key: an association list. *)

Section StringMap.

Context {V : Type}.

Fixpoint map_get (key : string) (m : list (string * V)) : option V :=
  match m with
  | [] => None
  | (k, v) :: rest => if String.eqb k key then Some v else map_get key rest
  end.

Fixpoint map_set (key : string) (value : V) (m : list (string * V))
  : list (string * V) :=
  match m with
  | [] => [(key, value)]
  | (k, v) :: rest =>
      if String.eqb k key then (k, value) :: rest
      else (k, v) :: map_set key value rest
  end.

Definition map_values (m : list (string * V)) : list V := map snd m.

Definition map_keys (m : list (string * V)) : list string := map fst m.

End StringMap.

(** ** The AST provider: findings of a file *)

Section AstProvider.

Variable path_resolve : string -> string.
Variable readFileSafe : string -> Z -> option string.

(** [parse] of [@babel/parser], given the text and the plugins: the
    syntax tree, or a thrown error. *)
Variable parse : string -> list string -> js Node.

(** The text an error has in a template literal, and the line a
    parser error carries in its [loc]. *)
Variable error_text : JsError -> string.
Variable error_line : JsError -> option Z.

Definition findingKey (node : EnvVarNode.t) : string :=
  Source_tag (EnvVarNode.source node) ++ ":" ++ EnvVarNode.name node.

(** The body of the loop of [convertNodesToFindings]. *)
Definition addNode (filePath : string) (publicPrefixes : list string)
           (findingsMap : list (string * Finding.t)) (node : EnvVarNode.t)
  : list (string * Finding.t) :=
  let key := findingKey node in
  let existing := map_get key findingsMap in
  let fileRef :=
    createFileRef path_resolve filePath
                  (Position.line (SourceLocation.start (EnvVarNode.location node)))
                  (Position.column (SourceLocation.start (EnvVarNode.location node)))
                  (EnvVarNode.context node) in
  match existing with
  | Some existing =>
      let updatedFinding :=
        createFinding (EnvVarNode.name node) (EnvVarNode.source node)
          (Finding.files existing ++ [fileRef])
          (FindingOptions.mk
             (Some (Finding.required existing && negb (EnvVarNode.hasGuards node)))
             (if truthy (Finding.defaultValue existing)
                 || truthy (EnvVarNode.defaultValue node)
              then match Finding.defaultValue existing with
                   | Some value => Some value
                   | None => EnvVarNode.defaultValue node
                   end
              else None)
             (Some (Finding.isPublic existing
                    || isPublicVariable (EnvVarNode.name node) publicPrefixes))
             None) in
      map_set key updatedFinding findingsMap
  | None =>
      let finding :=
        createFinding (EnvVarNode.name node) (EnvVarNode.source node) [fileRef]
          (FindingOptions.mk
             (Some (negb (EnvVarNode.hasGuards node)))
             (if truthy (EnvVarNode.defaultValue node)
              then EnvVarNode.defaultValue node else None)
             (Some (isPublicVariable (EnvVarNode.name node) publicPrefixes))
             None) in
      map_set key finding findingsMap
  end.

Definition convertNodesToFindings (nodes : list EnvVarNode.t) (filePath : string)
           (options : ScanOptions.t) : list Finding.t :=
  let publicPrefixes := nullish (ScanOptions.publicPrefixes options) [] in
  map_values (fold_left (addNode filePath publicPrefixes) nodes []).

Definition basePlugins : list string :=
  ["asyncGenerators"; "bigInt"; "classProperties"; "decorators-legacy";
   "doExpressions"; "dynamicImport"; "exportDefaultFrom";
   "exportNamespaceFrom"; "functionBind"; "functionSent"; "importMeta";
   "nullishCoalescingOperator"; "numericSeparator"; "objectRestSpread";
   "optionalCatchBinding"; "optionalChaining"; "throwExpressions";
   "topLevelAwait"].

Definition parseCode (content filePath : string) : js Node :=
  let isTypeScript := endsWith ".ts" filePath || endsWith ".tsx" filePath in
  let isJSX := endsWith ".jsx" filePath || endsWith ".tsx" filePath in
  parse content
        (basePlugins
           ++ (if isTypeScript then ["typescript"] else [])
           ++ (if isJSX then ["jsx"] else [])).

Definition ast_scanFile (filePath : string) (options : ScanOptions.t)
  : js (list Finding.t) :=
  match readFileSafe filePath
                     (nullish (ScanOptions.maxFileSize options) (1024 * 1024)) with
  | None => ret []
  | Some content =>
      if negb (truthy_string content) then ret []
      else
        catch
          (tree <- parseCode content filePath ;;
           let envNodes := extractEnvVariables tree in
           let findings := convertNodesToFindings envNodes filePath options in
           ret findings)
          (fun error =>
             raise (ParseError ("Failed to parse file: " ++ error_text error)
                               filePath (error_line error)))
  end.

Definition ast_extensions : list string :=
  [".js"; ".jsx"; ".ts"; ".tsx"; ".mjs"; ".cjs"; ".vue"; ".svelte"; ".astro"].

Definition isParseError (error : JsError) : bool :=
  match error with ParseError _ _ _ => true | _ => false end.

(** The loop of [scan] over the supported files; [findings] is the
    array filled so far. *)
Fixpoint ast_scanFiles (supportedFiles : list string) (options : ScanOptions.t)
         (findings : list Finding.t) : js (list Finding.t) :=
  match supportedFiles with
  | [] => ret findings
  | file :: rest =>
      step <- catch
                (fileFindings <- ast_scanFile file options ;;
                 ret ((findings ++ fileFindings)%list))
                (fun error =>
                   if isParseError error then ret findings else raise error) ;;
      ast_scanFiles rest options step
  end.

Definition ast_scan (files : list string) (options : ScanOptions.t)
  : js (list Finding.t) :=
  let supportedFiles :=
    filter (fun file => existsb (fun ext => endsWith ext file) ast_extensions)
           files in
  ast_scanFiles supportedFiles options [].

End AstProvider.

(** ** The scanner *)

Module Provider.
(** The [Provider] interface; [scan] resolves to findings or rejects. *)
Record t : Type := mk {
  name : string;
  source : Source;
  extensions : list string;
  scan : list string -> ScanOptions.t -> js (list Finding.t)
}.
End Provider.

Module SourceCounts.
(** [Record<Source, number>] *)
Record t : Type := mk {
  process : Z; importmeta : Z; dotenv : Z; docker : Z; gha : Z; shell : Z;
  ast : Z
}.
Definition zero : t := mk 0 0 0 0 0 0 0.
End SourceCounts.

Module ScanStats.
Record t : Type := mk {
  totalFiles : Z;
  totalFindings : Z;
  parseErrors : Z;
  scanTime : Z;
  durationMs : Z;
  filesByProvider : SourceCounts.t;
  variablesByProvider : SourceCounts.t
}.
End ScanStats.

Module ScanResult.
Record t : Type := mk {
  findings : list Finding.t;
  stats : ScanStats.t;
  scannedAt : string;
  framework : option FrameworkOption
}.
End ScanResult.

(** The first argument of [scan]: a directory or a list of files. *)
Inductive ScanTarget : Type :=
| Directory (path : string)
| FileList (files : list string).

Definition DEFAULT_PUBLIC_PREFIXES : list string :=
  ["NEXT_PUBLIC_"; "VITE_"; "REACT_APP_"; "VUE_APP_"; "NUXT_PUBLIC_"; "PUBLIC_"].

Definition DEFAULT_SCAN_OPTIONS : ScanOptions.t :=
  ScanOptions.mk
    None
    (Some ["**/*.{js,jsx,ts,tsx,mjs,cjs}"; "**/*.{yml,yaml}"; "**/*.{sh,bash,zsh}";
           ".env*"; "package.json"])
    (Some ["**/node_modules/**"; ".git/**"; "**/dist/**"; "**/build/**";
           "**/.next/**"; "**/.nuxt/**"; "**/.svelte-kit/**"; "**/coverage/**";
           "**/*.d.ts"])
    None
    (Some DEFAULT_PUBLIC_PREFIXES)
    (Some (1024 * 1024))
    (Some false)
    (Some ".env-audit-cache")
    (Some true)
    (Some true)
    (Some false)
    (Some [])
    (Some [])
    [].

(** [a ?? b] where [b] may be [undefined] too. *)
Definition orElse {A : Type} (a b : option A) : option A :=
  match a with Some _ => a | None => b end.

Section Scanner.

(** [process.cwd()] *)
Variable cwd : string.

(** [DefaultFileDiscovery.discoverFiles]: the files below a directory,
    or a thrown [FileSystemError]. *)
Variable fileDiscovery : ScanOptions.t -> js (list string).

(** [detectFramework] of [utils], which reads [package.json] and the
    directory: a framework key or [null]; it catches what it throws. *)
Variable detectFramework : string -> option string.

(** [a.localeCompare(b)] *)
Variable localeCompare : string -> string -> Z.

(** What the clock gives: [new Date().toISOString()] and the two
    differences [Date.now() - startTime]. *)
Variable scannedAt : string.
Variable scanTime durationMs : Z.

(** The providers registered with the scanner, a [Map] by name. *)
Variable providers : list (string * Provider.t).

Definition registerProvider (registered : list (string * Provider.t))
           (provider : Provider.t) : list (string * Provider.t) :=
  map_set (Provider.name provider) provider registered.

(** [mergeOptions] of [utils]. The literal spreads the defaults and the
    options and then sets eleven properties; [includeProviders] and
    [excludeProviders] are not among them and come from the spread
    alone. The result has every property of its own, and [framework]
    and these two are the ones that can hold [undefined]. *)
Definition mergeOptions (options : ScanOptions.t) : ScanOptions.t :=
  let default {A : Type} (given fallback : option A) := orElse given fallback in
  let includeProviders :=
    spread "includeProviders" options (ScanOptions.includeProviders options)
           (ScanOptions.includeProviders DEFAULT_SCAN_OPTIONS) in
  let excludeProviders :=
    spread "excludeProviders" options (ScanOptions.excludeProviders options)
           (ScanOptions.excludeProviders DEFAULT_SCAN_OPTIONS) in
  ScanOptions.mk
    (Some (nullish (ScanOptions.dir options) cwd))
    (default (ScanOptions.include options) (ScanOptions.include DEFAULT_SCAN_OPTIONS))
    (default (ScanOptions.exclude options) (ScanOptions.exclude DEFAULT_SCAN_OPTIONS))
    (ScanOptions.framework options)
    (default (ScanOptions.publicPrefixes options)
             (ScanOptions.publicPrefixes DEFAULT_SCAN_OPTIONS))
    (default (ScanOptions.maxFileSize options)
             (ScanOptions.maxFileSize DEFAULT_SCAN_OPTIONS))
    (default (ScanOptions.followSymlinks options)
             (ScanOptions.followSymlinks DEFAULT_SCAN_OPTIONS))
    (default (ScanOptions.cacheDir options) (ScanOptions.cacheDir DEFAULT_SCAN_OPTIONS))
    (default (ScanOptions.cache options) (ScanOptions.cache DEFAULT_SCAN_OPTIONS))
    (default (ScanOptions.respectGitignore options)
             (ScanOptions.respectGitignore DEFAULT_SCAN_OPTIONS))
    (default (ScanOptions.debug options) (ScanOptions.debug DEFAULT_SCAN_OPTIONS))
    includeProviders
    excludeProviders
    (set_undefined "framework" (ScanOptions.framework options)
       (set_undefined "includeProviders" includeProviders
          (set_undefined "excludeProviders" excludeProviders []))).

Definition with_dir (options : ScanOptions.t) (dir : option string) : ScanOptions.t :=
  ScanOptions.mk dir
    (ScanOptions.include options) (ScanOptions.exclude options)
    (ScanOptions.framework options) (ScanOptions.publicPrefixes options)
    (ScanOptions.maxFileSize options) (ScanOptions.followSymlinks options)
    (ScanOptions.cacheDir options) (ScanOptions.cache options)
    (ScanOptions.respectGitignore options) (ScanOptions.debug options)
    (ScanOptions.includeProviders options) (ScanOptions.excludeProviders options)
    (set_undefined "dir" dir (ScanOptions.undefinedProperties options)).

Definition with_framework (options : ScanOptions.t)
           (framework : option FrameworkOption) : ScanOptions.t :=
  ScanOptions.mk (ScanOptions.dir options)
    (ScanOptions.include options) (ScanOptions.exclude options)
    framework (ScanOptions.publicPrefixes options)
    (ScanOptions.maxFileSize options) (ScanOptions.followSymlinks options)
    (ScanOptions.cacheDir options) (ScanOptions.cache options)
    (ScanOptions.respectGitignore options) (ScanOptions.debug options)
    (ScanOptions.includeProviders options) (ScanOptions.excludeProviders options)
    (set_undefined "framework" framework (ScanOptions.undefinedProperties options)).

(** The literal [{ dir: options.dir ?? process.cwd(), ...options }] has
    [dir] before the spread. *)
Definition normalizeOptions (options : ScanOptions.t) : ScanOptions.t :=
  mergeOptions
    (with_dir options
              (spread "dir" options (ScanOptions.dir options)
                      (Some (nullish (ScanOptions.dir options) cwd)))).

Definition discoverFiles (path : ScanTarget) (options : ScanOptions.t)
  : js (list string) :=
  match path with
  | FileList files => ret files
  | Directory dir => fileDiscovery (with_dir options (Some dir))
  end.

(** [s.lastIndexOf(c)] for a character [c]. *)
Fixpoint lastIndexOf_from (c : ascii) (s : string) (i found : Z) : Z :=
  match s with
  | EmptyString => found
  | String d rest =>
      lastIndexOf_from c rest (i + 1) (if Ascii.eqb c d then i else found)
  end.

Definition lastIndexOf (c : ascii) (s : string) : Z :=
  lastIndexOf_from c s 0 (-1).

(** The loop of the scanner's [detectFramework] over the file names. *)
Fixpoint frameworkIndicator (files : list string) : option string :=
  match files with
  | [] => None
  | file :: rest =>
      if str_includes "next.config" file then Some "nextjs"
      else if str_includes "vite.config" file then Some "vite"
      else if str_includes "astro.config" file then Some "astro"
      else if str_includes "svelte.config" file then Some "svelte"
      else frameworkIndicator rest
  end.

Definition Scanner_detectFramework (files : list string) (options : ScanOptions.t)
  : option string :=
  let packageJsonFiles := filter (endsWith "package.json") files in
  let fromPackage :=
    match packageJsonFiles with
    | packageJsonFile :: _ =>
        let prefix :=
          substring packageJsonFile 0 (lastIndexOf "/" packageJsonFile) in
        let packageJsonDir := if truthy_string prefix then prefix else "." in
        match detectFramework packageJsonDir with
        | Some frameworkKey =>
            if truthy_string frameworkKey then Some frameworkKey else None
        | None => None
        end
    | [] => None
    end in
  match fromPackage with
  | Some frameworkKey => Some frameworkKey
  | None => frameworkIndicator files
  end.

Definition nonEmpty {A : Type} (l : option (list A)) : bool :=
  match l with
  | Some (_ :: _) => true
  | _ => false
  end.

Definition getEnabledProviders (options : ScanOptions.t) : list Provider.t :=
  let enabled := map_values providers in
  let enabled :=
    if nonEmpty (ScanOptions.includeProviders options)
    then filter (fun provider =>
                   includes (nullish (ScanOptions.includeProviders options) [])
                            (Provider.name provider))
                enabled
    else enabled in
  let enabled :=
    if nonEmpty (ScanOptions.excludeProviders options)
    then filter (fun provider =>
                   negb (includes (nullish (ScanOptions.excludeProviders options) [])
                                  (Provider.name provider)))
                enabled
    else enabled in
  enabled.

(** [Promise.all]: the values of the promises, or the first rejection. *)
Fixpoint Promise_all {A : Type} (promises : list (js A)) : js (list A) :=
  match promises with
  | [] => ret []
  | promise :: rest =>
      value <- promise ;;
      values <- Promise_all rest ;;
      ret (value :: values)
  end.

(** The [async] function [runProviders] maps over the providers. *)
Definition runProvider (files : list string) (options : ScanOptions.t)
           (provider : Provider.t) : js (string * list Finding.t) :=
  catch
    (findings <- Provider.scan provider files options ;;
     ret (Provider.name provider, findings))
    (fun error => ret (Provider.name provider, [])).

Definition runProviders (files : list string) (options : ScanOptions.t)
  : js (list (string * list Finding.t)) :=
  let results : list (string * list Finding.t) := [] in
  let enabledProviders := getEnabledProviders options in
  let providerPromises := map (runProvider files options) enabledProviders in
  providerResults <- Promise_all providerPromises ;;
  ret (fold_left (fun results entry => map_set (fst entry) (snd entry) results)
                 providerResults results).

(** The grouping loop of [mergeAndDeduplicateFindings]. *)
Definition groupByName (allFindings : list Finding.t)
  : list (string * list Finding.t) :=
  fold_left
    (fun (findingsByName : list (string * list Finding.t)) finding =>
       match map_get (Finding.name finding) findingsByName with
       | Some existing =>
           map_set (Finding.name finding) (existing ++ [finding])%list
                   findingsByName
       | None => map_set (Finding.name finding) [finding] findingsByName
       end)
    allFindings [].

(** The merging loop: one finding for each group. *)
Fixpoint mergeGroups (groups : list (string * list Finding.t))
  : js (list Finding.t) :=
  match groups with
  | [] => ret []
  | (name, findings) :: rest =>
      merged <- match findings with
                | [only] => ret only
                | _ => mergeFindings findings
                end ;;
      later <- mergeGroups rest ;;
      ret (merged :: later)
  end.

(** [arr.sort(compare)]: the sort is stable; for a comparison that is
    a total preorder its result is the one of this insertion sort. *)
Fixpoint sort_insert {A : Type} (compare : A -> A -> Z) (x : A) (sorted : list A)
  : list A :=
  match sorted with
  | [] => [x]
  | y :: rest =>
      if compare x y <=? 0 then x :: sorted
      else y :: sort_insert compare x rest
  end.

Definition sort {A : Type} (compare : A -> A -> Z) (arr : list A) : list A :=
  fold_right (sort_insert compare) [] arr.

Definition mergeAndDeduplicateFindings
           (providerResults : list (string * list Finding.t))
  : js (list Finding.t) :=
  let allFindings := concat (map_values providerResults) in
  let findingsByName := groupByName allFindings in
  mergedFindings <- mergeGroups findingsByName ;;
  ret (sort (fun a b => localeCompare (Finding.name a) (Finding.name b))
            mergedFindings).

Definition countSource (groups : SourceCounts.t) (source : Source) : SourceCounts.t :=
  let '(SourceCounts.mk p i de dk g s a) := groups in
  match source with
  | process => SourceCounts.mk (p + 1) i de dk g s a
  | importmeta => SourceCounts.mk p (i + 1) de dk g s a
  | dotenv => SourceCounts.mk p i (de + 1) dk g s a
  | docker => SourceCounts.mk p i de (dk + 1) g s a
  | gha => SourceCounts.mk p i de dk (g + 1) s a
  | shell => SourceCounts.mk p i de dk g (s + 1) a
  | ast => SourceCounts.mk p i de dk g s (a + 1)
  end.

Definition groupFindingsBySource (findings : list Finding.t) : SourceCounts.t :=
  fold_left (fun groups finding => countSource groups (Finding.source finding))
            findings SourceCounts.zero.

Definition truthyFramework (framework : option FrameworkOption) : bool :=
  match framework with
  | Some (FrameworkName key) => truthy_string key
  | Some (FrameworkObject _) => true
  | None => false
  end.

(** [framework] and [finalOptions] in [scan]. *)
Definition scanFramework (files : list string) (scanOptions : ScanOptions.t)
  : option FrameworkOption :=
  orElse (ScanOptions.framework scanOptions)
         (option_map FrameworkName (Scanner_detectFramework files scanOptions)).

Definition scanFinalOptions (files : list string) (scanOptions : ScanOptions.t)
  : ScanOptions.t :=
  let framework := scanFramework files scanOptions in
  if truthyFramework framework then with_framework scanOptions framework
  else scanOptions.

Definition scan (path : ScanTarget) (options : ScanOptions.t) : js ScanResult.t :=
  let scanOptions := normalizeOptions options in
  catch
    (files <- discoverFiles path scanOptions ;;
     let framework := scanFramework files scanOptions in
     let finalOptions := scanFinalOptions files scanOptions in
     findings <- runProviders files finalOptions ;;
     mergedFindings <- mergeAndDeduplicateFindings findings ;;
     let totalFiles := Z.of_nat (List.length files) in
     let parseErrors := 0 in
     let findingsBySource := groupFindingsBySource mergedFindings in
     let resultBase :=
       ScanResult.mk mergedFindings
         (ScanStats.mk totalFiles (Z.of_nat (List.length mergedFindings))
                       parseErrors scanTime durationMs
                       SourceCounts.zero findingsBySource)
         scannedAt None in
     let result :=
       if truthyFramework framework
       then ScanResult.mk (ScanResult.findings resultBase)
                          (ScanResult.stats resultBase)
                          (ScanResult.scannedAt resultBase) framework
       else resultBase in
     ret result)
    (fun error => raise error).

End Scanner.

(** [createAstProvider] *)
Definition createAstProvider (path_resolve : string -> string)
           (readFileSafe : string -> Z -> option string)
           (parse : string -> list string -> js Node)
           (error_text : JsError -> string) (error_line : JsError -> option Z)
  : Provider.t :=
  Provider.mk "ast" ast ast_extensions
              (ast_scan path_resolve readFileSafe parse error_text error_line).

(** ** Sample inputs *)

Definition at_line (line : Z) (from to : Z) : option SourceLocation.t :=
  Some (SourceLocation.mk (Position.mk line from) (Position.mk line to)).

Definition process_env : Node :=
  MemberExpression None (Identifier "process") (Identifier "env") false.

Definition import_meta_env : Node :=
  MemberExpression None (MetaProperty (Identifier "import") (Identifier "meta"))
                   (Identifier "env") false.

Definition file_of (statements : list Node) : Node := File (Program statements).

(** [const apiKey = process.env.API_KEY;] *)
Definition sample_member_access : Node :=
  file_of
    [VariableDeclaration "const"
       [VariableDeclarator (at_line 1 6 33) (Identifier "apiKey")
          (Some (MemberExpression (at_line 1 15 34) process_env
                                  (Identifier "API_KEY") false))]].

(** [const { PORT = 3000 } = process.env;] *)
Definition port_declarator : Node :=
  VariableDeclarator (at_line 1 6 36)
    (ObjectPattern
       [ObjectProperty (Identifier "PORT")
                       (AssignmentPattern (Identifier "PORT") (NumericLiteral 3000))])
    (Some process_env).

Definition sample_destructuring : Node :=
  file_of [VariableDeclaration "const" [port_declarator]].

(** [const { API_KEY, SECRET } = process.env;
     const { VITE_APP_TITLE } = import.meta.env;] *)
Definition sample_two_roots : Node :=
  file_of
    [VariableDeclaration "const"
       [VariableDeclarator (at_line 1 6 40)
          (ObjectPattern [ObjectProperty (Identifier "API_KEY") (Identifier "API_KEY");
                          ObjectProperty (Identifier "SECRET") (Identifier "SECRET")])
          (Some process_env)];
     VariableDeclaration "const"
       [VariableDeclarator (at_line 2 6 42)
          (ObjectPattern [ObjectProperty (Identifier "VITE_APP_TITLE")
                                         (Identifier "VITE_APP_TITLE")])
          (Some import_meta_env)]].

Definition sample_finding (name : string) (source : Source) (filePath : string)
           (required : bool) (defaultValue : option string) : Finding.t :=
  createFinding name source [createFileRef (fun p => p) filePath 1 1 None]
                (FindingOptions.mk (Some required) defaultValue None None).

(** A provider whose [scan] rejects. *)
Definition failing_provider (name : string) (source : Source) : Provider.t :=
  Provider.mk name source []
              (fun _ _ => raise (Error ("provider " ++ name ++ " failed"))).

Definition failing_providers : list (string * Provider.t) :=
  [("ast", failing_provider "ast" ast);
   ("dotenv", failing_provider "dotenv" dotenv);
   ("yaml", failing_provider "yaml" docker);
   ("shell", failing_provider "shell" shell)].

(** Findings in the map of [convertNodesToFindings] sit under the key of
    their source and name. *)
Definition keyed (m : list (string * Finding.t)) : Prop :=
  forall k f, map_get k m = Some f ->
              k = Source_tag (Finding.source f) ++ ":" ++ Finding.name f.

(** Every provider's list in the map of results is empty. *)
Definition all_empty (results : list (string * list Finding.t)) : Prop :=
  Forall (fun entry => snd entry = []) results.

(** A group is not empty and holds findings of the name it is filed under. *)
Definition well_grouped (groups : list (string * list Finding.t)) : Prop :=
  forall name findings,
    In (name, findings) groups ->
    findings <> [] /\ forall f, In f findings -> Finding.name f = name.

(** ** Notions used to state properties of the merge *)

(** The position of a reference: what [mergeFindings] compares. *)
Definition position (r : FileRef.t) : string * Z * Z :=
  (FileRef.filePath r, FileRef.line r, FileRef.column r).

(** The rank of a source in [sourceOrder]; a lower rank is preferred. *)
Definition priority (s : Source) : nat :=
  match s with
  | ast => 0
  | process => 1
  | importmeta => 2
  | dotenv => 3
  | shell => 4
  | docker => 5
  | gha => 6
  end.

(** The elements of [l] whose position occurs neither in [seen] nor
    earlier in [l]. *)
Fixpoint keep_first (seen l : list FileRef.t) : list FileRef.t :=
  match l with
  | [] => []
  | x :: rest =>
      if existsb (same_position x) seen
      then keep_first (seen ++ [x]) rest
      else x :: keep_first (seen ++ [x]) rest
  end.

(** ** [utils]: grouping by source *)

Module SourceGroups.
(** [Record<Source, readonly Finding[]>] *)
Record t : Type := mk {
  process : list Finding.t;
  importmeta : list Finding.t;
  docker : list Finding.t;
  gha : list Finding.t;
  shell : list Finding.t;
  dotenv : list Finding.t;
  ast : list Finding.t
}.
End SourceGroups.

(** [result[source]] *)
Definition group_of (groups : SourceGroups.t) (source : Source) : list Finding.t :=
  match source with
  | process => SourceGroups.process groups
  | importmeta => SourceGroups.importmeta groups
  | docker => SourceGroups.docker groups
  | gha => SourceGroups.gha groups
  | shell => SourceGroups.shell groups
  | dotenv => SourceGroups.dotenv groups
  | ast => SourceGroups.ast groups
  end.

Module Utils.

(** The body of the loop of [groupFindingsBySource]; [groups] is an
    object with the source tags as keys. *)
Definition addToGroup (groups : list (string * list Finding.t)) (finding : Finding.t)
  : list (string * list Finding.t) :=
  let key := Source_tag (Finding.source finding) in
  let groups :=
    match map_get key groups with
    | Some _ => groups
    | None => map_set key [] groups
    end in
  map_set key (nullish (map_get key groups) [] ++ [finding])%list groups.

Definition groupFindingsBySource (findings : list Finding.t) : SourceGroups.t :=
  let groups := fold_left addToGroup findings [] in
  let group (key : string) := nullish (map_get key groups) [] in
  SourceGroups.mk (group "process") (group "importmeta") (group "docker")
                  (group "gha") (group "shell") (group "dotenv") (group "ast").

End Utils.

(** ** Notions used to state properties of the scanner *)

(** The body of the grouping loop of [mergeAndDeduplicateFindings]. *)
Definition groupStep (findingsByName : list (string * list Finding.t))
           (finding : Finding.t) : list (string * list Finding.t) :=
  match map_get (Finding.name finding) findingsByName with
  | Some existing =>
      map_set (Finding.name finding) (existing ++ [finding])%list findingsByName
  | None => map_set (Finding.name finding) [finding] findingsByName
  end.

(** The findings among [findings] that are named [name]. *)
Definition named (name : string) (findings : list Finding.t) : list Finding.t :=
  filter (fun f => String.eqb (Finding.name f) name) findings.

(** What a provider contributes to a scan: its findings, or nothing
    when its [scan] throws. *)
Definition contribution (files : list string) (options : ScanOptions.t)
           (provider : Provider.t) : list Finding.t :=
  match Provider.scan provider files options with
  | inr findings => findings
  | inl _ => []
  end.

(** [groups[source]] for the counts of [groupFindingsBySource]. *)
Definition count_of (groups : SourceCounts.t) (source : Source) : Z :=
  match source with
  | process => SourceCounts.process groups
  | importmeta => SourceCounts.importmeta groups
  | dotenv => SourceCounts.dotenv groups
  | docker => SourceCounts.docker groups
  | gha => SourceCounts.gha groups
  | shell => SourceCounts.shell groups
  | ast => SourceCounts.ast groups
  end.

(** How many of the findings have the source [source]. *)
Definition count_source (source : Source) (findings : list Finding.t) : Z :=
  Z.of_nat (List.length
              (filter (fun f => Source_eqb (Finding.source f) source) findings)).

(** Two providers that return what they are given to return. *)
Definition fixed_provider (name : string) (source : Source)
           (findings : list Finding.t) : Provider.t :=
  Provider.mk name source [] (fun _ _ => ret findings).

Definition mixed_providers : list (string * Provider.t) :=
  [("ast", failing_provider "ast" ast);
   ("dotenv",
    fixed_provider "dotenv" dotenv
                   [sample_finding "PORT" dotenv "/project/.env" false (Some "3000")])].

(** ** The shell provider: scanning a script *)

(** [[a-zA-Z]] and [\w] *)
Definition is_letter (c : ascii) : bool := in_range 65 90 c || in_range 97 122 c.

Definition is_word_char (c : ascii) : bool := is_ident_char c.

(** [s.slice(n)] for a count [n] of characters to drop. *)
Fixpoint drop (n : nat) (s : string) : string :=
  match n, s with
  | O, _ => s
  | S k, EmptyString => EmptyString
  | S k, String _ rest => drop k rest
  end.

(** [trimmedLine.match(patterns.varAssign)]: group 1. The pattern is an
    optional [export] with blanks after it, then the key-value pattern
    of the dotenv lines. When a line starts with [export] and blanks
    but is no assignment after them, the pattern is tried without the
    optional part, where [export] is read as the name. *)
Definition varAssign_match (trimmedLine : string) : option string :=
  let with_export :=
    if startsWith "export" trimmedLine then
      let (blanks, rest) := span is_space (drop 6 trimmedLine) in
      if truthy_string blanks then match_key_value rest else None
    else None in
  match with_export with
  | Some (name, _) => Some name
  | None => option_map fst (match_key_value trimmedLine)
  end.

(** The name at the head of [s], read greedily. *)
Definition leading_name (s : string) : option string :=
  match s with
  | String c rest =>
      if is_ident_start c
      then Some (String c (fst (span is_ident_char rest)))
      else None
  | EmptyString => None
  end.

(** [trimmedLine.match(patterns.varDeclare)]: group 1. After one of the
    three keywords and blanks comes an optional flag (a dash, letters,
    blanks) and a name. A flag that is not followed by blanks and a name
    leaves no other way to match, since a name does not start with a
    dash. *)
Definition varDeclare_match (trimmedLine : string) : option string :=
  let after_keyword :=
    if startsWith "declare" trimmedLine then Some (drop 7 trimmedLine)
    else if startsWith "local" trimmedLine then Some (drop 5 trimmedLine)
    else if startsWith "readonly" trimmedLine then Some (drop 8 trimmedLine)
    else None in
  match after_keyword with
  | None => None
  | Some after =>
      let (blanks, rest) := span is_space after in
      if truthy_string blanks then
        match rest with
        | String "-" after_dash =>
            let (letters, after_letters) := span is_letter after_dash in
            let (blanks', after_flag) := span is_space after_letters in
            if truthy_string letters && truthy_string blanks'
            then leading_name after_flag
            else None
        | _ => leading_name rest
        end
      else None
  end.

(** [patterns.comment.test(s)] *)
Definition comment_test (s : string) : bool :=
  startsWith "#" (snd (span is_space s)).

(** [set.add(x)] and [set.has(x)] on a [Set] of strings. *)
Definition set_add (x : string) (set : list string) : list string :=
  if includes set x then set else (set ++ [x])%list.

Definition set_has (set : list string) (x : string) : bool := includes set x.

(** The body of the first loop of [scanContent]. *)
Definition recordAssignment (assignedVars : list string) (line : string)
  : list string :=
  if negb (truthy_string line) then assignedVars
  else
    let trimmedLine := trim line in
    if negb (truthy_string trimmedLine) || comment_test trimmedLine
    then assignedVars
    else
      let assignedVars :=
        match varAssign_match trimmedLine with
        | Some varName =>
            if truthy_string varName && isValidEnvVarName varName
            then set_add varName assignedVars else assignedVars
        | None => assignedVars
        end in
      match varDeclare_match trimmedLine with
      | Some varName =>
          if truthy_string varName && isValidEnvVarName varName
          then set_add varName assignedVars else assignedVars
      | None => assignedVars
      end.

Definition builtins : list string :=
  ["0"; "1"; "2"; "3"; "4"; "5"; "6"; "7"; "8"; "9";
   "@"; "*"; "#"; "?"; "-"; "$"; "!"; "_";
   "IFS"; "PATH"; "PS1"; "PS2"; "PS3"; "PS4";
   "HOME"; "USER"; "SHELL"; "PWD"; "OLDPWD";
   "RANDOM"; "SECONDS"; "LINENO"; "BASH_VERSION";
   "BASH_SOURCE"; "BASH_LINENO"; "FUNCNAME";
   "PIPESTATUS"; "HOSTNAME"; "HOSTTYPE"; "OSTYPE";
   "MACHTYPE"; "SHLVL"; "PPID"; "EUID"; "UID"; "GID";
   "i"; "j"; "k"; "x"; "y"; "z"; "item"; "line"; "file"].

Definition isBuiltinVariable (name : string) : bool := set_has builtins name.

(** The head of a function definition: a word, blanks, an opening
    parenthesis, blanks, a closing parenthesis. *)
Definition function_head (contextLine : string) : bool :=
  let (word, after_word) := span is_word_char contextLine in
  if truthy_string word then
    match snd (span is_space after_word) with
    | String "(" after_open =>
        match snd (span is_space after_open) with
        | String ")" _ => true
        | _ => false
        end
    | _ => false
    end
  else false.

(** The loop of [getContext] over the lines around the current one:
    [window] are the lines from five before to two after. *)
Fixpoint enclosingFunction (window : list string) : option string :=
  match window with
  | [] => None
  | raw :: rest =>
      let contextLine := trim raw in
      if function_head contextLine
      then Some ("Function: " ++ trim (part (split "(" contextLine) 0))
      else enclosingFunction rest
  end.

(** [lines.slice(from, to + 1)] for [from = max(0, currentLine - 5)] and
    [to = min(lines.length - 1, currentLine + 2)]. *)
Definition context_window (lines : list string) (currentLine : nat) : list string :=
  let from := (currentLine - 5)%nat in
  let to := Nat.min (List.length lines - 1) (currentLine + 2) in
  firstn (S to - from) (skipn from lines).

Definition getContext (lines : list string) (currentLine : nat) (varName : string)
  : string :=
  let line := trim (nth currentLine lines EmptyString) in
  if startsWith "if " line || str_includes " if " line
  then "Conditional statement"
  else if str_includes "=" line && negb (startsWith "#" line)
  then "Variable assignment"
  else if startsWith "echo " line || startsWith "printf " line
  then "Output command"
  else if startsWith "export " line
  then "Environment export"
  else match enclosingFunction (context_window lines currentLine) with
       | Some context => context
       | None => "Shell script"
       end.

Section ShellProvider.

Variable path_resolve : string -> string.
Variable readFileSafe : string -> Z -> option string.

(** The body of the loop over the references of a line. *)
Definition addReference (filePath : string) (publicPrefixes : list string)
           (lines : list string) (assignedVars : list string) (i : nat)
           (foundVars : list (string * Finding.t)) (varRef : VarRef.t)
  : list (string * Finding.t) :=
  let name := VarRef.name varRef in
  let hasDefault := VarRef.hasDefault varRef in
  let defaultValue := VarRef.defaultValue varRef in
  let lineNumber := Z.of_nat i + 1 in
  if negb (isValidEnvVarName name) then foundVars
  else if isBuiltinVariable name then foundVars
  else if set_has assignedVars name && negb hasDefault then foundVars
  else
    let fileRef :=
      createFileRef path_resolve filePath lineNumber
                    (VarRef.endColumn varRef - VarRef.startColumn varRef + 1)
                    (Some (getContext lines i name)) in
    match map_get name foundVars with
    | Some existingFinding =>
        let updatedFinding :=
          createFinding name shell (Finding.files existingFinding ++ [fileRef])
            (FindingOptions.mk
               (Some (Finding.required existingFinding && negb hasDefault))
               (if truthy defaultValue then defaultValue else None)
               (Some (isPublicVariable name publicPrefixes))
               None) in
        map_set name updatedFinding foundVars
    | None =>
        let finding :=
          createFinding name shell [fileRef]
            (FindingOptions.mk
               (Some (negb hasDefault))
               (if truthy defaultValue then defaultValue else None)
               (Some (isPublicVariable name publicPrefixes))
               None) in
        map_set name finding foundVars
    end.

(** The body of the second loop of [scanContent], for line [i]. *)
Definition scanLine (filePath : string) (publicPrefixes : list string)
           (lines : list string) (assignedVars : list string)
           (foundVars : list (string * Finding.t)) (i : nat) (line : string)
  : list (string * Finding.t) :=
  if negb (truthy_string line) then foundVars
  else
    let trimmedLine := trim line in
    if negb (truthy_string trimmedLine) || comment_test trimmedLine then foundVars
    else
      fold_left (addReference filePath publicPrefixes lines assignedVars i)
                (extractVariableReferences line) foundVars.

(** The second loop, over the lines [rest] that start at index [i]. *)
Fixpoint scanLinesFrom (filePath : string) (publicPrefixes : list string)
         (lines : list string) (assignedVars : list string)
         (rest : list string) (i : nat) (foundVars : list (string * Finding.t))
  : list (string * Finding.t) :=
  match rest with
  | [] => foundVars
  | line :: later =>
      scanLinesFrom filePath publicPrefixes lines assignedVars later (S i)
                    (scanLine filePath publicPrefixes lines assignedVars
                              foundVars i line)
  end.

Definition scanContent (content filePath : string) (options : ScanOptions.t)
  : list Finding.t :=
  let lines := split (String newline EmptyString) content in
  let publicPrefixes := nullish (ScanOptions.publicPrefixes options) [] in
  let assignedVars := fold_left recordAssignment lines [] in
  let foundVars :=
    scanLinesFrom filePath publicPrefixes lines assignedVars lines O [] in
  map_values foundVars.

Definition shell_scanFile (filePath : string) (options : ScanOptions.t)
  : js (list Finding.t) :=
  match readFileSafe filePath
                     (nullish (ScanOptions.maxFileSize options) (1024 * 1024)) with
  | None => ret []
  | Some content =>
      if negb (truthy_string content) then ret []
      else ret (scanContent content filePath options)
  end.

End ShellProvider.

(** The script of the scanner's test. *)
Definition sample_script : string :=
  "#!/bin/bash" ++ String newline
  ("PORT=8080" ++ String newline
  ("export DATABASE_URL=${DATABASE_URL:-" ++ String dquote
  ("postgresql://localhost:5432/app" ++ String dquote
  ("}" ++ String newline
  ("echo $PORT $API_KEY $HOME" ++ String newline
  ("for i in 1 2; do echo $i; done")))))).

(** ** Notions used to state properties of the shell provider *)

(** A character other than the colon. *)
Definition not_colon (c : ascii) : bool := negb (Ascii.eqb c ":").

(** The three forms a match of [patterns.varRef] can have. *)
Inductive MatchForm (m : RegexMatch.t) (name : string) : Prop :=
| SimpleForm :
    RegexMatch.group1 m = None ->
    RegexMatch.group2 m = Some name ->
    RegexMatch.fullMatch m = "$" ++ name ->
    MatchForm m name
| BracedForm :
    RegexMatch.group1 m = Some name ->
    RegexMatch.fullMatch m = "${" ++ name ++ "}" ->
    MatchForm m name
| DefaultForm (text : string) :
    RegexMatch.group1 m = Some (name ++ ":-" ++ text) ->
    RegexMatch.fullMatch m = "${" ++ name ++ ":-" ++ text ++ "}" ->
    MatchForm m name.

(** What holds of every finding of the shell provider; [resolved] is
    the absolute path of the script, [lineCount] the number of its
    lines and [assignedVars] the names it assigns or declares. *)
Definition shellFindingOk (resolved : string) (lineCount : Z)
           (assignedVars : list string) (f : Finding.t) : Prop :=
  Finding.source f = shell
  /\ isValidEnvVarName (Finding.name f) = true
  /\ isBuiltinVariable (Finding.name f) = false
  /\ (Finding.required f = true ->
      Finding.defaultValue f = None
      /\ set_has assignedVars (Finding.name f) = false)
  /\ (forall v, Finding.defaultValue f = Some v -> v <> EmptyString)
  /\ Finding.files f <> []
  /\ (forall r, In r (Finding.files f) ->
                FileRef.filePath r = resolved
                /\ 1 <= FileRef.line r <= lineCount
                /\ FileRef.context r <> None)
  /\ Finding.notes f = None.

(** The map of findings of the second loop: one entry for each name,
    filed under that name. *)
Definition shellMapOk (resolved : string) (lineCount : Z)
           (assignedVars : list string) (m : list (string * Finding.t)) : Prop :=
  NoDup (map_keys m)
  /\ forall k f, In (k, f) m ->
                 k = Finding.name f
                 /\ shellFindingOk resolved lineCount assignedVars f.

(** ** Notions used to state properties of the AST provider *)

(** The observations of the variable [name] made with the tag [source]. *)
Definition observations_of (source : Source) (name : string)
           (nodes : list EnvVarNode.t) : list EnvVarNode.t :=
  filter (fun n => Source_eqb (EnvVarNode.source n) source
                   && String.eqb (EnvVarNode.name n) name)
         nodes.

Definition unguarded (n : EnvVarNode.t) : bool := negb (EnvVarNode.hasGuards n).

(** An observation with a default is guarded, and the default is not
    empty. *)
Definition default_is_guarded (n : EnvVarNode.t) : Prop :=
  forall v, EnvVarNode.defaultValue n = Some v ->
            v <> EmptyString /\ EnvVarNode.hasGuards n = true.

(** [const port = process.env.PORT || 3000;
     const host = process.env.HOST ?? 'localhost';
     if (process.env.PORT) { }] *)
Definition sample_guards : Node :=
  file_of
    [VariableDeclaration "const"
       [VariableDeclarator (at_line 1 6 38) (Identifier "port")
          (Some (LogicalExpression "||"
                   (MemberExpression (at_line 1 13 29) process_env
                                     (Identifier "PORT") false)
                   (NumericLiteral 3000)))];
     VariableDeclaration "const"
       [VariableDeclarator (at_line 2 6 45) (Identifier "host")
          (Some (LogicalExpression "??"
                   (MemberExpression (at_line 2 13 29) process_env
                                     (Identifier "HOST") false)
                   (StringLiteral "localhost")))];
     IfStatement (MemberExpression (at_line 3 4 20) process_env
                                   (Identifier "PORT") false)
                 (BlockStatement []) None].

(** The first default among the observations. *)
Fixpoint first_default (ns : list EnvVarNode.t) : option string :=
  match ns with
  | [] => None
  | n :: rest =>
      match EnvVarNode.defaultValue n with
      | Some v => Some v
      | None => first_default rest
      end
  end.

(** The observations filed under the key [k] of the findings map. *)
Definition filed_under (k : string) (nodes : list EnvVarNode.t) : list EnvVarNode.t :=
  filter (fun n => String.eqb (findingKey n) k) nodes.

(** What holds of a finding of the AST provider with respect to the
    observations [ns] it was made from. *)
Definition astFindingOk (publicPrefixes : list string) (ns : list EnvVarNode.t)
           (f : Finding.t) : Prop :=
  ns <> []
  /\ Finding.required f = forallb unguarded ns
  /\ List.length (Finding.files f) = List.length ns
  /\ Finding.defaultValue f = first_default ns
  /\ (forall v, Finding.defaultValue f = Some v ->
                v <> EmptyString /\ Finding.required f = false)
  /\ Finding.isPublic f = isPublicVariable (Finding.name f) publicPrefixes
  /\ Finding.notes f = None.

(** The findings map after the observations [done]. *)
Definition astMapOk (publicPrefixes : list string) (done : list EnvVarNode.t)
           (m : list (string * Finding.t)) : Prop :=
  NoDup (map_keys m)
  /\ keyed m
  /\ forall k, match map_get k m with
               | Some f => astFindingOk publicPrefixes (filed_under k done) f
               | None => filed_under k done = []
               end.

(** ** The YAML provider

    [parseYaml] of the [yaml] package gives plain JavaScript values, a
    [JsValue]. The provider reads a number only through its truthiness
    and its [typeof], so a [JsNumber] stands for any number with that
    truthiness. The properties of a [JsObject] come in the order in
    which [Object.entries] lists them. *)

(** [!!v] *)
Definition truthy_value (v : JsValue) : bool :=
  match v with
  | JsUndefined | JsNull => false
  | JsBoolean b => b
  | JsNumber n => negb (Z.eqb n 0)
  | JsString s => truthy_string s
  | JsArray _ | JsObject _ => true
  end.

(** [v && typeof v === 'object'] *)
Definition isObjectValue (v : JsValue) : bool :=
  truthy_value v && String.eqb (typeof v) "object".

(** [value && typeof value === 'string' ? { defaultValue: value } : {}] *)
Definition stringDefault (value : JsValue) : option string :=
  if truthy_value value && String.eqb (typeof value) "string"
  then match value with JsString s => Some s | _ => None end
  else None.

(** The decimal digits of a number that is not negative, before [acc]. *)
Fixpoint decimal_digits (fuel : nat) (n : Z) (acc : string) : string :=
  let acc' := String (ascii_of_N (Z.to_N (48 + n mod 10))) acc in
  match fuel with
  | O => acc'
  | S k => if n <? 10 then acc' else decimal_digits k (n / 10) acc'
  end.

(** [String(n)] for an index or a count. *)
Definition number_text (n : Z) : string :=
  decimal_digits (Z.to_nat n) n EmptyString.

Fixpoint indexed_from (items : list JsValue) (i : Z) : list (string * JsValue) :=
  match items with
  | [] => []
  | item :: rest => (number_text i, item) :: indexed_from rest (i + 1)
  end.

(** [Object.entries(v)], which the provider calls on objects and arrays
    only: the properties of an object, the indices and items of an
    array. *)
Definition Object_entries (v : JsValue) : list (string * JsValue) :=
  match v with
  | JsObject props => props
  | JsArray items => indexed_from items 0
  | _ => []
  end.

Definition lower_char (c : ascii) : ascii :=
  if in_range 65 90 c then ascii_of_N (Z.to_N (code c + 32)) else c.

(** [s.toLowerCase()]; the letters A-Z are mapped, every other character
    is kept. *)
Fixpoint toLowerCase (s : string) : string :=
  match s with
  | EmptyString => EmptyString
  | String c rest => String (lower_char c) (toLowerCase rest)
  end.

(** The conversion of [v] to a string in a template literal throws a
    [TypeError]. An object of the document is converted by the first of
    [toString] and [valueOf] that is a function and gives a primitive
    value: a property [toString] of its own, which is no function, hides
    the inherited one, and [valueOf], inherited or not, gives no
    primitive value. An array joins the conversions of its items. *)
Fixpoint toString_throws (v : JsValue) : bool :=
  match v with
  | JsObject props => existsb (fun prop => String.eqb (fst prop) "toString") props
  | JsArray items => existsb toString_throws items
  | _ => false
  end.

Module DockerEnvVar.
(** [{ name: string; defaultValue?: string; hasDefault: boolean }] *)
Record t : Type := mk {
  name : string;
  defaultValue : option string;
  hasDefault : bool
}.
End DockerEnvVar.

(** [envVar.match(re)] for the pattern of [parseDockerEnvVar], a name
    (group 1) and then either the end of the input or [=] and the rest
    of the input when it holds no line terminator (group 3). A shorter
    name would be followed by a character of names, which is neither
    [=] nor the end, so the greedy reading is the only one. *)
Definition match_docker_env (envVar : string) : option (string * option string) :=
  match envVar with
  | EmptyString => None
  | String c rest =>
      if is_ident_start c then
        let (name_tail, after_name) := span is_ident_char rest in
        match after_name with
        | EmptyString => Some (String c name_tail, None)
        | String "=" value =>
            if string_forallb (fun d => negb (is_line_terminator d)) value
            then Some (String c name_tail, Some value)
            else None
        | _ => None
        end
      else None
  end.

Definition parseDockerEnvVar (envVar : string) : option DockerEnvVar.t :=
  match match_docker_env envVar with
  | None => None
  | Some (name, value) =>
      if negb (truthy_string name) || negb (isValidEnvVarName name) then None
      else
        Some (DockerEnvVar.mk name (if truthy value then value else None)
                              (truthy value))
  end.

Section YamlProvider.

Variable path_resolve : string -> string.
Variable path_basename : string -> string.
Variable path_extname : string -> string.

(** [readFile(filePath, 'utf-8')] and [parseYaml(content)]. *)
Variable readFile : string -> js string.
Variable parseYaml : string -> js JsValue.

Definition estimateLineNumber (filePath searchTerm : string) (index : Z) : Z :=
  Z.max 1 (index + 1).

(** [this.parseDockerEnvVar(envVar)] on an item of the [environment]
    array: the parameter is declared a string, the item is whatever the
    document holds. On anything but a string [envVar.match] is not a
    function, and the call throws a [TypeError]. *)
Definition parseDockerEnvVar_item (envVar : JsValue) : js (option DockerEnvVar.t) :=
  match envVar with
  | JsString s => ret (parseDockerEnvVar s)
  | _ => raise (Error "envVar.match is not a function")
  end.

(** The [forEach] over the array format of [environment]. *)
Fixpoint scanEnvironmentArray (serviceName filePath : string)
         (publicPrefixes : list string) (items : list JsValue) (index : Z)
         (findings : list Finding.t) : js (list Finding.t) :=
  match items with
  | [] => ret findings
  | envVar :: rest =>
      parsed <- parseDockerEnvVar_item envVar ;;
      let findings :=
        match parsed with
        | Some parsed =>
            let fileRef :=
              createFileRef path_resolve filePath
                            (estimateLineNumber filePath "environment" index) 1
                            (Some ("Service: " ++ serviceName)) in
            let finding :=
              createFinding (DockerEnvVar.name parsed) docker [fileRef]
                (FindingOptions.mk
                   (Some (negb (DockerEnvVar.hasDefault parsed)))
                   (if truthy (DockerEnvVar.defaultValue parsed)
                    then DockerEnvVar.defaultValue parsed else None)
                   (Some (isPublicVariable (DockerEnvVar.name parsed) publicPrefixes))
                   None) in
            (findings ++ [finding])%list
        | None => findings
        end in
      scanEnvironmentArray serviceName filePath publicPrefixes rest (index + 1)
                           findings
  end.

(** The callback of the [forEach] loops over [Object.entries]: one
    finding for an entry with a valid name. [required] is what the
    loop at hand says of the value. *)
Definition entryFinding (source : Source) (context filePath : string)
           (publicPrefixes : list string) (required : JsValue -> bool)
           (name : string) (value : JsValue) (index : Z) : list Finding.t :=
  if isValidEnvVarName name then
    let fileRef :=
      createFileRef path_resolve filePath (estimateLineNumber filePath name index) 1
                    (Some context) in
    [createFinding name source [fileRef]
       (FindingOptions.mk (Some (required value))
                          (stringDefault value)
                          (Some (isPublicVariable name publicPrefixes))
                          None)]
  else [].

Fixpoint scanEntries (source : Source) (context filePath : string)
         (publicPrefixes : list string) (required : JsValue -> bool)
         (entries : list (string * JsValue)) (index : Z) : list Finding.t :=
  match entries with
  | [] => []
  | (name, value) :: rest =>
      (entryFinding source context filePath publicPrefixes required name value index
       ++ scanEntries source context filePath publicPrefixes required rest
                      (index + 1))%list
  end.

(** [value === null || value === undefined] *)
Definition isNullish (value : JsValue) : bool :=
  match value with
  | JsNull | JsUndefined => true
  | _ => false
  end.

(** The block of [scanDockerService] on [service.environment]. *)
Definition scanEnvironment (service : JsValue) (serviceName filePath : string)
           (options : ScanOptions.t) : js (list Finding.t) :=
  let publicPrefixes := nullish (ScanOptions.publicPrefixes options) [] in
  let environment := get service "environment" in
  if truthy_value environment then
    match environment with
    | JsArray items =>
        scanEnvironmentArray serviceName filePath publicPrefixes items 0 []
    | _ =>
        if String.eqb (typeof environment) "object" then
          ret (scanEntries docker ("Service: " ++ serviceName) filePath
                           publicPrefixes isNullish (Object_entries environment) 0)
        else ret []
    end
  else ret [].

(** The block of [scanDockerService] on [service.env_file]. It only
    writes to the debug log, and the message is a template literal that
    converts each entry to a string, whatever the log level. *)
Definition logEnvFiles (service : JsValue) : js unit :=
  let env_file := get service "env_file" in
  if truthy_value env_file then
    let envFiles :=
      match env_file with
      | JsArray items => items
      | _ => [env_file]
      end in
    if existsb toString_throws envFiles
    then raise (Error "Cannot convert object to primitive value")
    else ret tt
  else ret tt.

Definition scanDockerService (service : JsValue) (serviceName filePath : string)
           (options : ScanOptions.t) : js (list Finding.t) :=
  findings <- scanEnvironment service serviceName filePath options ;;
  _ <- logEnvFiles service ;;
  ret findings.

(** The loop of [scanDockerCompose] over the services. *)
Fixpoint scanServices (filePath : string) (options : ScanOptions.t)
         (services : list (string * JsValue)) (findings : list Finding.t)
  : js (list Finding.t) :=
  match services with
  | [] => ret findings
  | (serviceName, service) :: rest =>
      if isObjectValue service then
        serviceFindings <- scanDockerService service serviceName filePath options ;;
        scanServices filePath options rest (findings ++ serviceFindings)%list
      else scanServices filePath options rest findings
  end.

Definition scanDockerCompose (parsed : JsValue) (filePath : string)
           (options : ScanOptions.t) : js (list Finding.t) :=
  if negb (truthy_value parsed) || negb (String.eqb (typeof parsed) "object")
  then ret []
  else if isObjectValue (get parsed "services")
  then scanServices filePath options (Object_entries (get parsed "services")) []
  else ret [].

(** The [forEach] of [scanGitHubJob] over the steps of a job. *)
Fixpoint scanSteps (jobName filePath : string) (publicPrefixes : list string)
         (steps : list JsValue) (stepIndex : Z) : list Finding.t :=
  match steps with
  | [] => []
  | step :: rest =>
      ((if truthy_value step && isObjectValue (get step "env") then
          scanEntries gha
                      ("Job: " ++ jobName ++ ", Step: " ++ number_text (stepIndex + 1))
                      filePath publicPrefixes (fun _ => false)
                      (Object_entries (get step "env")) 0
        else [])
       ++ scanSteps jobName filePath publicPrefixes rest (stepIndex + 1))%list
  end.

Definition scanGitHubJob (job : JsValue) (jobName filePath : string)
           (options : ScanOptions.t) : list Finding.t :=
  let publicPrefixes := nullish (ScanOptions.publicPrefixes options) [] in
  let jobEnv :=
    if isObjectValue (get job "env") then
      scanEntries gha ("Job: " ++ jobName) filePath publicPrefixes (fun _ => false)
                  (Object_entries (get job "env")) 0
    else [] in
  let stepEnv :=
    if truthy_value (get job "steps") then
      match get job "steps" with
      | JsArray steps => scanSteps jobName filePath publicPrefixes steps 0
      | _ => []
      end
    else [] in
  (jobEnv ++ stepEnv)%list.

Definition scanGitHubActions (parsed : JsValue) (filePath : string)
           (options : ScanOptions.t) : list Finding.t :=
  if negb (truthy_value parsed) || negb (String.eqb (typeof parsed) "object")
  then []
  else
    let publicPrefixes := nullish (ScanOptions.publicPrefixes options) [] in
    let jobs :=
      if isObjectValue (get parsed "jobs") then
        flat_map (fun entry : string * JsValue =>
                    let (jobName, job) := entry in
                    if isObjectValue job
                    then scanGitHubJob job jobName filePath options
                    else [])
                 (Object_entries (get parsed "jobs"))
      else [] in
    let workflow :=
      if isObjectValue (get parsed "env") then
        scanEntries gha "Workflow environment" filePath publicPrefixes
                    (fun _ => false) (Object_entries (get parsed "env")) 0
      else [] in
    (jobs ++ workflow)%list.

Definition yaml_scanFile (filePath : string) (options : ScanOptions.t)
  : js (list Finding.t) :=
  catch
    (content <- readFile filePath ;;
     parsed <- parseYaml content ;;
     if negb (truthy_value parsed) || negb (String.eqb (typeof parsed) "object")
     then ret []
     else
       let filename := path_basename filePath in
       let isDockerCompose :=
         str_includes "docker-compose" filename || str_includes "compose" filename in
       let isGitHubActions := str_includes ".github/workflows" filePath in
       if isDockerCompose then scanDockerCompose parsed filePath options
       else if isGitHubActions then ret (scanGitHubActions parsed filePath options)
       else ret [])
    (fun _ => ret []).

Definition isYamlFile (filePath : string) : bool :=
  includes [".yml"; ".yaml"] (toLowerCase (path_extname filePath)).

(** The loop of [scan] over the YAML files. *)
Fixpoint yaml_scanFiles (yamlFiles : list string) (options : ScanOptions.t)
         (findings : list Finding.t) : js (list Finding.t) :=
  match yamlFiles with
  | [] => ret findings
  | file :: rest =>
      step <- catch
                (fileFindings <- yaml_scanFile file options ;;
                 ret ((findings ++ fileFindings)%list))
                (fun _ => ret findings) ;;
      yaml_scanFiles rest options step
  end.

Definition yaml_scan (files : list string) (options : ScanOptions.t)
  : js (list Finding.t) :=
  yaml_scanFiles (filter isYamlFile files) options [].

End YamlProvider.

(** [createYamlProvider] *)
Definition createYamlProvider (path_resolve path_basename path_extname : string -> string)
           (readFile : string -> js string) (parseYaml : string -> js JsValue)
  : Provider.t :=
  Provider.mk "yaml" docker [".yml"; ".yaml"]
              (yaml_scan path_resolve path_basename path_extname readFile parseYaml).

(** What the findings of the YAML provider have in common; [okContext]
    says what the context of the reference can be. *)
Definition yamlFindingOk (path_resolve : string -> string) (source : Source)
           (publicPrefixes : list string) (filePath : string)
           (okContext : string -> Prop) (f : Finding.t) : Prop :=
  Finding.source f = source
  /\ isValidEnvVarName (Finding.name f) = true
  /\ (exists line context,
         Finding.files f
         = [FileRef.mk (path_resolve filePath) line 1 (Some context) None]
         /\ 1 <= line
         /\ okContext context)
  /\ (forall v, Finding.defaultValue f = Some v ->
                v <> EmptyString /\ Finding.required f = false)
  /\ Finding.isPublic f = isPublicVariable (Finding.name f) publicPrefixes
  /\ Finding.notes f = None.

(** The context names a service of the document. *)
Definition serviceContext (parsed : JsValue) (context : string) : Prop :=
  exists serviceName service,
    In (serviceName, service) (Object_entries (get parsed "services"))
    /\ context = "Service: " ++ serviceName.

(** The context of a job: the job itself, or one of its steps, counted
    from 1. *)
Definition jobContext (jobName context : string) : Prop :=
  context = "Job: " ++ jobName
  \/ exists k, 1 <= k /\ context = "Job: " ++ jobName ++ ", Step: " ++ number_text k.

(** The context is the workflow, or a job of the document. *)
Definition workflowContext (parsed : JsValue) (context : string) : Prop :=
  context = "Workflow environment"
  \/ exists jobName job,
      In (jobName, job) (Object_entries (get parsed "jobs"))
      /\ jobContext jobName context.

(** [services: { web: { environment: ['PORT=3000', 'API_KEY'] },
                 db: { environment: { POSTGRES_PASSWORD: null,
                                      POSTGRES_DB: 'app' } } }] *)
Definition sample_compose : JsValue :=
  JsObject
    [("services",
      JsObject
        [("web",
          JsObject [("environment",
                     JsArray [JsString "PORT=3000"; JsString "API_KEY"])]);
         ("db",
          JsObject [("environment",
                     JsObject [("POSTGRES_PASSWORD", JsNull);
                               ("POSTGRES_DB", JsString "app")])])])].

(** [services: { web: { environment: ['PORT=3000', { DEBUG: 1 }] } }],
    the document of a list written with [- DEBUG: 1]. *)
Definition keyed_item_compose : JsValue :=
  JsObject
    [("services",
      JsObject
        [("web",
          JsObject [("environment",
                     JsArray [JsString "PORT=3000";
                              JsObject [("DEBUG", JsNumber 1)]])])])].

(** [env: { NODE_ENV: 'test' },
     jobs: { build: { steps: [{ env: { TOKEN: 'secret' } }] } }] *)
Definition sample_workflow : JsValue :=
  JsObject
    [("env", JsObject [("NODE_ENV", JsString "test")]);
     ("jobs",
      JsObject
        [("build",
          JsObject [("steps",
                     JsArray [JsObject [("env",
                                         JsObject [("TOKEN", JsString "secret")])]])])])].

(** * Properties *)

(** ** The merge *)

Section MergeFacts.

Lemma same_name_as_first (first : Finding.t) (findings : list Finding.t) :
  (forall f g, In f (first :: findings) -> In g (first :: findings) ->
               Finding.name f = Finding.name g) ->
  forallb (fun f => String.eqb (Finding.name f) (Finding.name first))
          (first :: findings) = true.
Proof.
  intros Hsame. apply forallb_forall. intros f Hf.
  apply String.eqb_eq. apply Hsame; [exact Hf | left; reflexivity].
Qed.

Lemma forallb_same_name (first : Finding.t) (findings : list Finding.t) :
  forallb (fun f => String.eqb (Finding.name f) (Finding.name first)) findings = true ->
  forall f g, In f findings -> In g findings -> Finding.name f = Finding.name g.
Proof.
  intros Hall f g Hf Hg.
  rewrite forallb_forall in Hall.
  apply Hall in Hf. apply Hall in Hg.
  apply String.eqb_eq in Hf. apply String.eqb_eq in Hg. congruence.
Qed.

Lemma existsb_required_true (findings : list Finding.t) :
  existsb Finding.required findings = true <->
  exists f, In f findings /\ Finding.required f = true.
Proof. apply existsb_exists. Qed.

(** What [mergeFindings] returns for two or more findings of one name. *)
Lemma mergeFindings_group (first second : Finding.t) (rest : list Finding.t) :
  let findings := first :: second :: rest in
  forallb (fun f => String.eqb (Finding.name f) (Finding.name first)) findings = true ->
  exists merged,
    mergeFindings findings = inr merged
    /\ Finding.name merged = Finding.name first
    /\ Finding.required merged = existsb Finding.required findings
    /\ Finding.isPublic merged = existsb Finding.isPublic findings
    /\ Finding.defaultValue merged =
         match find (fun f => truthy (Finding.defaultValue f)) findings with
         | Some f => Finding.defaultValue f
         | None => None
         end.
Proof.
  intros findings Hall. subst findings.
  cbv beta iota zeta delta [mergeFindings].
  rewrite Hall. cbn [negb].
  eexists. split; [reflexivity |]. repeat split.
Qed.

End MergeFacts.

(** C1. For a non-empty list of findings that share one name,
    [mergeFindings] returns a finding whose [required] is the logical OR
    of the inputs' [required] flags: it is true exactly when some input
    has [required = true]. *)
Theorem mergeFindings_required_is_any (findings : list Finding.t) :
  findings <> [] ->
  (forall f g, In f findings -> In g findings -> Finding.name f = Finding.name g) ->
  exists merged,
    mergeFindings findings = inr merged
    /\ Finding.required merged = existsb Finding.required findings
    /\ (Finding.required merged = true <->
        exists f, In f findings /\ Finding.required f = true).
Proof.
  intros Hne Hsame.
  destruct findings as [| first [| second rest]].
  - contradiction.
  - exists first. split; [reflexivity |].
    assert (Hor : Finding.required first = existsb Finding.required [first])
      by (cbn; rewrite orb_false_r; reflexivity).
    split; [exact Hor |].
    rewrite Hor. apply existsb_required_true.
  - destruct (mergeFindings_group first second rest (same_name_as_first _ _ Hsame))
      as (merged & Hret & _ & Hreq & _).
    exists merged. split; [exact Hret |]. split; [exact Hreq |].
    rewrite Hreq. apply existsb_required_true.
Qed.

Lemma mergeFindings_required_is_any_witness :
  exists merged,
    mergeFindings [sample_finding "DATABASE_URL" ast "/src/app.ts" true None;
                   sample_finding "DATABASE_URL" dotenv "/.env" false
                                  (Some "postgresql://localhost:5432/app")]
      = inr merged
    /\ Finding.required merged = true.
Proof.
  destruct (mergeFindings_required_is_any
              [sample_finding "DATABASE_URL" ast "/src/app.ts" true None;
               sample_finding "DATABASE_URL" dotenv "/.env" false
                              (Some "postgresql://localhost:5432/app")])
    as (merged & Hret & Hreq & _).
  - discriminate.
  - intros f g [<- | [<- | []]] [<- | [<- | []]]; reflexivity.
  - exists merged. split; [exact Hret | rewrite Hreq; reflexivity].
Defined.

(** C7. [mergeFindings] on the empty list throws and returns no finding. *)
Theorem mergeFindings_empty_throws :
  mergeFindings [] = inl (Error "Cannot merge empty findings array")
  /\ forall merged, mergeFindings [] <> inr merged.
Proof.
  split; [reflexivity | intros merged H; discriminate H].
Qed.

(** C8. A finding that is required and has no default, merged with a
    finding of the same name that carries a non-empty default, gives a
    finding that is required and carries that default, in either order
    of the two. *)
Theorem mergeFindings_required_with_default (f1 f2 : Finding.t) (value : string) :
  Finding.name f1 = Finding.name f2 ->
  Finding.required f1 = true ->
  Finding.defaultValue f1 = None ->
  Finding.defaultValue f2 = Some value ->
  value <> EmptyString ->
  (exists merged,
      mergeFindings [f1; f2] = inr merged
      /\ Finding.required merged = true
      /\ Finding.defaultValue merged = Some value)
  /\ (exists merged,
         mergeFindings [f2; f1] = inr merged
         /\ Finding.required merged = true
         /\ Finding.defaultValue merged = Some value).
Proof.
  intros Hname Hreq Hnone Hsome Hvalue.
  assert (Htruthy : truthy (Finding.defaultValue f2) = true).
  { rewrite Hsome. unfold truthy, truthy_string.
    apply negb_true_iff. apply String.eqb_neq. exact Hvalue. }
  split.
  - destruct (mergeFindings_group f1 f2 []) as (merged & Hret & _ & Hr & _ & Hd).
    { cbn. rewrite String.eqb_refl, Hname, String.eqb_refl. reflexivity. }
    exists merged. split; [exact Hret |]. split.
    + rewrite Hr. cbn. rewrite Hreq. reflexivity.
    + rewrite Hd. cbn. rewrite Hnone. cbn. rewrite Htruthy. exact Hsome.
  - destruct (mergeFindings_group f2 f1 []) as (merged & Hret & _ & Hr & _ & Hd).
    { cbn. rewrite String.eqb_refl, Hname, String.eqb_refl. reflexivity. }
    exists merged. split; [exact Hret |]. split.
    + rewrite Hr. cbn. rewrite Hreq. apply orb_true_r.
    + rewrite Hd. cbn. rewrite Htruthy. exact Hsome.
Qed.

Lemma mergeFindings_required_with_default_witness :
  exists merged,
    mergeFindings [sample_finding "API_KEY" ast "/src/app.ts" true None;
                   sample_finding "API_KEY" dotenv "/.env" false (Some "secret")]
      = inr merged
    /\ Finding.required merged = true
    /\ Finding.defaultValue merged = Some "secret".
Proof.
  apply (mergeFindings_required_with_default
           (sample_finding "API_KEY" ast "/src/app.ts" true None)
           (sample_finding "API_KEY" dotenv "/.env" false (Some "secret"))
           "secret"); try reflexivity.
  discriminate.
Defined.

(** C9. For two or more findings that do not all share one name,
    [mergeFindings] throws 'All findings must have the same name to
    merge' and returns no finding. *)
Theorem mergeFindings_mixed_names_throws (findings : list Finding.t) :
  (2 <= List.length findings)%nat ->
  ~ (forall f g, In f findings -> In g findings -> Finding.name f = Finding.name g) ->
  mergeFindings findings
  = inl (Error "All findings must have the same name to merge").
Proof.
  intros Hlen Hmixed.
  destruct findings as [| first [| second rest]]; cbn in Hlen; try lia.
  cbv beta iota zeta delta [mergeFindings].
  destruct (forallb (fun f => String.eqb (Finding.name f) (Finding.name first))
                    (first :: second :: rest)) eqn:Hall.
  - exfalso. apply Hmixed. exact (forallb_same_name first _ Hall).
  - reflexivity.
Qed.

Lemma mergeFindings_mixed_names_throws_witness :
  mergeFindings [sample_finding "API_KEY" ast "/src/app.ts" true None;
                 sample_finding "SECRET" dotenv "/.env" false (Some "s")]
  = inl (Error "All findings must have the same name to merge").
Proof.
  apply (mergeFindings_mixed_names_throws
           [sample_finding "API_KEY" ast "/src/app.ts" true None;
            sample_finding "SECRET" dotenv "/.env" false (Some "s")]).
  - cbn. lia.
  - intros Hsame.
    specialize (Hsame (sample_finding "API_KEY" ast "/src/app.ts" true None)
                      (sample_finding "SECRET" dotenv "/.env" false (Some "s"))
                      (or_introl eq_refl) (or_intror (or_introl eq_refl))).
    discriminate Hsame.
Defined.

(** C10. The runtime guards reject a finding whose source is [ast], the
    tag of the AST provider: [isValidSource] is false on the tag, since
    the list it accepts has no ['ast'], and so [isFinding] is false on
    the finding. *)
Theorem guards_reject_ast_source (f : Finding.t) :
  Finding.source f = ast ->
  isValidSource (JsString (Source_tag (Finding.source f))) = false
  /\ isFinding (Finding_value f) = false.
Proof.
  intros Hsource. destruct f as [name source files required defaultValue isPublic notes].
  cbn in Hsource. subst source. split; reflexivity.
Qed.

Lemma guards_reject_ast_source_witness :
  isValidSource (JsString "ast") = false
  /\ isFinding (Finding_value (sample_finding "API_KEY" ast "/src/app.ts" true None))
     = false.
Proof.
  apply (guards_reject_ast_source
           (sample_finding "API_KEY" ast "/src/app.ts" true None)).
  reflexivity.
Defined.

(** ** The dotenv provider *)

(** [parseEnvLine] attaches a comment only when the quotes before the
    [#] are balanced, and the comment is the trimmed text after the [#]. *)
Lemma parseEnvLine_comment_balanced (line : string) (lineNumber : Z)
      (parsed : EnvLine.t) (comment : string) :
  parseEnvLine line lineNumber = Some parsed ->
  EnvLine.comment parsed = Some comment ->
  let commentIndex := indexOf "#" line in
  let beforeComment := substring line 0 commentIndex in
  0 < commentIndex
  /\ count_char squote beforeComment mod 2 = 0
  /\ count_char dquote beforeComment mod 2 = 0
  /\ comment = trim (substring_from line (commentIndex + 1)).
Proof.
  unfold parseEnvLine. intros Hparse Hcomment.
  destruct ((0 <? indexOf "#" line)
            && Z.eqb (count_char squote (substring line 0 (indexOf "#" line)) mod 2) 0
            && Z.eqb (count_char dquote (substring line 0 (indexOf "#" line)) mod 2) 0)
    eqn:Hcond.
  - apply andb_prop in Hcond. destruct Hcond as [Hcond Hdouble].
    apply andb_prop in Hcond. destruct Hcond as [Hpos Hsingle].
    apply Z.ltb_lt in Hpos. apply Z.eqb_eq in Hsingle. apply Z.eqb_eq in Hdouble.
    destruct (match_key_value _) as [[name value] |]; [| discriminate].
    destruct (negb (truthy_string name)); [discriminate |].
    destruct (negb (isValidEnvVarName name)); [discriminate |].
    injection Hparse as <-. cbn in Hcomment. injection Hcomment as <-.
    cbv zeta. repeat split; assumption.
  - destruct (match_key_value line) as [[name value] |]; [| discriminate].
    destruct (negb (truthy_string name)); [discriminate |].
    destruct (negb (isValidEnvVarName name)); [discriminate |].
    injection Hparse as <-. cbn in Hcomment. discriminate.
Qed.

(** C5. Scanning a file whose text is the line
    [NAME="hello world" # comment] gives exactly one finding: name
    [NAME], default [hello world] (the double quotes stripped), not
    required, and the trailing comment as its only note. A comment is
    attached only when the single and the double quotes before the [#]
    are both even in number. *)
Theorem dotenv_scan_quoted_value_with_comment
        (path_resolve : string -> string)
        (readFileSafe : string -> Z -> option string)
        (filePath : string) (options : ScanOptions.t) :
  readFileSafe filePath (nullish (ScanOptions.maxFileSize options) (1024 * 1024))
  = Some sample_env_line ->
  (exists finding,
      dotenv_scanFile path_resolve readFileSafe filePath options = [finding]
      /\ Finding.name finding = "NAME"
      /\ Finding.defaultValue finding = Some "hello world"
      /\ Finding.required finding = false
      /\ Finding.notes finding = Some ["comment"])
  /\ (forall line lineNumber parsed comment,
         parseEnvLine line lineNumber = Some parsed ->
         EnvLine.comment parsed = Some comment ->
         count_char squote (substring line 0 (indexOf "#" line)) mod 2 = 0
         /\ count_char dquote (substring line 0 (indexOf "#" line)) mod 2 = 0).
Proof.
  intros Hread. split.
  - unfold dotenv_scanFile. rewrite Hread.
    exists (Finding.mk "NAME" dotenv
                       [FileRef.mk (path_resolve filePath) 1 1 (Some "comment") None]
                       false (Some "hello world")
                       (isPublicVariable "NAME"
                                         (nullish (ScanOptions.publicPrefixes options) []))
                       (Some ["comment"])).
    split; [| repeat split]. vm_compute. reflexivity.
  - intros line lineNumber parsed comment Hparse Hcomment.
    destruct (parseEnvLine_comment_balanced line lineNumber parsed comment
                                            Hparse Hcomment)
      as (_ & Hsingle & Hdouble & _).
    split; assumption.
Qed.

Lemma dotenv_scan_quoted_value_with_comment_witness :
  exists finding,
    dotenv_scanFile (fun p => p) (fun _ _ => Some sample_env_line)
                    "/project/.env" ScanOptions.empty
    = [finding]
    /\ Finding.name finding = "NAME"
    /\ Finding.defaultValue finding = Some "hello world"
    /\ Finding.required finding = false
    /\ Finding.notes finding = Some ["comment"].
Proof.
  apply (dotenv_scan_quoted_value_with_comment
           (fun p => p) (fun _ _ => Some sample_env_line)
           "/project/.env" ScanOptions.empty).
  reflexivity.
Defined.

(** ** The shell provider *)

Section ShellFacts.

Lemma span_all (p : ascii -> bool) (s : string) :
  snd (span p s) = EmptyString -> string_forallb p s = true.
Proof.
  induction s as [| c rest IH]; cbn; [reflexivity |].
  destruct (p c) eqn:Hc.
  - destruct (span p rest) as [taken left]. cbn in *. exact IH.
  - cbn. discriminate.
Qed.

Lemma span_stops (p : ascii -> bool) (s : string) (c : ascii) (rest : string) :
  string_forallb p s = true -> p c = false ->
  span p (s ++ String c rest) = (s, String c rest).
Proof.
  intros Hall Hc. induction s as [| d tail IH]; cbn in *.
  - rewrite Hc. reflexivity.
  - apply andb_prop in Hall. destruct Hall as [Hd Htail].
    rewrite Hd, (IH Htail). reflexivity.
Qed.

Lemma string_forallb_app (p : ascii -> bool) (s t : string) :
  string_forallb p (s ++ t) = string_forallb p s && string_forallb p t.
Proof.
  induction s as [| c rest IH]; cbn; [reflexivity |].
  rewrite IH. apply andb_assoc.
Qed.

Lemma string_forallb_impl (p q : ascii -> bool) (s : string) :
  (forall c, p c = true -> q c = true) ->
  string_forallb p s = true -> string_forallb q s = true.
Proof.
  intros Hpq. induction s as [| c rest IH]; cbn; [reflexivity |].
  intros H. apply andb_prop in H. destruct H as [Hc Hrest].
  rewrite (Hpq c Hc), (IH Hrest). reflexivity.
Qed.

Lemma ident_char_not_dollar (c : ascii) :
  is_ident_char c = true -> not_dollar c = true.
Proof.
  destruct c as [[] [] [] [] [] [] [] []]; vm_compute; intros H;
    solve [reflexivity | discriminate H].
Qed.

Lemma ident_start_is_ident_char (c : ascii) :
  is_ident_start c = true -> is_ident_char c = true.
Proof. unfold is_ident_char. intros ->. reflexivity. Qed.

(** No match of the pattern starts at a character other than the
    dollar sign. *)
Lemma varRef_at_not_dollar (c : ascii) (rest : string) :
  not_dollar c = true -> varRef_at (String c rest) = None.
Proof.
  destruct c as [[] [] [] [] [] [] [] []]; intros H;
    solve [reflexivity | discriminate H].
Qed.

Lemma exec_all_no_match (c : ascii) (rest : string) (index : Z) :
  varRef_at (String c rest) = None ->
  exec_all (String c rest) index O = exec_all rest (index + 1) O.
Proof. intros H. cbn [exec_all]. rewrite H. reflexivity. Qed.

Lemma exec_all_no_dollar (s : string) (index : Z) :
  string_forallb not_dollar s = true -> exec_all s index O = [].
Proof.
  revert index. induction s as [| c rest IH]; intros index H; [reflexivity |].
  cbn in H. apply andb_prop in H. destruct H as [Hc Hrest].
  rewrite (exec_all_no_match c rest index (varRef_at_not_dollar c rest Hc)).
  apply IH. exact Hrest.
Qed.

(** A valid name is a start character and a run of name characters. *)
Lemma valid_name_shape (name : string) :
  isValidEnvVarName name = true ->
  exists c tail,
    name = String c tail
    /\ is_ident_start c = true
    /\ string_forallb is_ident_char tail = true.
Proof.
  unfold isValidEnvVarName. destruct name as [| c tail]; [discriminate |].
  cbn [truthy_string String.eqb negb].
  intros H. apply andb_prop in H. destruct H as [Hstart Hrest].
  exists c, tail. repeat split; [exact Hstart |].
  apply span_all. apply String.eqb_eq. exact Hrest.
Qed.

(** The pattern does not match at a reference [${NAME:=...]: after the
    name it wants [:-] or the closing brace. *)
Lemma varRef_at_assign_default (name rest : string) :
  isValidEnvVarName name = true ->
  varRef_at ("${" ++ name ++ ":=" ++ rest) = None.
Proof.
  intros Hvalid.
  destruct (valid_name_shape name Hvalid) as (c & tail & -> & Hstart & Htail).
  cbn [append varRef_at varRef_braced varRef_simple].
  rewrite Hstart.
  change (tail ++ String ":" (String "=" rest))
    with (tail ++ String ":" ("=" ++ rest)).
  rewrite (span_stops is_ident_char tail ":" ("=" ++ rest) Htail eq_refl).
  reflexivity.
Qed.

End ShellFacts.

(** C4, what the code does. A line that is the reference
    [${NAME:=default}] yields no reference at all: [patterns.varRef]
    admits only [:-] after the name, so it never matches at a
    [${NAME:=...] and the [:=] branch of [extractVariableReferences] is
    not reached. *)
Theorem assign_default_reference_not_extracted (name default : string) :
  isValidEnvVarName name = true ->
  string_forallb not_dollar default = true ->
  (forall rest, varRef_at ("${" ++ name ++ ":=" ++ rest) = None)
  /\ extractVariableReferences ("${" ++ name ++ ":=" ++ default ++ "}") = [].
Proof.
  intros Hvalid Hdefault. split.
  - intros rest. apply varRef_at_assign_default. exact Hvalid.
  - unfold extractVariableReferences.
    assert (Hnone := varRef_at_assign_default name (default ++ "}") Hvalid).
    destruct (valid_name_shape name Hvalid) as (c & tail & -> & Hstart & Htail).
    cbn [append] in Hnone |- *.
    rewrite (exec_all_no_match _ _ 0 Hnone).
    rewrite exec_all_no_dollar; [reflexivity |].
    cbn [string_forallb]. rewrite !string_forallb_app.
    rewrite (ident_char_not_dollar c (ident_start_is_ident_char c Hstart)).
    rewrite (string_forallb_impl _ _ tail ident_char_not_dollar Htail).
    cbn [string_forallb]. rewrite string_forallb_app, Hdefault. reflexivity.
Qed.

Lemma assign_default_reference_not_extracted_witness :
  extractVariableReferences "${DATABASE_URL:=postgres}" = []
  /\ exists reference,
       extractVariableReferences "${DATABASE_URL:-postgres}" = [reference]
       /\ VarRef.name reference = "DATABASE_URL"
       /\ VarRef.hasDefault reference = true
       /\ VarRef.defaultValue reference = Some "postgres".
Proof.
  split.
  - apply (assign_default_reference_not_extracted "DATABASE_URL" "postgres");
      reflexivity.
  - eexists. split; [vm_compute; reflexivity | repeat split].
Defined.

(** The [:=] branch of [extractVariableReferences] is written like the
    [:-] branch: given a match whose group 1 is [NAME:=default] it would
    build the reference with the default. *)
Example assign_default_branch_as_written :
  reference_of_match
    (RegexMatch.mk "${NAME:=default}" (Some "NAME:=default") None) 0
  = Some (VarRef.mk "NAME" true (Some "default") 1 16).
Proof. reflexivity. Qed.

(** ** Maps *)

Section StringMapFacts.

Context {V : Type}.

Lemma map_get_set_eq (key : string) (value : V) (m : list (string * V)) :
  map_get key (map_set key value m) = Some value.
Proof.
  induction m as [| [k v] rest IH]; cbn.
  - rewrite String.eqb_refl. reflexivity.
  - destruct (String.eqb k key) eqn:Hk; cbn; rewrite Hk; [reflexivity | exact IH].
Qed.

Lemma map_get_set_neq (key other : string) (value : V) (m : list (string * V)) :
  other <> key -> map_get other (map_set key value m) = map_get other m.
Proof.
  intros Hneq. induction m as [| [k v] rest IH]; cbn.
  - destruct (String.eqb key other) eqn:Hk; [| reflexivity].
    apply String.eqb_eq in Hk. congruence.
  - destruct (String.eqb k key) eqn:Hk; cbn.
    + apply String.eqb_eq in Hk. subst k.
      destruct (String.eqb key other) eqn:Hko; [| reflexivity].
      apply String.eqb_eq in Hko. congruence.
    + rewrite IH. reflexivity.
Qed.

Lemma map_get_In (key : string) (value : V) (m : list (string * V)) :
  map_get key m = Some value -> In value (map_values m).
Proof.
  induction m as [| [k v] rest IH]; cbn; [discriminate |].
  destruct (String.eqb k key).
  - intros H. injection H as ->. left. reflexivity.
  - intros H. right. apply IH. exact H.
Qed.

End StringMapFacts.

(** ** The AST provider *)

Section AstFacts.

Variable path_resolve : string -> string.

Lemma append_cancel (p a b : string) : (p ++ a = p ++ b)%string -> a = b.
Proof.
  induction p as [| c rest IH]; cbn; [trivial |].
  intros H. injection H as H. exact (IH H).
Qed.

(** The key of the findings map tells the source and the name. *)
Lemma key_injective (s s' : Source) (x x' : string) :
  Source_tag s ++ ":" ++ x = Source_tag s' ++ ":" ++ x' -> s = s' /\ x = x'.
Proof.
  destruct s, s'; cbn; intros H; try discriminate H;
    (split; [reflexivity |]); repeat (injection H as H); exact H.
Qed.

Lemma process_env_not_import_meta (n : Node) :
  isProcessEnv n = true -> isImportMetaEnv n = false.
Proof.
  destruct n as [| | | | loc object property computed | | | | | | | | | | | | | |];
    cbn; try discriminate.
  destruct object; cbn; try discriminate. reflexivity.
Qed.

Lemma createEnvVarNode_name_source (name : string) (source : Source)
      (path : NodePath) (context : UsageContext.t) :
  EnvVarNode.name (createEnvVarNode name source path context) = name
  /\ EnvVarNode.source (createEnvVarNode name source path context) = source.
Proof. split; reflexivity. Qed.

Lemma destructuredProperty_source (source : Source) (path : NodePath)
      (prop : Node) (node : EnvVarNode.t) :
  In node (destructuredProperty source path prop) ->
  EnvVarNode.source node = source.
Proof.
  destruct prop as [| | | | | | | | | key value | | | | | | | | |];
    cbn; try contradiction.
  destruct key; cbn; try contradiction.
  destruct value; cbn; intros [<- | []]; reflexivity.
Qed.

Lemma destructuringSource_tag (init : option Node) (source : Source) :
  destructuringSource init = Some source ->
  exists i, init = Some i
            /\ source = if isProcessEnv i then ast else importmeta.
Proof.
  unfold destructuringSource. destruct init as [i |]; [| discriminate].
  intros H. exists i. split; [reflexivity |].
  destruct (isProcessEnv i) eqn:Hp.
  - rewrite (process_env_not_import_meta i Hp) in H. congruence.
  - destruct (isImportMetaEnv i); congruence.
Qed.

(** Every observation made at a path carries [ast] when the path is
    an access to the process environment and [importmeta] otherwise. *)
Lemma visit_source (path : NodePath) (node : EnvVarNode.t) :
  In node (visit path) ->
  EnvVarNode.source node = if observesProcessEnv path then ast else importmeta.
Proof.
  destruct path as [n key parent parentPath].
  unfold visit, observesProcessEnv. cbn [Path.node].
  destruct n as [| | | | loc object property computed | | | | | | | |
                 loc id init | | | | | |];
    try contradiction.
  - unfold analyzeProcessEnvAccess, analyzeImportMetaEnvAccess. cbn [Path.node].
    destruct (isProcessEnv object) eqn:Hp.
    + destruct property; cbn; intros Hin;
        try (destruct Hin as [<- | []]; reflexivity).
      all: rewrite (process_env_not_import_meta object Hp) in Hin;
        contradiction.
    + destruct (isImportMetaEnv object); [| contradiction].
      destruct property; cbn; intros Hin; try contradiction;
        destruct Hin as [<- | []]; reflexivity.
  - unfold analyzeDestructuring. cbn [Path.node].
    destruct id; try contradiction.
    destruct (destructuringSource init) as [source |] eqn:Hs; [| contradiction].
    destruct (destructuringSource_tag init source Hs) as (i & -> & ->).
    intros Hin. apply in_flat_map in Hin. destruct Hin as (prop & _ & Hin).
    exact (destructuredProperty_source _ _ _ _ Hin).
Qed.

Lemma addNode_sets (filePath : string) (publicPrefixes : list string)
      (m : list (string * Finding.t)) (node : EnvVarNode.t) :
  exists f,
    addNode path_resolve filePath publicPrefixes m node
    = map_set (findingKey node) f m
    /\ Finding.name f = EnvVarNode.name node
    /\ Finding.source f = EnvVarNode.source node.
Proof.
  unfold addNode. destruct (map_get (findingKey node) m);
    eexists; (split; [reflexivity | split; reflexivity]).
Qed.

Lemma addNode_keyed (filePath : string) (publicPrefixes : list string)
      (m : list (string * Finding.t)) (node : EnvVarNode.t) :
  keyed m -> keyed (addNode path_resolve filePath publicPrefixes m node).
Proof.
  intros Hm k f.
  destruct (addNode_sets filePath publicPrefixes m node) as (g & -> & Hname & Hsource).
  destruct (String.eqb_spec k (findingKey node)) as [-> | Hneq].
  - rewrite map_get_set_eq. intros H. injection H as <-.
    rewrite Hname, Hsource. reflexivity.
  - rewrite (map_get_set_neq _ _ _ _ Hneq). apply Hm.
Qed.

(** A finding stays in the map, with its name and source, while more
    nodes are added. *)
Lemma fold_addNode_keeps (filePath : string) (publicPrefixes : list string)
      (nodes : list EnvVarNode.t) :
  forall (m : list (string * Finding.t)) (k : string) (f : Finding.t),
    keyed m -> map_get k m = Some f ->
    exists g,
      map_get k (fold_left (addNode path_resolve filePath publicPrefixes) nodes m)
      = Some g
      /\ Finding.name g = Finding.name f
      /\ Finding.source g = Finding.source f.
Proof.
  induction nodes as [| node rest IH]; intros m k f Hm Hget; cbn [fold_left].
  - exists f. auto.
  - destruct (addNode_sets filePath publicPrefixes m node)
      as (g & Hadd & Hname & Hsource).
    assert (Hkeyed := addNode_keyed filePath publicPrefixes m node Hm).
    destruct (String.eqb_spec k (findingKey node)) as [Hk | Hneq].
    + assert (Hg : map_get k (addNode path_resolve filePath publicPrefixes m node)
                   = Some g)
        by (rewrite Hadd, Hk; apply map_get_set_eq).
      destruct (IH _ k g Hkeyed Hg) as (h & Hh & Hhn & Hhs).
      exists h. split; [exact Hh |].
      pose proof (Hm k f Hget) as Hkf. rewrite Hk in Hkf. unfold findingKey in Hkf.
      apply key_injective in Hkf. destruct Hkf as [Hs Hn].
      split; congruence.
    + apply (IH _ k f Hkeyed).
      rewrite Hadd, (map_get_set_neq _ _ _ _ Hneq). exact Hget.
Qed.

Lemma fold_addNode_covers (filePath : string) (publicPrefixes : list string)
      (nodes : list EnvVarNode.t) :
  forall (m : list (string * Finding.t)) (node : EnvVarNode.t),
    keyed m -> In node nodes ->
    exists g,
      map_get (findingKey node)
              (fold_left (addNode path_resolve filePath publicPrefixes) nodes m)
      = Some g
      /\ Finding.name g = EnvVarNode.name node
      /\ Finding.source g = EnvVarNode.source node.
Proof.
  induction nodes as [| first rest IH]; intros m node Hm Hin; [contradiction |].
  cbn [fold_left].
  assert (Hkeyed := addNode_keyed filePath publicPrefixes m first Hm).
  destruct Hin as [-> | Hin].
  - destruct (addNode_sets filePath publicPrefixes m node)
      as (g & Hadd & Hname & Hsource).
    destruct (fold_addNode_keeps filePath publicPrefixes rest _
                                 (findingKey node) g Hkeyed)
      as (h & Hh & Hhn & Hhs).
    { rewrite Hadd. apply map_get_set_eq. }
    exists h. split; [exact Hh |]. split; congruence.
  - apply IH; assumption.
Qed.

(** Every observation has its finding: same name, same source. *)
Lemma convertNodesToFindings_covers (nodes : list EnvVarNode.t)
      (filePath : string) (options : ScanOptions.t) (node : EnvVarNode.t) :
  In node nodes ->
  exists finding,
    In finding (convertNodesToFindings path_resolve nodes filePath options)
    /\ Finding.name finding = EnvVarNode.name node
    /\ Finding.source finding = EnvVarNode.source node.
Proof.
  intros Hin. unfold convertNodesToFindings.
  destruct (fold_addNode_covers filePath
              (nullish (ScanOptions.publicPrefixes options) []) nodes [] node)
    as (g & Hg & Hname & Hsource); [discriminate | exact Hin |].
  exists g. split; [exact (map_get_In _ _ _ Hg) | split; assumption].
Qed.

End AstFacts.

(** The three idioms of the process environment are observed, each with
    the tag [ast]. *)
Lemma process_env_idioms_observed (path : NodePath) :
  (forall loc object name computed,
      Path.node path = MemberExpression loc object (Identifier name) computed ->
      isProcessEnv object = true ->
      exists node, visit path = [node]
                   /\ EnvVarNode.name node = name /\ EnvVarNode.source node = ast)
  /\ (forall loc object value computed,
         Path.node path = MemberExpression loc object (StringLiteral value) computed ->
         isProcessEnv object = true ->
         exists node, visit path = [node]
                      /\ EnvVarNode.name node = value /\ EnvVarNode.source node = ast)
  /\ (forall loc properties init name value,
         Path.node path = VariableDeclarator loc (ObjectPattern properties) (Some init) ->
         isProcessEnv init = true ->
         In (ObjectProperty (Identifier name) value) properties ->
         exists node, In node (visit path)
                      /\ EnvVarNode.name node = name /\ EnvVarNode.source node = ast).
Proof.
  destruct path as [n key parent parentPath]. cbn [Path.node].
  split; [| split].
  - intros loc object name computed -> Hp.
    unfold visit, analyzeProcessEnvAccess. cbn [Path.node]. rewrite Hp.
    eexists. split; [reflexivity | split; reflexivity].
  - intros loc object value computed -> Hp.
    unfold visit, analyzeProcessEnvAccess. cbn [Path.node]. rewrite Hp.
    eexists. split; [reflexivity | split; reflexivity].
  - intros loc properties init name value -> Hp Hin.
    unfold visit, analyzeDestructuring, destructuringSource. cbn [Path.node].
    rewrite Hp, (process_env_not_import_meta init Hp).
    assert (Hone : exists node,
               In node (destructuredProperty
                          ast
                          (mkPath (VariableDeclarator loc (ObjectPattern properties)
                                                      (Some init))
                                  key parent parentPath)
                          (ObjectProperty (Identifier name) value))
               /\ EnvVarNode.name node = name /\ EnvVarNode.source node = ast).
    { destruct value; cbn; eexists; (split; [left; reflexivity |]);
        split; reflexivity. }
    destruct Hone as (node & Hnode & Hname & Hsource).
    exists node. split; [| split; assumption].
    apply in_flat_map. eexists. split; [exact Hin | exact Hnode].
Qed.

(** C2, as the code has it. Every observation the AST provider makes in
    a file comes from a path of the tree; it carries the tag [ast] when
    the path is an access to the process environment (a member of
    [process.env], by name or by string key, or a destructuring of
    [process.env]) and the tag [importmeta] otherwise; and the findings
    of the file hold a finding with its name and its tag. *)
Theorem ast_provider_source_tags (path_resolve : string -> string) (root : Node)
        (filePath : string) (options : ScanOptions.t) (node : EnvVarNode.t) :
  In node (extractEnvVariables root) ->
  (exists path,
      In path (traverse_paths root)
      /\ In node (visit path)
      /\ EnvVarNode.source node
         = if observesProcessEnv path then ast else importmeta)
  /\ (exists finding,
         In finding (convertNodesToFindings path_resolve (extractEnvVariables root)
                                            filePath options)
         /\ Finding.name finding = EnvVarNode.name node
         /\ Finding.source finding = EnvVarNode.source node).
Proof.
  intros Hin. split.
  - unfold extractEnvVariables in Hin. apply in_flat_map in Hin.
    destruct Hin as (path & Hpath & Hnode).
    exists path. split; [exact Hpath |]. split; [exact Hnode |].
    apply visit_source. exact Hnode.
  - apply convertNodesToFindings_covers. exact Hin.
Qed.

Lemma ast_provider_source_tags_witness :
  exists finding,
    In finding (convertNodesToFindings (fun p => p)
                                       (extractEnvVariables sample_member_access)
                                       "/src/app.ts" ScanOptions.empty)
    /\ Finding.name finding = "API_KEY"
    /\ Finding.source finding = ast.
Proof.
  destruct (ast_provider_source_tags
              (fun p => p) sample_member_access "/src/app.ts" ScanOptions.empty
              (EnvVarNode.mk "API_KEY" ast
                 (SourceLocation.mk (Position.mk 1 15) (Position.mk 1 34))
                 false None None))
    as [_ Hfinding].
  - left. reflexivity.
  - exact Hfinding.
Defined.

(** C2, counterexample. The finding of [process.env.API_KEY] does not
    carry the tag [process]: it carries [ast]. *)
Lemma process_env_access_not_tagged_process :
  ~ (forall finding,
        In finding (convertNodesToFindings (fun p => p)
                                           (extractEnvVariables sample_member_access)
                                           "/src/app.ts" ScanOptions.empty) ->
        Finding.source finding = process).
Proof.
  intros Hclaim.
  assert (Hsource := Hclaim _ (or_introl eq_refl)).
  discriminate Hsource.
Qed.

(** C3, what the code does. In a destructuring of an environment root, a
    key whose default is not a string literal is observed with no
    default and with [hasGuards = false]; a finding made from that
    observation alone is required and has no default. The context is
    chosen by the truthiness of the captured string, so the guard of a
    default clause is lost whenever no string is captured, where
    [analyzeUsageContext] registers the guard of [process.env.PORT || 3000]
    before it looks at the right operand. *)
Theorem destructured_non_literal_default_unguarded
        (path_resolve : string -> string)
        (loc : option SourceLocation.t) (properties : list Node) (init : option Node)
        (key : string) (parent : option Node) (parentPath : option NodePath)
        (source : Source) (name : string) (lhs rhs : Node)
        (filePath : string) (options : ScanOptions.t) :
  destructuringSource init = Some source ->
  In (ObjectProperty (Identifier name) (AssignmentPattern lhs rhs)) properties ->
  isStringLiteral rhs = false ->
  let path :=
    mkPath (VariableDeclarator loc (ObjectPattern properties) init)
           key parent parentPath in
  exists node,
    destructuredProperty source path
                         (ObjectProperty (Identifier name) (AssignmentPattern lhs rhs))
    = [node]
    /\ In node (analyzeDestructuring path)
    /\ EnvVarNode.name node = name
    /\ EnvVarNode.defaultValue node = None
    /\ EnvVarNode.hasGuards node = false
    /\ exists finding,
         convertNodesToFindings path_resolve [node] filePath options = [finding]
         /\ Finding.required finding = true
         /\ Finding.defaultValue finding = None.
Proof.
  intros Hsource Hin Hrhs path.
  exists (createEnvVarNode name source path (UsageContext.mk false None)).
  assert (Hprop :
            destructuredProperty source path
              (ObjectProperty (Identifier name) (AssignmentPattern lhs rhs))
            = [createEnvVarNode name source path (UsageContext.mk false None)])
    by (destruct rhs; try discriminate Hrhs; reflexivity).
  split; [exact Hprop |]. split.
  - unfold analyzeDestructuring, path. cbn [Path.node]. rewrite Hsource.
    apply in_flat_map. eexists. split; [exact Hin |].
    fold path. rewrite Hprop. left. reflexivity.
  - repeat split. eexists. split; [reflexivity | split; reflexivity].
Qed.

Lemma destructured_non_literal_default_unguarded_witness :
  exists node,
    In node (extractEnvVariables sample_destructuring)
    /\ EnvVarNode.name node = "PORT"
    /\ EnvVarNode.defaultValue node = None
    /\ EnvVarNode.hasGuards node = false.
Proof.
  destruct (destructured_non_literal_default_unguarded
              (fun p => p) (at_line 1 6 36)
              [ObjectProperty (Identifier "PORT")
                              (AssignmentPattern (Identifier "PORT")
                                                 (NumericLiteral 3000))]
              (Some process_env) "declarations"
              (Some (VariableDeclaration "const" [port_declarator]))
              (Some (mkPath (VariableDeclaration "const" [port_declarator]) "body"
                            (Some (Program [VariableDeclaration "const"
                                                                [port_declarator]]))
                            (Some (mkPath (Program [VariableDeclaration
                                                      "const" [port_declarator]])
                                          "program"
                                          (Some sample_destructuring) None))))
              ast "PORT" (Identifier "PORT") (NumericLiteral 3000)
              "/src/app.ts" ScanOptions.empty)
    as (node & Hprop & _ & Hname & Hdefault & Hguards & _).
  - reflexivity.
  - left. reflexivity.
  - reflexivity.
  - exists node. split; [| repeat split; assumption].
    injection Hprop as <-. left. reflexivity.
Defined.

(** C3, the failing input. For [const { PORT = 3000 } = process.env] the
    observation of [PORT] is not marked as guarded. *)
Lemma numeric_default_not_guarded :
  ~ (forall node,
        In node (extractEnvVariables sample_destructuring) ->
        EnvVarNode.defaultValue node = None /\ EnvVarNode.hasGuards node = true).
Proof.
  intros Hclaim.
  destruct (Hclaim _ (or_introl eq_refl)) as [_ Hguards].
  discriminate Hguards.
Qed.

(** ** The scanner *)

Section ScannerFacts.

Variable cwd : string.
Variable fileDiscovery : ScanOptions.t -> js (list string).
Variable detectFramework : string -> option string.
Variable localeCompare : string -> string -> Z.
Variable scannedAt : string.
Variables scanTime durationMs : Z.
Variable providers : list (string * Provider.t).

(** [runProvider] never rejects: a provider that throws counts for an
    empty list. *)
Lemma runProvider_settles (files : list string) (options : ScanOptions.t)
      (provider : Provider.t) :
  runProvider files options provider
  = inr (Provider.name provider,
         match Provider.scan provider files options with
         | inr findings => findings
         | inl _ => []
         end).
Proof.
  unfold runProvider.
  destruct (Provider.scan provider files options); reflexivity.
Qed.

Lemma Promise_all_settled {A B : Type} (run : A -> js B) (value : A -> B)
      (l : list A) :
  (forall x, In x l -> run x = inr (value x)) ->
  Promise_all (map run l) = inr (map value l).
Proof.
  induction l as [| x rest IH]; intros Hrun; [reflexivity |].
  cbn [map Promise_all]. rewrite (Hrun x (or_introl eq_refl)).
  rewrite IH by (intros y Hy; apply Hrun; right; exact Hy).
  reflexivity.
Qed.

Lemma map_set_all_empty (name : string) (results : list (string * list Finding.t)) :
  all_empty results -> all_empty (map_set name [] results).
Proof.
  unfold all_empty. induction results as [| [k v] rest IH]; intros Hall; cbn.
  - constructor; [reflexivity | constructor].
  - inversion Hall as [| ? ? Hhead Hrest]; subst.
    destruct (String.eqb k name); constructor; auto.
Qed.

Lemma fold_set_all_empty (entries results : list (string * list Finding.t)) :
  all_empty entries -> all_empty results ->
  all_empty (fold_left (fun results entry => map_set (fst entry) (snd entry) results)
                       entries results).
Proof.
  revert results. induction entries as [| [name findings] rest IH];
    intros results Hentries Hresults; [exact Hresults |].
  inversion Hentries as [| ? ? Hhead Hrest]; subst. cbn in Hhead. subst findings.
  cbn [fold_left fst snd]. apply IH; [exact Hrest |].
  apply map_set_all_empty. exact Hresults.
Qed.

Lemma all_empty_concat (results : list (string * list Finding.t)) :
  all_empty results -> concat (map_values results) = [].
Proof.
  unfold all_empty, map_values.
  induction results as [| [k v] rest IH]; intros Hall; [reflexivity |].
  inversion Hall as [| ? ? Hhead Hrest]; subst. cbn in Hhead. subst v.
  cbn. apply IH. exact Hrest.
Qed.

(** When every enabled provider throws, the map of results holds an
    empty list for each of them. *)
Lemma runProviders_all_fail (files : list string) (options : ScanOptions.t) :
  (forall provider,
      In provider (getEnabledProviders providers options) ->
      exists error, Provider.scan provider files options = inl error) ->
  exists results,
    runProviders providers files options = inr results /\ all_empty results.
Proof.
  intros Hfail. unfold runProviders.
  rewrite (Promise_all_settled (runProvider files options)
                               (fun provider => (Provider.name provider, []))).
  - eexists. split; [reflexivity |].
    apply fold_set_all_empty; [| constructor].
    unfold all_empty. apply Forall_forall. intros entry Hentry.
    apply in_map_iff in Hentry. destruct Hentry as (provider & <- & _).
    reflexivity.
  - intros provider Hin. rewrite runProvider_settles.
    destruct (Hfail provider Hin) as (error & ->). reflexivity.
Qed.

Lemma merge_of_all_empty (results : list (string * list Finding.t)) :
  all_empty results ->
  mergeAndDeduplicateFindings localeCompare results = inr [].
Proof.
  intros Hall. unfold mergeAndDeduplicateFindings.
  rewrite (all_empty_concat results Hall). reflexivity.
Qed.

(** C6. When the files are discovered and the [scan] of every enabled
    provider throws, [Scanner.scan] returns a result, and its list of
    findings is empty. *)
Theorem scan_returns_when_every_provider_fails
        (path : ScanTarget) (options : ScanOptions.t) (files : list string) :
  let scanOptions := normalizeOptions cwd options in
  let finalOptions := scanFinalOptions detectFramework files scanOptions in
  discoverFiles fileDiscovery path scanOptions = inr files ->
  (forall provider,
      In provider (getEnabledProviders providers finalOptions) ->
      exists error, Provider.scan provider files finalOptions = inl error) ->
  exists result,
    scan cwd fileDiscovery detectFramework localeCompare
         scannedAt scanTime durationMs providers path options
    = inr result
    /\ ScanResult.findings result = []
    /\ ScanStats.totalFindings (ScanResult.stats result) = 0
    /\ ScanStats.totalFiles (ScanResult.stats result) = Z.of_nat (List.length files).
Proof.
  intros scanOptions finalOptions Hfiles Hfail.
  destruct (runProviders_all_fail files finalOptions Hfail) as (results & Hrun & Hall).
  unfold scan. fold scanOptions. rewrite Hfiles.
  cbn [bind Monad_either catch Exception_either].
  fold finalOptions. rewrite Hrun.
  rewrite (merge_of_all_empty results Hall).
  destruct (truthyFramework (scanFramework detectFramework files scanOptions));
    eexists; (split; [reflexivity |]); repeat split.
Qed.

End ScannerFacts.

Lemma scan_returns_when_every_provider_fails_witness :
  exists result,
    scan "/project" (fun _ => inr ["/project/src/app.ts"; "/project/.env"])
         (fun _ => None) (fun _ _ => 0) "2024-01-01T00:00:00.000Z" 12 12
         failing_providers (Directory "/project") ScanOptions.empty
    = inr result
    /\ ScanResult.findings result = []
    /\ ScanStats.totalFindings (ScanResult.stats result) = 0
    /\ ScanStats.totalFiles (ScanResult.stats result) = 2.
Proof.
  apply (scan_returns_when_every_provider_fails
           "/project" (fun _ => inr ["/project/src/app.ts"; "/project/.env"])
           (fun _ => None) (fun _ _ => 0) "2024-01-01T00:00:00.000Z" 12 12
           failing_providers (Directory "/project") ScanOptions.empty
           ["/project/src/app.ts"; "/project/.env"]).
  - reflexivity.
  - intros provider Hin. cbn in Hin.
    destruct Hin as [<- | [<- | [<- | [<- | []]]]]; eexists; reflexivity.
Defined.

(** ** The scanner's use of the merge

    [mergeAndDeduplicateFindings] hands [mergeFindings] only groups of
    two or more findings of one name, so the merge does not throw there
    and each variable's [required] is the OR over its group. *)

Section GroupingFacts.

Lemma In_map_set {V : Type} (key k : string) (value v : V)
      (m : list (string * V)) :
  In (k, v) (map_set key value m) ->
  (k = key /\ v = value) \/ In (k, v) m.
Proof.
  induction m as [| [k0 v0] rest IH]; cbn.
  - intros [H | []]. injection H as <- <-. left. split; reflexivity.
  - destruct (String.eqb_spec k0 key) as [-> | Hneq]; cbn.
    + intros [H | H]; [injection H as <- <-; left; split; reflexivity |].
      right. right. exact H.
    + intros [H | H]; [right; left; exact H |].
      destruct (IH H) as [Hk | Hin]; [left; exact Hk | right; right; exact Hin].
Qed.

Lemma map_get_entry {V : Type} (key : string) (value : V) (m : list (string * V)) :
  map_get key m = Some value -> In (key, value) m.
Proof.
  induction m as [| [k v] rest IH]; cbn; [discriminate |].
  destruct (String.eqb_spec k key) as [-> | Hneq].
  - intros H. injection H as ->. left. reflexivity.
  - intros H. right. exact (IH H).
Qed.

Lemma groupByName_well_grouped (allFindings : list Finding.t) :
  well_grouped (groupByName allFindings).
Proof.
  unfold groupByName.
  assert (Hgen : forall groups, well_grouped groups ->
            well_grouped
              (fold_left
                 (fun (findingsByName : list (string * list Finding.t)) finding =>
                    match map_get (Finding.name finding) findingsByName with
                    | Some existing =>
                        map_set (Finding.name finding) (existing ++ [finding])%list
                                findingsByName
                    | None => map_set (Finding.name finding) [finding] findingsByName
                    end)
                 allFindings groups)).
  { induction allFindings as [| finding rest IH]; intros groups Hgroups;
      [exact Hgroups |].
    cbn [fold_left]. apply IH.
    intros name findings Hin.
    destruct (map_get (Finding.name finding) groups) as [existing |] eqn:Hget;
      apply In_map_set in Hin; destruct Hin as [[-> ->] | Hin];
      try (apply Hgroups; exact Hin).
    - destruct (Hgroups _ _ (map_get_entry _ _ _ Hget)) as [_ Hnames].
      split; [destruct existing; discriminate |].
      intros f Hf. apply in_app_or in Hf.
      destruct Hf as [Hf | [<- | []]]; [apply Hnames; exact Hf | reflexivity].
    - split; [discriminate |]. intros f [<- | []]. reflexivity. }
  apply Hgen. intros name findings [].
Qed.

Lemma mergeGroups_well_grouped (groups : list (string * list Finding.t)) :
  well_grouped groups ->
  exists merged,
    mergeGroups groups = inr merged
    /\ Forall2 (fun group finding =>
                  Finding.name finding = fst group
                  /\ Finding.required finding
                     = existsb Finding.required (snd group))
               groups merged.
Proof.
  induction groups as [| [name findings] rest IH]; intros Hgroups.
  - exists []. split; [reflexivity | constructor].
  - destruct IH as (later & Hlater & Hall).
    { intros k g Hin. apply Hgroups. right. exact Hin. }
    destruct (Hgroups name findings (or_introl eq_refl)) as [Hne Hnames].
    cbn [mergeGroups].
    destruct findings as [| first [| second others]]; [contradiction | |].
    + cbn [bind Monad_either ret]. rewrite Hlater.
      exists (first :: later). split; [reflexivity |].
      constructor; [| exact Hall]. cbn. split.
      * apply Hnames. left. reflexivity.
      * rewrite orb_false_r. reflexivity.
    + destruct (mergeFindings_group first second others)
        as (merged & Hmerged & Hname & Hrequired & _).
      { apply forallb_forall. intros f Hf. apply String.eqb_eq.
        rewrite (Hnames f Hf). symmetry. apply Hnames. left. reflexivity. }
      rewrite Hmerged. cbn [bind Monad_either ret]. rewrite Hlater.
      exists (merged :: later). split; [reflexivity |].
      constructor; [| exact Hall]. cbn [fst snd]. split; [| exact Hrequired].
      rewrite Hname. apply Hnames. left. reflexivity.
Qed.

End GroupingFacts.

(** The provider that [createAstProvider] makes declares the source
    [ast], which [isValidSource] does not accept. *)
Lemma ast_provider_declared_source
      (path_resolve : string -> string)
      (readFileSafe : string -> Z -> option string)
      (parse : string -> list string -> js Node)
      (error_text : JsError -> string) (error_line : JsError -> option Z) :
  let provider :=
    createAstProvider path_resolve readFileSafe parse error_text error_line in
  Provider.name provider = "ast"
  /\ Provider.source provider = ast
  /\ isValidSource (JsString (Source_tag (Provider.source provider))) = false.
Proof. repeat split. Qed.

(** ** More on the merge *)

Section MergeFieldFacts.

(** The finding [mergeFindings] builds for two or more findings of one
    name, field by field. *)
Lemma mergeFindings_group_fields (first second : Finding.t) (rest : list Finding.t) :
  let findings := first :: second :: rest in
  forallb (fun f => String.eqb (Finding.name f) (Finding.name first)) findings = true ->
  exists merged,
    mergeFindings findings = inr merged
    /\ Finding.files merged
       = filter_index
           (fun file index =>
              Z.eqb (findIndex (same_position file) (flat_map Finding.files findings))
                    index)
           (flat_map Finding.files findings)
    /\ Finding.source merged
       = nullish
           (find (fun source =>
                    existsb (fun f => Source_eqb (Finding.source f) source) findings)
                 sourceOrder)
           (Finding.source first)
    /\ Finding.notes merged
       = if existsb has_notes findings
         then Some (flat_map (fun f => nullish (Finding.notes f) []) findings)
         else None.
Proof.
  intros findings Hall. subst findings.
  cbv beta iota zeta delta [mergeFindings].
  rewrite Hall. cbn [negb].
  eexists. split; [reflexivity |]. repeat split.
Qed.

Lemma same_position_iff (x y : FileRef.t) :
  same_position x y = true <-> position y = position x.
Proof.
  unfold same_position, position. rewrite !andb_true_iff, String.eqb_eq, !Z.eqb_eq.
  split.
  - intros [[-> ->] ->]. reflexivity.
  - intros H. injection H as -> -> ->. auto.
Qed.

Lemma same_position_refl (x : FileRef.t) : same_position x x = true.
Proof. apply same_position_iff. reflexivity. Qed.

Lemma findIndex_from_app {A : Type} (p : A -> bool) (pre rest : list A) (i : Z) :
  existsb p pre = false ->
  findIndex_from p (pre ++ rest) i
  = findIndex_from p rest (i + Z.of_nat (List.length pre)).
Proof.
  revert i. induction pre as [| y pre IH]; intros i Hpre; cbn [app findIndex_from].
  - cbn. f_equal. lia.
  - cbn in Hpre. apply orb_false_iff in Hpre. destruct Hpre as [Hy Hpre].
    rewrite Hy, (IH _ Hpre). f_equal. cbn [List.length]. lia.
Qed.

Lemma findIndex_from_bound {A : Type} (p : A -> bool) (l : list A) (i : Z) :
  existsb p l = true ->
  i <= findIndex_from p l i < i + Z.of_nat (List.length l).
Proof.
  revert i. induction l as [| y l IH]; intros i Hl; [discriminate |].
  cbn [findIndex_from List.length]. destruct (p y) eqn:Hy.
  - lia.
  - cbn in Hl. rewrite Hy in Hl. cbn in Hl. specialize (IH (i + 1) Hl). lia.
Qed.

(** An element is at the first index of its position exactly when no
    earlier element has that position. *)
Lemma first_index_test (pre rest : list FileRef.t) (x : FileRef.t) :
  Z.eqb (findIndex (same_position x) (pre ++ x :: rest))
        (Z.of_nat (List.length pre))
  = negb (existsb (same_position x) pre).
Proof.
  unfold findIndex. destruct (existsb (same_position x) pre) eqn:Hpre.
  - cbn [negb]. apply Z.eqb_neq.
    assert (Hex : existsb (same_position x) pre = true) by exact Hpre.
    pose proof (findIndex_from_bound (same_position x) pre 0 Hex) as Hb.
    assert (Heq : findIndex_from (same_position x) (pre ++ x :: rest) 0
                  = findIndex_from (same_position x) pre 0).
    { clear Hb Hex. generalize 0. induction pre as [| y pre IH]; intros i;
        [discriminate |].
      cbn [app findIndex_from]. destruct (same_position x y) eqn:Hy; [reflexivity |].
      cbn in Hpre. rewrite Hy in Hpre. cbn in Hpre. apply IH. exact Hpre. }
    rewrite Heq. lia.
  - cbn [negb]. apply Z.eqb_eq.
    rewrite (findIndex_from_app _ pre (x :: rest) 0 Hpre).
    cbn [findIndex_from]. rewrite same_position_refl. lia.
Qed.

Lemma filter_from_keep_first (pre l : list FileRef.t) :
  filter_from
    (fun file index => Z.eqb (findIndex (same_position file) (pre ++ l)) index)
    l (Z.of_nat (List.length pre))
  = keep_first pre l.
Proof.
  revert pre. induction l as [| x rest IH]; intros pre; [reflexivity |].
  cbn [filter_from keep_first].
  rewrite first_index_test.
  specialize (IH (pre ++ [x])%list).
  rewrite <- app_assoc in IH. cbn [app] in IH.
  rewrite length_app in IH. cbn [List.length] in IH.
  replace (Z.of_nat (List.length pre + 1)) with (Z.of_nat (List.length pre) + 1)
    in IH by lia.
  rewrite IH.
  destruct (existsb (same_position x) pre); reflexivity.
Qed.

Lemma filter_index_keep_first (l : list FileRef.t) :
  filter_index
    (fun file index => Z.eqb (findIndex (same_position file) l) index) l
  = keep_first [] l.
Proof. exact (filter_from_keep_first [] l). Qed.

Lemma existsb_same_position (x : FileRef.t) (seen : list FileRef.t) :
  existsb (same_position x) seen = true <-> In (position x) (map position seen).
Proof.
  rewrite existsb_exists, in_map_iff. split.
  - intros (y & Hy & Hsame). exists y. split; [| exact Hy].
    apply same_position_iff. exact Hsame.
  - intros (y & Hpos & Hy). exists y. split; [exact Hy |].
    apply same_position_iff. exact Hpos.
Qed.

Lemma keep_first_In (seen l : list FileRef.t) (r : FileRef.t) :
  In r (keep_first seen l) -> In r l.
Proof.
  revert seen. induction l as [| x rest IH]; intros seen; [contradiction |].
  cbn [keep_first]. destruct (existsb (same_position x) seen).
  - intros H. right. exact (IH _ H).
  - intros [<- | H]; [left; reflexivity | right; exact (IH _ H)].
Qed.

Lemma keep_first_fresh (seen l : list FileRef.t) (r : FileRef.t) :
  In r (keep_first seen l) -> ~ In (position r) (map position seen).
Proof.
  revert seen. induction l as [| x rest IH]; intros seen; [contradiction |].
  cbn [keep_first]. destruct (existsb (same_position x) seen) eqn:Hx.
  - intros H Hin. apply (IH _ H). rewrite map_app. apply in_or_app. left. exact Hin.
  - intros [<- | H] Hin.
    + apply existsb_same_position in Hin. congruence.
    + apply (IH _ H). rewrite map_app. apply in_or_app. left. exact Hin.
Qed.

Lemma keep_first_NoDup (seen l : list FileRef.t) :
  NoDup (map position (keep_first seen l)).
Proof.
  revert seen. induction l as [| x rest IH]; intros seen; [constructor |].
  cbn [keep_first]. destruct (existsb (same_position x) seen); [apply IH |].
  cbn [map]. constructor; [| apply IH].
  intros Hin. apply in_map_iff in Hin. destruct Hin as (y & Hpos & Hy).
  apply keep_first_fresh in Hy. apply Hy. rewrite map_app. apply in_or_app.
  right. left. symmetry. exact Hpos.
Qed.

Lemma keep_first_covers (seen l : list FileRef.t) (r : FileRef.t) :
  In r l ->
  In (position r) (map position seen)
  \/ In (position r) (map position (keep_first seen l)).
Proof.
  revert seen. induction l as [| x rest IH]; intros seen; [contradiction |].
  cbn [keep_first]. intros [<- | Hr].
  - destruct (existsb (same_position x) seen) eqn:Hx.
    + left. apply existsb_same_position. exact Hx.
    + right. left. reflexivity.
  - destruct (IH (seen ++ [x])%list Hr) as [Hseen | Hkept].
    + rewrite map_app in Hseen. apply in_app_or in Hseen.
      destruct Hseen as [Hseen | [Hx | []]]; [left; exact Hseen |].
      destruct (existsb (same_position x) seen) eqn:Hsx.
      * left. rewrite <- Hx. apply existsb_same_position. exact Hsx.
      * right. left. exact Hx.
    + destruct (existsb (same_position x) seen); right; [exact Hkept |].
      right. exact Hkept.
Qed.

End MergeFieldFacts.

(** X1. For a non-empty list of findings of one name, the merged finding
    has that name and is public exactly when some input is public. *)
Theorem mergeFindings_isPublic_is_any (findings : list Finding.t) :
  findings <> [] ->
  (forall f g, In f findings -> In g findings -> Finding.name f = Finding.name g) ->
  exists merged,
    mergeFindings findings = inr merged
    /\ (forall f, In f findings -> Finding.name merged = Finding.name f)
    /\ Finding.isPublic merged = existsb Finding.isPublic findings
    /\ (Finding.isPublic merged = true <->
        exists f, In f findings /\ Finding.isPublic f = true).
Proof.
  intros Hne Hsame.
  destruct findings as [| first [| second rest]].
  - contradiction.
  - exists first. split; [reflexivity |]. split.
    + intros f [<- | []]. reflexivity.
    + assert (Hor : Finding.isPublic first = existsb Finding.isPublic [first])
        by (cbn; rewrite orb_false_r; reflexivity).
      split; [exact Hor |]. rewrite Hor. apply existsb_exists.
  - destruct (mergeFindings_group first second rest (same_name_as_first _ _ Hsame))
      as (merged & Hret & Hname & _ & Hpub & _).
    exists merged. split; [exact Hret |]. split.
    + intros f Hf. rewrite Hname. apply Hsame; [left; reflexivity | exact Hf].
    + split; [exact Hpub |]. rewrite Hpub. apply existsb_exists.
Qed.

Lemma mergeFindings_isPublic_is_any_witness :
  exists merged,
    mergeFindings
      [createFinding "VITE_URL" dotenv [] (FindingOptions.mk None None (Some false) None);
       createFinding "VITE_URL" ast [] (FindingOptions.mk None None (Some true) None)]
    = inr merged
    /\ Finding.isPublic merged = true.
Proof.
  destruct (mergeFindings_isPublic_is_any
              [createFinding "VITE_URL" dotenv []
                             (FindingOptions.mk None None (Some false) None);
               createFinding "VITE_URL" ast []
                             (FindingOptions.mk None None (Some true) None)])
    as (merged & Hret & _ & Hpub & _).
  - discriminate.
  - intros f g [<- | [<- | []]] [<- | [<- | []]]; reflexivity.
  - exists merged. split; [exact Hret | rewrite Hpub; reflexivity].
Defined.

(** X2. When two or more findings of one name are merged, the merged
    references hold every position of the inputs exactly once: no two of
    them share path, line and column, each of them is a reference of
    some input, and every input reference has its position among them. *)
Theorem mergeFindings_files_deduplicated
        (first second : Finding.t) (rest : list Finding.t) (merged : Finding.t) :
  let findings := first :: second :: rest in
  mergeFindings findings = inr merged ->
  NoDup (map position (Finding.files merged))
  /\ (forall r, In r (Finding.files merged) ->
                exists f, In f findings /\ In r (Finding.files f))
  /\ (forall f r, In f findings -> In r (Finding.files f) ->
                  In (position r) (map position (Finding.files merged))).
Proof.
  intros findings Hmerge.
  assert (Hall : forallb (fun f => String.eqb (Finding.name f) (Finding.name first))
                         findings = true).
  { destruct (forallb (fun f => String.eqb (Finding.name f) (Finding.name first))
                      findings) eqn:Hall; [reflexivity |].
    subst findings. cbv beta iota zeta delta [mergeFindings] in Hmerge.
    rewrite Hall in Hmerge. discriminate Hmerge. }
  destruct (mergeFindings_group_fields first second rest Hall)
    as (merged' & Hret & Hfiles & _).
  fold findings in Hret, Hfiles.
  rewrite Hret in Hmerge. injection Hmerge as <-.
  rewrite Hfiles, filter_index_keep_first.
  split; [apply keep_first_NoDup |]. split.
  - intros r Hr. apply keep_first_In in Hr. apply in_flat_map in Hr.
    destruct Hr as (f & Hf & Hr). exists f. split; assumption.
  - intros f r Hf Hr.
    destruct (keep_first_covers [] (flat_map Finding.files findings) r)
      as [[] | Hkept]; [| exact Hkept].
    apply in_flat_map. exists f. split; assumption.
Qed.

Lemma mergeFindings_files_deduplicated_witness :
  exists merged,
    mergeFindings [sample_finding "TEST_VAR" ast "/path/to/file.ts" true None;
                   sample_finding "TEST_VAR" ast "/path/to/file.ts" true None]
    = inr merged
    /\ NoDup (map position (Finding.files merged))
    /\ List.length (Finding.files merged) = 1%nat.
Proof.
  eexists. split; [reflexivity |]. split; [| reflexivity].
  apply (mergeFindings_files_deduplicated
           (sample_finding "TEST_VAR" ast "/path/to/file.ts" true None)
           (sample_finding "TEST_VAR" ast "/path/to/file.ts" true None) []).
  reflexivity.
Defined.

Section MergeSourceFacts.

Lemma existsb_source_false (findings : list Finding.t) (s : Source) (f : Finding.t) :
  existsb (fun g => Source_eqb (Finding.source g) s) findings = false ->
  In f findings -> Finding.source f <> s.
Proof.
  intros Hnone Hf Heq.
  assert (Hsome : existsb (fun g => Source_eqb (Finding.source g) s) findings = true).
  { apply existsb_exists. exists f. split; [exact Hf |]. rewrite Heq.
    destruct s; reflexivity. }
  congruence.
Qed.

Lemma existsb_source_true (findings : list Finding.t) (s : Source) :
  existsb (fun g => Source_eqb (Finding.source g) s) findings = true ->
  exists f, In f findings /\ Finding.source f = s.
Proof.
  intros H. apply existsb_exists in H. destruct H as (f & Hf & Hs).
  exists f. split; [exact Hf |]. destruct (Finding.source f), s; try discriminate Hs;
    reflexivity.
Qed.

(** The source [mergeFindings] picks for a group that is not empty: the
    source of a member, and the one of lowest rank among the members. *)
Lemma primary_source_is_best (first : Finding.t) (findings : list Finding.t) :
  In first findings ->
  let chosen :=
    nullish
      (find (fun source =>
               existsb (fun f => Source_eqb (Finding.source f) source) findings)
            sourceOrder)
      (Finding.source first) in
  (exists f, In f findings /\ Finding.source f = chosen)
  /\ (forall f, In f findings -> (priority chosen <= priority (Finding.source f))%nat).
Proof.
  intros Hfirst. unfold sourceOrder. cbn [find].
  repeat match goal with
         | |- context [existsb (fun f => Source_eqb (Finding.source f) ?s) findings] =>
             let H := fresh "H" in
             destruct (existsb (fun f => Source_eqb (Finding.source f) s) findings)
               eqn:H
         end;
    cbn [nullish]; cbv zeta;
    try (split;
         [ apply existsb_source_true; assumption
         | intros f Hf;
           repeat match goal with
                  | H : existsb _ findings = false |- _ =>
                      apply (fun H' => existsb_source_false findings _ f H' Hf) in H
                  end;
           destruct (Finding.source f); cbn; try lia; congruence ]).
  (* no source of the list occurs: impossible for a group with a member *)
  exfalso.
  repeat match goal with
         | H : existsb _ findings = false |- _ =>
             apply (fun H' => existsb_source_false findings _ first H' Hfirst) in H
         end.
  destruct (Finding.source first); congruence.
Qed.

Lemma flat_map_nil {A B : Type} (f : A -> list B) (l : list A) :
  flat_map f l = [] -> forall x, In x l -> f x = [].
Proof.
  induction l as [| y l IH]; [contradiction |].
  cbn. intros Hnil. apply app_eq_nil in Hnil. destruct Hnil as [Hy Hl].
  intros x [<- | Hx]; [exact Hy | exact (IH Hl x Hx)].
Qed.

End MergeSourceFacts.

(** X3. When two or more findings of one name are merged, the source of
    the merged finding is the source of one of them, and none of them
    has a source that comes earlier in the order ast, process,
    importmeta, dotenv, shell, docker, gha. *)
Theorem mergeFindings_source_priority
        (first second : Finding.t) (rest : list Finding.t) (merged : Finding.t) :
  let findings := first :: second :: rest in
  mergeFindings findings = inr merged ->
  (exists f, In f findings /\ Finding.source f = Finding.source merged)
  /\ (forall f, In f findings ->
                (priority (Finding.source merged) <= priority (Finding.source f))%nat)
  /\ ((exists f, In f findings /\ Finding.source f = ast) ->
      Finding.source merged = ast).
Proof.
  intros findings Hmerge.
  assert (Hall : forallb (fun f => String.eqb (Finding.name f) (Finding.name first))
                         findings = true).
  { destruct (forallb (fun f => String.eqb (Finding.name f) (Finding.name first))
                      findings) eqn:Hall; [reflexivity |].
    subst findings. cbv beta iota zeta delta [mergeFindings] in Hmerge.
    rewrite Hall in Hmerge. discriminate Hmerge. }
  destruct (mergeFindings_group_fields first second rest Hall)
    as (merged' & Hret & _ & Hsource & _).
  fold findings in Hret, Hsource.
  rewrite Hret in Hmerge. injection Hmerge as <-.
  destruct (primary_source_is_best first findings (or_introl eq_refl))
    as [Hmember Hbest].
  rewrite <- Hsource in Hmember, Hbest.
  split; [exact Hmember |]. split; [exact Hbest |].
  intros (f & Hf & Hast). specialize (Hbest f Hf). rewrite Hast in Hbest.
  destruct (Finding.source merged'); cbn in Hbest; try lia. reflexivity.
Qed.

Lemma mergeFindings_source_priority_witness :
  exists merged,
    mergeFindings [sample_finding "DATABASE_URL" gha "/ci.yml" false None;
                   sample_finding "DATABASE_URL" dotenv "/.env" false (Some "x");
                   sample_finding "DATABASE_URL" shell "/run.sh" true None]
    = inr merged
    /\ Finding.source merged = dotenv
    /\ (forall f,
           In f [sample_finding "DATABASE_URL" gha "/ci.yml" false None;
                 sample_finding "DATABASE_URL" dotenv "/.env" false (Some "x");
                 sample_finding "DATABASE_URL" shell "/run.sh" true None] ->
           (priority (Finding.source merged) <= priority (Finding.source f))%nat).
Proof.
  eexists. split; [reflexivity |]. split; [reflexivity |].
  apply (mergeFindings_source_priority
           (sample_finding "DATABASE_URL" gha "/ci.yml" false None)
           (sample_finding "DATABASE_URL" dotenv "/.env" false (Some "x"))
           [sample_finding "DATABASE_URL" shell "/run.sh" true None]).
  reflexivity.
Defined.

(** X4. When two or more findings of one name are merged, an optional
    field of the result is never present and empty: a merged default is
    a non-empty default of some input, and it is absent exactly when no
    input has a non-empty default; merged notes are the inputs' notes
    one after the other, and absent when no input has a note. *)
Theorem mergeFindings_optional_fields
        (first second : Finding.t) (rest : list Finding.t) (merged : Finding.t) :
  let findings := first :: second :: rest in
  mergeFindings findings = inr merged ->
  (forall value, Finding.defaultValue merged = Some value ->
                 value <> EmptyString
                 /\ exists f, In f findings /\ Finding.defaultValue f = Some value)
  /\ (Finding.defaultValue merged = None <->
      forall f, In f findings -> truthy (Finding.defaultValue f) = false)
  /\ (forall notes, Finding.notes merged = Some notes ->
                    notes <> []
                    /\ notes = flat_map (fun f => nullish (Finding.notes f) []) findings)
  /\ (Finding.notes merged = None <->
      forall f, In f findings -> nullish (Finding.notes f) [] = []).
Proof.
  intros findings Hmerge.
  assert (Hall : forallb (fun f => String.eqb (Finding.name f) (Finding.name first))
                         findings = true).
  { destruct (forallb (fun f => String.eqb (Finding.name f) (Finding.name first))
                      findings) eqn:Hall; [reflexivity |].
    subst findings. cbv beta iota zeta delta [mergeFindings] in Hmerge.
    rewrite Hall in Hmerge. discriminate Hmerge. }
  destruct (mergeFindings_group_fields first second rest Hall)
    as (merged' & Hret & _ & _ & Hnotes).
  destruct (mergeFindings_group first second rest Hall)
    as (merged'' & Hret' & _ & _ & _ & Hdefault).
  fold findings in Hret, Hret', Hnotes, Hdefault.
  rewrite Hret in Hret'. injection Hret' as <-.
  rewrite Hret in Hmerge. injection Hmerge as <-.
  assert (Hempty : forall f, has_notes f = false <-> nullish (Finding.notes f) [] = []).
  { intros f. unfold has_notes. destruct (Finding.notes f) as [[| n ns] |]; cbn;
      split; intros H; congruence. }
  repeat split.
  - rewrite Hdefault in H.
    destruct (find (fun f => truthy (Finding.defaultValue f)) findings) as [f |] eqn:Hf;
      [| discriminate].
    apply find_some in Hf. destruct Hf as [_ Htruthy]. rewrite H in Htruthy.
    cbn in Htruthy. intros ->. discriminate Htruthy.
  - rewrite Hdefault in H.
    destruct (find (fun f => truthy (Finding.defaultValue f)) findings) as [f |] eqn:Hf;
      [| discriminate].
    apply find_some in Hf. exists f. split; [apply Hf | exact H].
  - rewrite Hdefault.
    destruct (find (fun f => truthy (Finding.defaultValue f)) findings) as [f |] eqn:Hf.
    + apply find_some in Hf. destruct Hf as [_ Htruthy]. intros Hnone.
      rewrite Hnone in Htruthy. discriminate Htruthy.
    + intros _ f Hin. exact (find_none _ _ Hf f Hin).
  - intros Hnone. rewrite Hdefault.
    destruct (find (fun f => truthy (Finding.defaultValue f)) findings) as [f |] eqn:Hf;
      [| reflexivity].
    apply find_some in Hf. destruct Hf as [Hin Htruthy].
    rewrite (Hnone f Hin) in Htruthy. discriminate Htruthy.
  - rewrite Hnotes in H.
    destruct (existsb has_notes findings) eqn:Hex; [| discriminate].
    injection H as <-. apply existsb_exists in Hex. destruct Hex as (f & Hin & Hf).
    intros Hnil.
    pose proof (flat_map_nil (fun g => nullish (Finding.notes g) []) findings
                             Hnil f Hin) as Hsub.
    apply Hempty in Hsub. congruence.
  - rewrite Hnotes in H.
    destruct (existsb has_notes findings); [| discriminate].
    injection H as <-. reflexivity.
  - rewrite Hnotes. destruct (existsb has_notes findings) eqn:Hex; [discriminate |].
    intros _ f Hin. apply Hempty.
    destruct (has_notes f) eqn:Hf; [| reflexivity].
    assert (existsb has_notes findings = true)
      by (apply existsb_exists; exists f; split; assumption).
    congruence.
  - intros Hnone. rewrite Hnotes.
    destruct (existsb has_notes findings) eqn:Hex; [| reflexivity].
    apply existsb_exists in Hex. destruct Hex as (f & Hin & Hf).
    pose proof (Hnone f Hin) as Hf'. apply Hempty in Hf'. congruence.
Qed.

Lemma mergeFindings_optional_fields_witness :
  exists merged,
    mergeFindings
      [createFinding "PORT" dotenv [] (FindingOptions.mk None (Some "3000") None None);
       createFinding "PORT" shell [] (FindingOptions.mk None None None (Some []))]
    = inr merged
    /\ Finding.notes merged = None
    /\ (forall value, Finding.defaultValue merged = Some value ->
                      value <> EmptyString
                      /\ exists f,
                          In f [createFinding "PORT" dotenv []
                                  (FindingOptions.mk None (Some "3000") None None);
                                createFinding "PORT" shell []
                                  (FindingOptions.mk None None None (Some []))]
                          /\ Finding.defaultValue f = Some value).
Proof.
  eexists. split; [reflexivity |]. split; [reflexivity |].
  apply (mergeFindings_optional_fields
           (createFinding "PORT" dotenv []
                          (FindingOptions.mk None (Some "3000") None None))
           (createFinding "PORT" shell []
                          (FindingOptions.mk None None None (Some [])))
           []).
  reflexivity.
Defined.

(** ** Names, prefixes and groups *)

Section NameFacts.

Lemma span_of_all (p : ascii -> bool) (s : string) :
  string_forallb p s = true -> span p s = (s, EmptyString).
Proof.
  induction s as [| c rest IH]; cbn; [reflexivity |].
  intros H. apply andb_prop in H. destruct H as [Hc Hrest].
  rewrite Hc, (IH Hrest). reflexivity.
Qed.

Lemma startsWith_iff (prefix s : string) :
  startsWith prefix s = true <-> exists rest, s = prefix ++ rest.
Proof.
  unfold startsWith. revert s. induction prefix as [| c prefix IH]; intros s.
  - destruct s; cbn; split; eauto.
  - destruct s as [| d s]; cbn.
    + split; [discriminate | intros (rest & H); discriminate H].
    + destruct (Ascii.ascii_dec c d) as [-> | Hneq].
      * rewrite IH. split; intros (rest & H); exists rest.
        -- rewrite H. reflexivity.
        -- injection H as H. exact H.
      * split; [discriminate |]. intros (rest & H). injection H as H _. congruence.
Qed.

Lemma Source_tag_injective (s s' : Source) :
  Source_tag s = Source_tag s' -> s = s'.
Proof. destruct s, s'; cbn; intros H; try discriminate H; reflexivity. Qed.

End NameFacts.

(** X5. [isValidEnvVarName] accepts exactly the names made of a letter
    or underscore followed by letters, digits and underscores; the empty
    name is rejected. *)
Theorem isValidEnvVarName_iff (name : string) :
  isValidEnvVarName name = true
  <-> exists c tail,
      name = String c tail
      /\ is_ident_start c = true
      /\ string_forallb is_ident_char tail = true.
Proof.
  split; [apply valid_name_shape |].
  intros (c & tail & -> & Hstart & Htail).
  unfold isValidEnvVarName. cbn [truthy_string String.eqb negb].
  rewrite Hstart, (span_of_all _ _ Htail). reflexivity.
Qed.

(** X6. A variable is public exactly when its name is not empty and is
    some configured prefix followed by more text; without prefixes no
    variable is public, and an empty name never is. *)
Theorem isPublicVariable_iff (name : string) (prefixes : list string) :
  (isPublicVariable name prefixes = true
   <-> name <> EmptyString
       /\ exists prefix rest, In prefix prefixes /\ name = prefix ++ rest)
  /\ isPublicVariable name [] = false
  /\ isPublicVariable EmptyString prefixes = false.
Proof.
  split; [| split; [unfold isPublicVariable; destruct name; reflexivity | reflexivity]].
  unfold isPublicVariable, truthy_string.
  destruct (String.eqb_spec name EmptyString) as [-> | Hne]; cbn [negb].
  - split; [discriminate | intros [H _]; contradiction].
  - rewrite existsb_exists. split.
    + intros (prefix & Hin & Hstarts). split; [exact Hne |].
      apply startsWith_iff in Hstarts. destruct Hstarts as (rest & Hrest).
      exists prefix, rest. split; assumption.
    + intros (_ & prefix & rest & Hin & Hrest). exists prefix. split; [exact Hin |].
      apply startsWith_iff. exists rest. exact Hrest.
Qed.

Section GroupBySourceFacts.

Lemma addToGroup_get (groups : list (string * list Finding.t)) (finding : Finding.t)
      (key : string) :
  nullish (map_get key (Utils.addToGroup groups finding)) []
  = if String.eqb key (Source_tag (Finding.source finding))
    then (nullish (map_get key groups) [] ++ [finding])%list
    else nullish (map_get key groups) [].
Proof.
  unfold Utils.addToGroup.
  destruct (String.eqb_spec key (Source_tag (Finding.source finding))) as [-> | Hneq].
  - rewrite map_get_set_eq. cbn [nullish].
    destruct (map_get (Source_tag (Finding.source finding)) groups) eqn:Hget.
    + rewrite Hget. reflexivity.
    + rewrite map_get_set_eq. reflexivity.
  - rewrite (map_get_set_neq _ _ _ _ Hneq).
    destruct (map_get (Source_tag (Finding.source finding)) groups);
      [reflexivity |].
    rewrite (map_get_set_neq _ _ _ _ Hneq). reflexivity.
Qed.

Lemma fold_addToGroup_get (findings : list Finding.t) (source : Source) :
  forall groups,
    nullish (map_get (Source_tag source) (fold_left Utils.addToGroup findings groups)) []
    = (nullish (map_get (Source_tag source) groups) []
       ++ filter (fun f => Source_eqb (Finding.source f) source) findings)%list.
Proof.
  induction findings as [| finding rest IH]; intros groups; cbn [fold_left filter].
  - rewrite app_nil_r. reflexivity.
  - rewrite IH, addToGroup_get.
    destruct (String.eqb_spec (Source_tag source) (Source_tag (Finding.source finding)))
      as [Heq | Hneq].
    + apply Source_tag_injective in Heq. rewrite <- Heq.
      replace (Source_eqb source source) with true by (destruct source; reflexivity).
      rewrite <- app_assoc. reflexivity.
    + replace (Source_eqb (Finding.source finding) source) with false; [reflexivity |].
      destruct (Finding.source finding), source; try reflexivity; congruence.
Qed.

End GroupBySourceFacts.

(** X7. [groupFindingsBySource] files every finding under its own
    source and nowhere else: the group of a source is the findings of
    that source, in their order, and the groups together hold as many
    findings as the input. *)
Theorem groupFindingsBySource_partition (findings : list Finding.t) :
  (forall source,
      group_of (Utils.groupFindingsBySource findings) source
      = filter (fun f => Source_eqb (Finding.source f) source) findings)
  /\ (List.length (flat_map (group_of (Utils.groupFindingsBySource findings))
                            [process; importmeta; docker; gha; shell; dotenv; ast])
      = List.length findings).
Proof.
  assert (Hgroup : forall source,
             group_of (Utils.groupFindingsBySource findings) source
             = filter (fun f => Source_eqb (Finding.source f) source) findings).
  { intros source. unfold Utils.groupFindingsBySource.
    pose proof (fold_addToGroup_get findings source []) as H. cbn [map_get nullish app] in H.
    destruct source; cbn [group_of SourceGroups.process SourceGroups.importmeta
                          SourceGroups.docker SourceGroups.gha SourceGroups.shell
                          SourceGroups.dotenv SourceGroups.ast]; exact H. }
  split; [exact Hgroup |].
  cbn [flat_map]. rewrite !Hgroup, app_nil_r, !length_app. clear Hgroup.
  induction findings as [| f rest IH]; [reflexivity |].
  cbn [filter]. destruct (Finding.source f); cbn [Source_eqb List.length]; lia.
Qed.

(** ** Options and guards *)

Section OptionFacts.

Lemma orElse_idem {A : Type} (a b : option A) : orElse (orElse a b) b = orElse a b.
Proof. destruct a, b; reflexivity. Qed.

End OptionFacts.

Lemma includes_filter_other (key k : string) (keys : list string) :
  k <> key ->
  includes (filter (fun j => negb (String.eqb j key)) keys) k = includes keys k.
Proof.
  intros Hneq. unfold includes.
  induction keys as [| j rest IH]; [reflexivity |].
  cbn [filter existsb]. destruct (String.eqb_spec j key) as [-> | Hj]; cbn [negb].
  - rewrite IH. destruct (String.eqb_spec k key); [contradiction | reflexivity].
  - cbn [existsb]. rewrite IH. reflexivity.
Qed.

Lemma includes_set_undefined_other {A : Type} (key k : string) (value : option A)
      (keys : list string) :
  k <> key -> includes (set_undefined key value keys) k = includes keys k.
Proof.
  intros Hneq. unfold set_undefined.
  destruct value; [apply includes_filter_other; exact Hneq |].
  unfold includes. cbn [existsb].
  destruct (String.eqb_spec k key); [contradiction |].
  apply (includes_filter_other key k keys Hneq).
Qed.

Lemma includes_set_undefined_same {A : Type} (key : string) (keys : list string) :
  includes (set_undefined key (@None A) keys) key = true.
Proof. unfold set_undefined, includes. cbn [existsb]. rewrite String.eqb_refl. reflexivity. Qed.

Lemma spread_with_dir {A : Type} (key : string) (options : ScanOptions.t)
      (dir : option string) (given fallback : option A) :
  key <> "dir" ->
  spread key (with_dir options dir) given fallback = spread key options given fallback.
Proof.
  intros Hneq. unfold spread, with_dir. cbn [ScanOptions.undefinedProperties].
  rewrite (includes_set_undefined_other "dir" key dir _ Hneq). reflexivity.
Qed.

(** X8. [mergeOptions] keeps every option that is given. [dir] falls
    back on the working directory, [framework] stays as given, and the
    nine options with a [??] line fall back on [DEFAULT_SCAN_OPTIONS].
    [includeProviders] and [excludeProviders] come from the spread
    alone: absent they become the empty default, present and
    [undefined] they stay [undefined]; read with a fallback on the
    empty list they are what was given either way. Merging the result
    again changes nothing, and the scanner's [normalizeOptions] gives
    the same options. *)
Theorem mergeOptions_defaults (cwd : string) (options : ScanOptions.t) :
  let merged := mergeOptions cwd options in
  ScanOptions.dir merged = Some (nullish (ScanOptions.dir options) cwd)
  /\ ScanOptions.framework merged = ScanOptions.framework options
  /\ ScanOptions.include merged
     = Some (nullish (ScanOptions.include options)
                     ["**/*.{js,jsx,ts,tsx,mjs,cjs}"; "**/*.{yml,yaml}";
                      "**/*.{sh,bash,zsh}"; ".env*"; "package.json"])
  /\ ScanOptions.exclude merged
     = Some (nullish (ScanOptions.exclude options)
                     ["**/node_modules/**"; ".git/**"; "**/dist/**"; "**/build/**";
                      "**/.next/**"; "**/.nuxt/**"; "**/.svelte-kit/**";
                      "**/coverage/**"; "**/*.d.ts"])
  /\ ScanOptions.publicPrefixes merged
     = Some (nullish (ScanOptions.publicPrefixes options) DEFAULT_PUBLIC_PREFIXES)
  /\ ScanOptions.maxFileSize merged
     = Some (nullish (ScanOptions.maxFileSize options) (1024 * 1024))
  /\ ScanOptions.followSymlinks merged
     = Some (nullish (ScanOptions.followSymlinks options) false)
  /\ ScanOptions.cacheDir merged
     = Some (nullish (ScanOptions.cacheDir options) ".env-audit-cache")
  /\ ScanOptions.cache merged = Some (nullish (ScanOptions.cache options) true)
  /\ ScanOptions.respectGitignore merged
     = Some (nullish (ScanOptions.respectGitignore options) true)
  /\ ScanOptions.debug merged = Some (nullish (ScanOptions.debug options) false)
  /\ ScanOptions.includeProviders merged
     = match ScanOptions.includeProviders options with
       | Some given => Some given
       | None =>
           if includes (ScanOptions.undefinedProperties options) "includeProviders"
           then None else Some []
       end
  /\ ScanOptions.excludeProviders merged
     = match ScanOptions.excludeProviders options with
       | Some given => Some given
       | None =>
           if includes (ScanOptions.undefinedProperties options) "excludeProviders"
           then None else Some []
       end
  /\ nullish (ScanOptions.includeProviders merged) []
     = nullish (ScanOptions.includeProviders options) []
  /\ nullish (ScanOptions.excludeProviders merged) []
     = nullish (ScanOptions.excludeProviders options) []
  /\ mergeOptions cwd merged = merged
  /\ normalizeOptions cwd options = merged.
Proof.
  cbv zeta.
  assert (Hidem : mergeOptions cwd (mergeOptions cwd options) = mergeOptions cwd options).
  { unfold mergeOptions, spread.
    cbn [ScanOptions.dir ScanOptions.include ScanOptions.exclude ScanOptions.framework
         ScanOptions.publicPrefixes ScanOptions.maxFileSize ScanOptions.followSymlinks
         ScanOptions.cacheDir ScanOptions.cache ScanOptions.respectGitignore
         ScanOptions.debug ScanOptions.includeProviders ScanOptions.excludeProviders
         ScanOptions.undefinedProperties nullish].
    rewrite !orElse_idem.
    destruct (ScanOptions.framework options), (ScanOptions.includeProviders options),
      (ScanOptions.excludeProviders options),
      (includes (ScanOptions.undefinedProperties options) "includeProviders"),
      (includes (ScanOptions.undefinedProperties options) "excludeProviders");
      reflexivity. }
  assert (Hnormalize : normalizeOptions cwd options = mergeOptions cwd options).
  { unfold normalizeOptions, mergeOptions.
    rewrite !spread_with_dir by discriminate.
    unfold with_dir, spread.
    cbn [ScanOptions.dir ScanOptions.include ScanOptions.exclude ScanOptions.framework
         ScanOptions.publicPrefixes ScanOptions.maxFileSize ScanOptions.followSymlinks
         ScanOptions.cacheDir ScanOptions.cache ScanOptions.respectGitignore
         ScanOptions.debug ScanOptions.includeProviders ScanOptions.excludeProviders
         ScanOptions.undefinedProperties].
    destruct (ScanOptions.dir options) as [dir |]; cbn [nullish]; [reflexivity |].
    destruct (includes (ScanOptions.undefinedProperties options) "dir"); reflexivity. }
  destruct options as [dir include exclude framework publicPrefixes maxFileSize
                       followSymlinks cacheDir cache respectGitignore debug
                       includeProviders excludeProviders undefinedProperties].
  repeat (split; [first [ exact Hidem | exact Hnormalize
                        | unfold mergeOptions, spread;
                          cbn [ScanOptions.dir ScanOptions.include ScanOptions.exclude
                               ScanOptions.framework ScanOptions.publicPrefixes
                               ScanOptions.maxFileSize ScanOptions.followSymlinks
                               ScanOptions.cacheDir ScanOptions.cache
                               ScanOptions.respectGitignore ScanOptions.debug
                               ScanOptions.includeProviders
                               ScanOptions.excludeProviders
                               ScanOptions.undefinedProperties
                               DEFAULT_SCAN_OPTIONS nullish orElse];
                          try reflexivity;
                          first [ destruct include; reflexivity
                                | destruct exclude; reflexivity
                                | destruct publicPrefixes; reflexivity
                                | destruct maxFileSize; reflexivity
                                | destruct followSymlinks; reflexivity
                                | destruct cacheDir; reflexivity
                                | destruct cache; reflexivity
                                | destruct respectGitignore; reflexivity
                                | destruct debug; reflexivity
                                | destruct includeProviders; [reflexivity |];
                                  destruct (includes undefinedProperties
                                                     "includeProviders");
                                  reflexivity
                                | destruct excludeProviders; [reflexivity |];
                                  destruct (includes undefinedProperties
                                                     "excludeProviders");
                                  reflexivity ] ] |]).
  exact Hnormalize.
Qed.

(** X9. On the run-time form of a finding, [isFinding] holds exactly
    when the source is not [ast], and [isValidSource] holds on a source
    tag exactly when the tag is not ['ast']; [isFinding] rejects [null],
    arrays and primitive values. *)
Theorem isFinding_iff_not_ast (f : Finding.t) :
  (isFinding (Finding_value f) = true <-> Finding.source f <> ast)
  /\ (forall source,
         isValidSource (JsString (Source_tag source)) = negb (Source_eqb source ast))
  /\ (forall value, isFinding value = true -> exists props, value = JsObject props).
Proof.
  split; [| split].
  - destruct f as [name source files required defaultValue isPublic notes].
    cbn [Finding.source]. destruct source; cbn; split; congruence.
  - intros source. destruct source; reflexivity.
  - intros value. destruct value; cbn; try discriminate. eauto.
Qed.

(** ** More on the scanner *)

Section ScannerMapFacts.

Context {V : Type}.

Lemma map_set_keys (key : string) (value : V) (m : list (string * V)) :
  map_keys (map_set key value m)
  = if existsb (String.eqb key) (map_keys m) then map_keys m
    else (map_keys m ++ [key])%list.
Proof.
  unfold map_keys. induction m as [| [k v] rest IH]; cbn; [reflexivity |].
  rewrite (String.eqb_sym key k).
  destruct (String.eqb k key) eqn:Hk; cbn; [reflexivity |].
  rewrite IH. destruct (existsb (String.eqb key) (map fst rest)); reflexivity.
Qed.

Lemma existsb_eqb_In (key : string) (keys : list string) :
  existsb (String.eqb key) keys = true <-> In key keys.
Proof.
  rewrite existsb_exists. split.
  - intros (k & Hk & Heq). apply String.eqb_eq in Heq. subst k. exact Hk.
  - intros Hk. exists key. split; [exact Hk | apply String.eqb_refl].
Qed.

Lemma map_set_keys_NoDup (key : string) (value : V) (m : list (string * V)) :
  NoDup (map_keys m) -> NoDup (map_keys (map_set key value m)).
Proof.
  intros Hm. rewrite map_set_keys.
  destruct (existsb (String.eqb key) (map_keys m)) eqn:Hin; [exact Hm |].
  apply NoDup_app; [exact Hm | repeat constructor; intros [] |].
  intros k Hk [<- | []].
  apply existsb_eqb_In in Hk. congruence.
Qed.

Lemma map_set_keys_In (key k : string) (value : V) (m : list (string * V)) :
  In k (map_keys (map_set key value m)) <-> k = key \/ In k (map_keys m).
Proof.
  rewrite map_set_keys.
  destruct (existsb (String.eqb key) (map_keys m)) eqn:Hin.
  - apply existsb_eqb_In in Hin. split; [auto |]. intros [-> | H]; assumption.
  - rewrite in_app_iff. cbn. split.
    + intros [H | [<- | []]]; auto.
    + intros [-> | H]; auto.
Qed.

Lemma map_get_None_keys (key : string) (m : list (string * V)) :
  map_get key m = None <-> ~ In key (map_keys m).
Proof.
  unfold map_keys. induction m as [| [k v] rest IH]; cbn.
  - split; [intros _ [] | reflexivity].
  - destruct (String.eqb_spec k key) as [-> | Hneq].
    + split; [discriminate | intros H; exfalso; apply H; left; reflexivity].
    + rewrite IH. split.
      * intros H [Hk | Hin]; [congruence | exact (H Hin)].
      * intros H Hin. apply H. right. exact Hin.
Qed.

Lemma In_NoDup_map_get (key : string) (value : V) (m : list (string * V)) :
  NoDup (map_keys m) -> In (key, value) m -> map_get key m = Some value.
Proof.
  unfold map_keys. induction m as [| [k v] rest IH]; cbn; [intros _ [] |].
  intros Hnd [Heq | Hin].
  - injection Heq as -> ->. rewrite String.eqb_refl. reflexivity.
  - inversion Hnd as [| ? ? Hk Hrest]; subst.
    destruct (String.eqb_spec k key) as [-> | Hneq].
    + exfalso. apply Hk. apply in_map_iff. exists (key, value). split; [reflexivity | exact Hin].
    + apply IH; assumption.
Qed.

End ScannerMapFacts.

Section SortFacts.

Context {A : Type}.
Variable compare : A -> A -> Z.

Lemma sort_insert_In (x y : A) (sorted : list A) :
  In y (sort_insert compare x sorted) <-> y = x \/ In y sorted.
Proof.
  induction sorted as [| z rest IH]; cbn.
  - split; [intros [<- | []]; auto | intros [-> | []]; auto].
  - destruct (compare x z <=? 0); cbn.
    + split; [intros [<- | H]; auto | intros [-> | H]; auto].
    + rewrite IH. split.
      * intros [<- | [-> | H]]; auto.
      * intros [-> | [<- | H]]; auto.
Qed.

Lemma sort_insert_length (x : A) (sorted : list A) :
  List.length (sort_insert compare x sorted) = S (List.length sorted).
Proof.
  induction sorted as [| z rest IH]; cbn; [reflexivity |].
  destruct (compare x z <=? 0); cbn; [reflexivity | rewrite IH; reflexivity].
Qed.

Lemma sort_In (y : A) (arr : list A) : In y (sort compare arr) <-> In y arr.
Proof.
  unfold sort. induction arr as [| x rest IH]; cbn; [reflexivity |].
  rewrite sort_insert_In, IH. split; intros [-> | H]; auto.
Qed.

Lemma sort_length (arr : list A) : List.length (sort compare arr) = List.length arr.
Proof.
  unfold sort. induction arr as [| x rest IH]; cbn; [reflexivity |].
  rewrite sort_insert_length, IH. reflexivity.
Qed.

Lemma sort_insert_NoDup {B : Type} (key : A -> B) (x : A) (sorted : list A) :
  NoDup (map key (x :: sorted)) -> NoDup (map key (sort_insert compare x sorted)).
Proof.
  induction sorted as [| z rest IH]; cbn [sort_insert]; [trivial |].
  destruct (compare x z <=? 0); [trivial |].
  intros Hnd. cbn [map] in *.
  inversion Hnd as [| ? ? Hx Hrest]; subst.
  inversion Hrest as [| ? ? Hz Hrest']; subst.
  constructor.
  - intros Hin. apply in_map_iff in Hin. destruct Hin as (w & Hw & Hin).
    apply sort_insert_In in Hin. destruct Hin as [-> | Hin].
    + apply Hx. left. symmetry. exact Hw.
    + apply Hz. apply in_map_iff. exists w. split; assumption.
  - apply IH. constructor; [| exact Hrest'].
    intros Hin. apply Hx. right. exact Hin.
Qed.

Lemma sort_NoDup {B : Type} (key : A -> B) (arr : list A) :
  NoDup (map key arr) -> NoDup (map key (sort compare arr)).
Proof.
  unfold sort. induction arr as [| x rest IH]; cbn [fold_right]; [trivial |].
  intros Hnd. apply sort_insert_NoDup. cbn [map] in *.
  inversion Hnd as [| ? ? Hx Hrest]; subst. constructor.
  - intros Hin. apply Hx. apply in_map_iff in Hin. destruct Hin as (w & Hw & Hin).
    apply in_map_iff. exists w. split; [exact Hw |].
    exact (proj1 (sort_In w rest) Hin).
  - apply IH. exact Hrest.
Qed.

End SortFacts.

Section GroupByNameFacts.

Lemma groupByName_fold (allFindings : list Finding.t) :
  groupByName allFindings = fold_left groupStep allFindings [].
Proof. reflexivity. Qed.

Lemma groupStep_get (groups : list (string * list Finding.t)) (finding : Finding.t)
      (name : string) :
  nullish (map_get name (groupStep groups finding)) []
  = if String.eqb (Finding.name finding) name
    then (nullish (map_get name groups) [] ++ [finding])%list
    else nullish (map_get name groups) [].
Proof.
  unfold groupStep.
  destruct (String.eqb_spec (Finding.name finding) name) as [<- | Hneq].
  - destruct (map_get (Finding.name finding) groups) eqn:Hget;
      rewrite map_get_set_eq; reflexivity.
  - destruct (map_get (Finding.name finding) groups);
      rewrite map_get_set_neq by congruence; reflexivity.
Qed.

Lemma fold_groupStep_get (findings : list Finding.t) (name : string) :
  forall groups,
    nullish (map_get name (fold_left groupStep findings groups)) []
    = (nullish (map_get name groups) [] ++ named name findings)%list.
Proof.
  unfold named.
  induction findings as [| finding rest IH]; intros groups; cbn [fold_left filter].
  - rewrite app_nil_r. reflexivity.
  - rewrite IH, groupStep_get.
    destruct (String.eqb (Finding.name finding) name);
      [rewrite <- app_assoc |]; reflexivity.
Qed.

Lemma groupStep_keys (groups : list (string * list Finding.t)) (finding : Finding.t) :
  (NoDup (map_keys groups) -> NoDup (map_keys (groupStep groups finding)))
  /\ (forall k, In k (map_keys (groupStep groups finding))
                <-> k = Finding.name finding \/ In k (map_keys groups)).
Proof.
  unfold groupStep. destruct (map_get (Finding.name finding) groups); split;
    try apply map_set_keys_NoDup; intros k; apply map_set_keys_In.
Qed.

Lemma fold_groupStep_keys (findings : list Finding.t) :
  forall groups,
    (NoDup (map_keys groups) -> NoDup (map_keys (fold_left groupStep findings groups)))
    /\ (forall k, In k (map_keys (fold_left groupStep findings groups))
                  <-> In k (map_keys groups) \/ In k (map Finding.name findings)).
Proof.
  induction findings as [| finding rest IH]; intros groups; cbn [fold_left map].
  - split; [trivial |]. intros k. cbn. tauto.
  - destruct (IH (groupStep groups finding)) as [Hnd Hkeys].
    destruct (groupStep_keys groups finding) as [Hnd' Hkeys'].
    split; [auto |].
    intros k. rewrite Hkeys, Hkeys'. cbn. split.
    + intros [[-> | H] | H]; auto.
    + intros [H | [<- | H]]; auto.
Qed.

(** The groups of [groupByName]: one for each name, holding the
    findings of that name in their order. *)
Lemma groupByName_groups (allFindings : list Finding.t) :
  NoDup (map_keys (groupByName allFindings))
  /\ (forall k, In k (map_keys (groupByName allFindings))
                <-> In k (map Finding.name allFindings))
  /\ (forall k g, In (k, g) (groupByName allFindings) -> g = named k allFindings).
Proof.
  rewrite groupByName_fold.
  destruct (fold_groupStep_keys allFindings []) as [Hnd Hkeys].
  specialize (Hnd (NoDup_nil _)).
  split; [exact Hnd |]. split.
  - intros k. rewrite Hkeys. cbn. tauto.
  - intros k g Hin.
    pose proof (fold_groupStep_get allFindings k []) as Hget.
    rewrite (In_NoDup_map_get k g _ Hnd Hin) in Hget. exact Hget.
Qed.

(** The merging loop does not throw on groups made by [groupByName]; it
    gives one finding for each group, with the name of the group and
    the OR of the group's flags. *)
Lemma mergeGroups_fields (groups : list (string * list Finding.t)) :
  well_grouped groups ->
  exists merged,
    mergeGroups groups = inr merged
    /\ Forall2 (fun group finding =>
                  Finding.name finding = fst group
                  /\ Finding.required finding
                     = existsb Finding.required (snd group)
                  /\ Finding.isPublic finding
                     = existsb Finding.isPublic (snd group))
               groups merged.
Proof.
  induction groups as [| [name findings] rest IH]; intros Hgroups.
  - exists []. split; [reflexivity | constructor].
  - destruct IH as (later & Hlater & Hall).
    { intros k g Hin. apply Hgroups. right. exact Hin. }
    destruct (Hgroups name findings (or_introl eq_refl)) as [Hne Hnames].
    cbn [mergeGroups].
    destruct findings as [| first [| second others]]; [contradiction | |].
    + cbn [bind Monad_either ret]. rewrite Hlater.
      exists (first :: later). split; [reflexivity |].
      constructor; [| exact Hall]. cbn. rewrite !orb_false_r. split; [| split; reflexivity].
      apply Hnames. left. reflexivity.
    + destruct (mergeFindings_group first second others)
        as (merged & Hmerged & Hname & Hrequired & Hpublic & _).
      { apply forallb_forall. intros f Hf. apply String.eqb_eq.
        rewrite (Hnames f Hf). symmetry. apply Hnames. left. reflexivity. }
      rewrite Hmerged. cbn [bind Monad_either ret]. rewrite Hlater.
      exists (merged :: later). split; [reflexivity |].
      constructor; [| exact Hall]. cbn [fst snd].
      split; [| split; assumption].
      rewrite Hname. apply Hnames. left. reflexivity.
Qed.

Lemma Forall2_In_r {A B : Type} (R : A -> B -> Prop) (l : list A) (l' : list B) (y : B) :
  Forall2 R l l' -> In y l' -> exists x, In x l /\ R x y.
Proof.
  induction 1 as [| x y' l l' Hxy Hrest IH]; [intros [] |].
  intros [<- | Hin].
  - exists x. split; [left; reflexivity | exact Hxy].
  - destruct (IH Hin) as (x' & Hx' & HR). exists x'. split; [right; exact Hx' | exact HR].
Qed.

Lemma Forall2_map_eq {A B C : Type} (f : A -> C) (g : B -> C)
      (l : list A) (l' : list B) :
  Forall2 (fun x y => g y = f x) l l' -> map g l' = map f l.
Proof.
  induction 1 as [| x y l l' Hxy Hrest IH]; [reflexivity |].
  cbn. rewrite Hxy, IH. reflexivity.
Qed.

(** What [mergeAndDeduplicateFindings] returns, in terms of all the
    findings the providers reported. *)
Lemma mergeAndDeduplicate_spec (localeCompare : string -> string -> Z)
      (providerResults : list (string * list Finding.t)) :
  let allFindings := concat (map_values providerResults) in
  exists merged,
    mergeAndDeduplicateFindings localeCompare providerResults = inr merged
    /\ NoDup (map Finding.name merged)
    /\ (forall name, In name (map Finding.name merged)
                     <-> In name (map Finding.name allFindings))
    /\ (forall f, In f merged ->
                  Finding.required f
                  = existsb Finding.required (named (Finding.name f) allFindings)
                  /\ Finding.isPublic f
                     = existsb Finding.isPublic (named (Finding.name f) allFindings)).
Proof.
  intros allFindings. unfold mergeAndDeduplicateFindings. fold allFindings.
  destruct (mergeGroups_fields (groupByName allFindings)
                               (groupByName_well_grouped allFindings))
    as (merged & Hmerged & Hall).
  destruct (groupByName_groups allFindings) as (Hnd & Hkeys & Hgroups).
  rewrite Hmerged. cbn [bind Monad_either ret].
  eexists. split; [reflexivity |].
  assert (Hnames : map Finding.name merged = map_keys (groupByName allFindings)).
  { unfold map_keys. apply Forall2_map_eq.
    eapply Forall2_impl; [| exact Hall]. intros group finding (Hname & _). exact Hname. }
  split; [| split].
  - apply sort_NoDup. rewrite Hnames. exact Hnd.
  - intros name. rewrite <- Hkeys, <- Hnames, !in_map_iff.
    split; intros (f & Hf & Hin); exists f; (split; [exact Hf |]).
    + exact (proj1 (sort_In _ f merged) Hin).
    + exact (proj2 (sort_In _ f merged) Hin).
  - intros f Hf. apply sort_In in Hf.
    destruct (Forall2_In_r _ _ _ f Hall Hf) as ([k g] & Hin & Hname & Hreq & Hpub).
    cbn [fst snd] in *. rewrite Hname, <- (Hgroups k g Hin). split; assumption.
Qed.

End GroupByNameFacts.

(** X10. [mergeAndDeduplicateFindings] does not throw, whatever the
    providers reported, and it returns exactly one finding for each
    variable name: the names of the result are pairwise different, and
    they are the names the providers reported. *)
Theorem merge_one_finding_per_name (localeCompare : string -> string -> Z)
        (providerResults : list (string * list Finding.t)) :
  exists merged,
    mergeAndDeduplicateFindings localeCompare providerResults = inr merged
    /\ NoDup (map Finding.name merged)
    /\ (forall name,
           In name (map Finding.name merged)
           <-> In name (map Finding.name (concat (map_values providerResults)))).
Proof.
  destruct (mergeAndDeduplicate_spec localeCompare providerResults)
    as (merged & Hret & Hnd & Hnames & _).
  exists merged. auto.
Qed.

(** X11. In the result of [mergeAndDeduplicateFindings] a variable is
    required exactly when some provider reported a required finding of
    that name, and public exactly when some provider reported a public
    one. *)
Theorem merged_flags_across_providers (localeCompare : string -> string -> Z)
        (providerResults : list (string * list Finding.t))
        (merged : list Finding.t) (f : Finding.t) :
  mergeAndDeduplicateFindings localeCompare providerResults = inr merged ->
  In f merged ->
  let reports := named (Finding.name f) (concat (map_values providerResults)) in
  reports <> []
  /\ Finding.required f = existsb Finding.required reports
  /\ Finding.isPublic f = existsb Finding.isPublic reports.
Proof.
  intros Hret Hf reports.
  destruct (mergeAndDeduplicate_spec localeCompare providerResults)
    as (merged' & Hret' & _ & Hnames & Hflags).
  rewrite Hret in Hret'. injection Hret' as <-.
  split; [| exact (Hflags f Hf)].
  assert (Hin : In (Finding.name f)
                   (map Finding.name (concat (map_values providerResults))))
    by (apply Hnames; apply in_map; exact Hf).
  apply in_map_iff in Hin. destruct Hin as (g & Hname & Hg).
  intros Hnil.
  assert (Hmember : In g reports).
  { apply filter_In. split; [exact Hg | apply String.eqb_eq; exact Hname]. }
  rewrite Hnil in Hmember. contradiction.
Qed.

Lemma merged_flags_across_providers_witness :
  exists f,
    mergeAndDeduplicateFindings
      (fun a b => if String.leb a b then -1 else 1)
      [("ast", [sample_finding "DATABASE_URL" ast "/src/app.ts" true None]);
       ("dotenv", [sample_finding "DATABASE_URL" dotenv "/.env" false (Some "x");
                   sample_finding "PORT" dotenv "/.env" false (Some "3000")])]
    = inr [f; sample_finding "PORT" dotenv "/.env" false (Some "3000")]
    /\ Finding.name f = "DATABASE_URL"
    /\ Finding.required f = true.
Proof.
  eexists. split; [reflexivity |]. split; [reflexivity |].
  destruct (merged_flags_across_providers
              (fun a b => if String.leb a b then -1 else 1)
              [("ast", [sample_finding "DATABASE_URL" ast "/src/app.ts" true None]);
               ("dotenv", [sample_finding "DATABASE_URL" dotenv "/.env" false (Some "x");
                           sample_finding "PORT" dotenv "/.env" false (Some "3000")])]
              _ _ eq_refl (or_introl eq_refl))
    as (_ & Hrequired & _).
  exact Hrequired.
Defined.

Section ScanFacts.

Variable cwd : string.
Variable fileDiscovery : ScanOptions.t -> js (list string).
Variable detectFramework : string -> option string.
Variable localeCompare : string -> string -> Z.
Variable scannedAt : string.
Variables scanTime durationMs : Z.
Variable providers : list (string * Provider.t).

(** [runProviders] does not reject: it records, for each enabled
    provider, what the provider contributes. *)
Lemma runProviders_settles (files : list string) (options : ScanOptions.t) :
  runProviders providers files options
  = inr (fold_left (fun results entry => map_set (fst entry) (snd entry) results)
                   (map (fun provider =>
                           (Provider.name provider, contribution files options provider))
                        (getEnabledProviders providers options))
                   []).
Proof.
  unfold runProviders.
  rewrite (Promise_all_settled
             (runProvider files options)
             (fun provider =>
                (Provider.name provider, contribution files options provider))).
  - reflexivity.
  - intros provider _. apply runProvider_settles.
Qed.

Lemma countSource_count (groups : SourceCounts.t) (counted source : Source) :
  count_of (countSource groups counted) source
  = count_of groups source + (if Source_eqb counted source then 1 else 0).
Proof.
  destruct groups, counted, source; cbn; lia.
Qed.

Lemma groupFindingsBySource_counts (findings : list Finding.t) (source : Source) :
  count_of (groupFindingsBySource findings) source = count_source source findings.
Proof.
  unfold groupFindingsBySource, count_source.
  assert (Hgen : forall groups,
             count_of (fold_left (fun groups finding =>
                                    countSource groups (Finding.source finding))
                                 findings groups) source
             = count_of groups source
               + Z.of_nat (List.length
                             (filter (fun f => Source_eqb (Finding.source f) source)
                                     findings))).
  { induction findings as [| f rest IH]; intros groups; cbn [fold_left filter].
    - cbn. lia.
    - rewrite IH, countSource_count.
      destruct (Source_eqb (Finding.source f) source); cbn [List.length]; lia. }
  rewrite Hgen. destruct source; reflexivity.
Qed.

Lemma count_source_total (findings : list Finding.t) :
  count_source process findings + count_source importmeta findings
  + count_source dotenv findings + count_source docker findings
  + count_source gha findings + count_source shell findings
  + count_source ast findings
  = Z.of_nat (List.length findings).
Proof.
  unfold count_source. induction findings as [| f rest IH]; [reflexivity |].
  cbn [filter]. destruct (Finding.source f); cbn [Source_eqb List.length]; lia.
Qed.

(** The result [scan] builds once the files are known. *)
Lemma scan_after_discovery (path : ScanTarget) (options : ScanOptions.t)
      (files : list string) :
  discoverFiles fileDiscovery path (normalizeOptions cwd options) = inr files ->
  exists merged framework,
    mergeAndDeduplicateFindings
      localeCompare
      (fold_left (fun results entry => map_set (fst entry) (snd entry) results)
                 (map (fun provider =>
                         (Provider.name provider,
                          contribution
                            files
                            (scanFinalOptions detectFramework files
                                              (normalizeOptions cwd options))
                            provider))
                      (getEnabledProviders
                         providers
                         (scanFinalOptions detectFramework files
                                           (normalizeOptions cwd options))))
                 [])
    = inr merged
    /\ scan cwd fileDiscovery detectFramework localeCompare
            scannedAt scanTime durationMs providers path options
       = inr (ScanResult.mk
                merged
                (ScanStats.mk (Z.of_nat (List.length files))
                              (Z.of_nat (List.length merged))
                              0 scanTime durationMs SourceCounts.zero
                              (groupFindingsBySource merged))
                scannedAt framework).
Proof.
  intros Hfiles. unfold scan. rewrite Hfiles.
  cbn [bind Monad_either catch Exception_either].
  rewrite runProviders_settles.
  match goal with
  | |- context [mergeAndDeduplicateFindings localeCompare ?results] =>
      destruct (mergeAndDeduplicate_spec localeCompare results)
        as (merged & Hmerged & _)
  end.
  exists merged. rewrite Hmerged.
  destruct (truthyFramework
              (scanFramework detectFramework files (normalizeOptions cwd options)));
    eexists; (split; [reflexivity |]); reflexivity.
Qed.

(** X12. [scan] throws only when the discovery of files throws, and
    then it throws the same error; once the files are known it returns
    a result whatever the providers do. Given a list of files instead
    of a directory it always returns. *)
Theorem scan_throws_only_with_discovery (path : ScanTarget) (options : ScanOptions.t) :
  match discoverFiles fileDiscovery path (normalizeOptions cwd options) with
  | inl error =>
      scan cwd fileDiscovery detectFramework localeCompare
           scannedAt scanTime durationMs providers path options
      = inl error
  | inr files =>
      exists result,
        scan cwd fileDiscovery detectFramework localeCompare
             scannedAt scanTime durationMs providers path options
        = inr result
        /\ ScanStats.totalFiles (ScanResult.stats result)
           = Z.of_nat (List.length files)
  end
  /\ (forall files,
         exists result,
           scan cwd fileDiscovery detectFramework localeCompare
                scannedAt scanTime durationMs providers (FileList files) options
           = inr result).
Proof.
  split.
  - destruct (discoverFiles fileDiscovery path (normalizeOptions cwd options))
      as [error | files] eqn:Hfiles.
    + unfold scan. rewrite Hfiles. reflexivity.
    + destruct (scan_after_discovery path options files Hfiles)
        as (merged & framework & _ & Hscan).
      eexists. split; [exact Hscan | reflexivity].
  - intros files.
    destruct (scan_after_discovery (FileList files) options files eq_refl)
      as (merged & framework & _ & Hscan).
    eexists. exact Hscan.
Qed.

(** X13. The statistics of a scan agree with its findings: the total is
    the number of findings, the count of a source is the number of
    findings with that source, and the counts add up to the total. No
    parse error is counted and no file is counted for any provider. *)
Theorem scan_statistics (path : ScanTarget) (options : ScanOptions.t)
        (result : ScanResult.t) :
  scan cwd fileDiscovery detectFramework localeCompare
       scannedAt scanTime durationMs providers path options
  = inr result ->
  let stats := ScanResult.stats result in
  let findings := ScanResult.findings result in
  ScanStats.totalFindings stats = Z.of_nat (List.length findings)
  /\ (forall source,
         count_of (ScanStats.variablesByProvider stats) source
         = count_source source findings)
  /\ count_of (ScanStats.variablesByProvider stats) process
     + count_of (ScanStats.variablesByProvider stats) importmeta
     + count_of (ScanStats.variablesByProvider stats) dotenv
     + count_of (ScanStats.variablesByProvider stats) docker
     + count_of (ScanStats.variablesByProvider stats) gha
     + count_of (ScanStats.variablesByProvider stats) shell
     + count_of (ScanStats.variablesByProvider stats) ast
     = ScanStats.totalFindings stats
  /\ ScanStats.parseErrors stats = 0
  /\ ScanStats.filesByProvider stats = SourceCounts.zero
  /\ NoDup (map Finding.name findings).
Proof.
  intros Hscan.
  destruct (discoverFiles fileDiscovery path (normalizeOptions cwd options))
    as [error | files] eqn:Hfiles.
  { unfold scan in Hscan. rewrite Hfiles in Hscan. discriminate Hscan. }
  destruct (scan_after_discovery path options files Hfiles)
    as (merged & framework & Hmerged & Hscan').
  rewrite Hscan in Hscan'. injection Hscan' as ->.
  cbn [ScanResult.stats ScanResult.findings ScanStats.totalFindings
       ScanStats.variablesByProvider ScanStats.parseErrors ScanStats.filesByProvider].
  split; [reflexivity |]. split; [apply groupFindingsBySource_counts |].
  split; [rewrite !groupFindingsBySource_counts; apply count_source_total |].
  split; [reflexivity |]. split; [reflexivity |].
  match type of Hmerged with
  | mergeAndDeduplicateFindings _ ?results = _ =>
      destruct (mergeAndDeduplicate_spec localeCompare results)
        as (merged' & Hmerged' & Hnd & _)
  end.
  rewrite Hmerged in Hmerged'. injection Hmerged' as <-. exact Hnd.
Qed.

End ScanFacts.

Lemma scan_statistics_witness :
  exists result,
    scan "/project" (fun _ => inr ["/project/src/app.ts"; "/project/.env"])
         (fun _ => None) (fun _ _ => 0) "2024-01-01T00:00:00.000Z" 12 12
         mixed_providers (Directory "/project") ScanOptions.empty
    = inr result
    /\ ScanStats.totalFindings (ScanResult.stats result) = 1
    /\ count_of (ScanStats.variablesByProvider (ScanResult.stats result)) dotenv = 1.
Proof.
  eexists. split; [reflexivity |].
  destruct (scan_statistics
              "/project" (fun _ => inr ["/project/src/app.ts"; "/project/.env"])
              (fun _ => None) (fun _ _ => 0) "2024-01-01T00:00:00.000Z" 12 12
              mixed_providers (Directory "/project") ScanOptions.empty _ eq_refl)
    as (Htotal & Hcount & _).
  split; [exact Htotal | exact (Hcount dotenv)].
Defined.

Section ProviderFacts.

Lemma filter_names_NoDup (keep : Provider.t -> bool) (l : list Provider.t) :
  NoDup (map Provider.name l) -> NoDup (map Provider.name (filter keep l)).
Proof.
  induction l as [| p rest IH]; cbn; [trivial |].
  intros Hnd. inversion Hnd as [| ? ? Hp Hrest]; subst.
  destruct (keep p); [| exact (IH Hrest)].
  cbn. constructor; [| exact (IH Hrest)].
  intros Hin. apply Hp. apply in_map_iff in Hin. destruct Hin as (q & Hq & Hin).
  apply filter_In in Hin. apply in_map_iff. exists q. split; [exact Hq | apply Hin].
Qed.

Lemma getEnabledProviders_names_NoDup (providers : list (string * Provider.t))
      (options : ScanOptions.t) :
  NoDup (map Provider.name (map_values providers)) ->
  NoDup (map Provider.name (getEnabledProviders providers options)).
Proof.
  intros Hnd. unfold getEnabledProviders.
  destruct (nonEmpty (ScanOptions.includeProviders options));
    destruct (nonEmpty (ScanOptions.excludeProviders options));
    repeat apply filter_names_NoDup; exact Hnd.
Qed.

Lemma fold_set_other {V : Type} (entries : list (string * V)) (key : string) :
  forall m,
    ~ In key (map fst entries) ->
    map_get key (fold_left (fun results entry => map_set (fst entry) (snd entry) results)
                           entries m)
    = map_get key m.
Proof.
  induction entries as [| [k v] rest IH]; intros m Hkey; [reflexivity |].
  cbn [fold_left fst snd]. rewrite IH.
  - apply map_get_set_neq. intros ->. apply Hkey. left. reflexivity.
  - intros Hin. apply Hkey. right. exact Hin.
Qed.

Lemma fold_set_get {V : Type} (entries : list (string * V)) (key : string) (value : V) :
  forall m,
    NoDup (map fst entries) -> In (key, value) entries ->
    map_get key (fold_left (fun results entry => map_set (fst entry) (snd entry) results)
                           entries m)
    = Some value.
Proof.
  induction entries as [| [k v] rest IH]; intros m Hnd Hin; [contradiction |].
  cbn [map fst] in Hnd. inversion Hnd as [| ? ? Hk Hrest]; subst.
  cbn [fold_left fst snd]. destruct Hin as [Heq | Hin].
  - injection Heq as -> ->. rewrite (fold_set_other rest key _ Hk).
    apply map_get_set_eq.
  - apply IH; assumption.
Qed.

End ProviderFacts.

(** X14. A provider is enabled for a scan exactly when it is registered,
    is named in [includeProviders] if that list is given and not empty,
    and is not named in [excludeProviders]; a provider that is both
    included and excluded does not run. *)
Theorem getEnabledProviders_iff (providers : list (string * Provider.t))
        (options : ScanOptions.t) (provider : Provider.t) :
  let included := nullish (ScanOptions.includeProviders options) [] in
  let excluded := nullish (ScanOptions.excludeProviders options) [] in
  In provider (getEnabledProviders providers options)
  <-> In provider (map_values providers)
      /\ (included = [] \/ In (Provider.name provider) included)
      /\ ~ In (Provider.name provider) excluded.
Proof.
  assert (Hincludes : forall l name, includes l name = true <-> In name l).
  { intros l name. unfold includes. apply existsb_eqb_In. }
  assert (Hinc : forall l : list Provider.t,
             In provider
                (if nonEmpty (ScanOptions.includeProviders options)
                 then filter (fun q =>
                                includes
                                  (nullish (ScanOptions.includeProviders options) [])
                                  (Provider.name q)) l
                 else l)
             <-> In provider l
                 /\ (nullish (ScanOptions.includeProviders options) [] = []
                     \/ In (Provider.name provider)
                           (nullish (ScanOptions.includeProviders options) []))).
  { intros l. unfold nonEmpty.
    destruct (ScanOptions.includeProviders options) as [[| inc incs] |]; cbn [nullish].
    - tauto.
    - rewrite filter_In, Hincludes. split; [tauto |].
      intros [Hl [Hnil | Hin]]; [discriminate Hnil | tauto].
    - tauto. }
  assert (Hexc : forall l : list Provider.t,
             In provider
                (if nonEmpty (ScanOptions.excludeProviders options)
                 then filter (fun q =>
                                negb (includes
                                        (nullish (ScanOptions.excludeProviders options) [])
                                        (Provider.name q))) l
                 else l)
             <-> In provider l
                 /\ ~ In (Provider.name provider)
                         (nullish (ScanOptions.excludeProviders options) [])).
  { intros l. unfold nonEmpty.
    destruct (ScanOptions.excludeProviders options) as [[| exc excs] |]; cbn [nullish].
    - cbn. tauto.
    - rewrite filter_In, negb_true_iff, <- Hincludes.
      destruct (includes (exc :: excs) (Provider.name provider));
        split; intros [Hl H]; split; auto; congruence.
    - cbn. tauto. }
  cbv zeta. unfold getEnabledProviders. rewrite Hexc, Hinc. tauto.
Qed.

(** X15. With providers registered under different names, the map of
    results of [runProviders] holds for each enabled provider exactly
    what that provider returned, and an empty list if it threw: a
    failing provider does not touch what the others found. *)
Theorem runProviders_isolates_failures (providers : list (string * Provider.t))
        (files : list string) (options : ScanOptions.t) (provider : Provider.t) :
  NoDup (map Provider.name (map_values providers)) ->
  In provider (getEnabledProviders providers options) ->
  exists results,
    runProviders providers files options = inr results
    /\ map_get (Provider.name provider) results
       = Some match Provider.scan provider files options with
              | inr findings => findings
              | inl _ => []
              end.
Proof.
  intros Hnd Hin. rewrite runProviders_settles.
  eexists. split; [reflexivity |].
  apply fold_set_get.
  - rewrite map_map. cbn [fst].
    apply getEnabledProviders_names_NoDup. exact Hnd.
  - apply in_map_iff. exists provider. split; [reflexivity | exact Hin].
Qed.

Lemma runProviders_isolates_failures_witness :
  exists results,
    runProviders mixed_providers ["/project/.env"] ScanOptions.empty = inr results
    /\ map_get "dotenv" results
       = Some [sample_finding "PORT" dotenv "/project/.env" false (Some "3000")]
    /\ map_get "ast" results = Some [].
Proof.
  destruct (runProviders_isolates_failures
              mixed_providers ["/project/.env"] ScanOptions.empty
              (fixed_provider "dotenv" dotenv
                 [sample_finding "PORT" dotenv "/project/.env" false (Some "3000")]))
    as (results & Hrun & Hget).
  - repeat constructor; cbn; intuition discriminate.
  - right. left. reflexivity.
  - exists results. split; [exact Hrun |]. split; [exact Hget |].
    cbn in Hrun. injection Hrun as <-. reflexivity.
Defined.

(** ** More on the dotenv provider *)

Section DotenvFacts.

Lemma parseEnvValue_cases (value : string) :
  (ParsedValue.value (parseEnvValue value) = None
   /\ ParsedValue.hasValue (parseEnvValue value) = false)
  \/ (exists v,
         ParsedValue.value (parseEnvValue value) = Some v
         /\ ParsedValue.hasValue (parseEnvValue value) = true
         /\ includes placeholders (toUpperCase v) = false).
Proof.
  unfold parseEnvValue.
  destruct (negb (truthy_string value)); [left; split; reflexivity |].
  match goal with
  | |- context [includes placeholders (toUpperCase ?t)] =>
      destruct (includes placeholders (toUpperCase t)) eqn:Hplace
  end.
  - left. split; reflexivity.
  - right. eexists. split; [reflexivity |]. split; [reflexivity | exact Hplace].
Qed.

Lemma not_placeholder_not_empty (v : string) :
  includes placeholders (toUpperCase v) = false -> v <> EmptyString.
Proof. intros H ->. discriminate H. Qed.

(** What [parseEnvLine] returns: a valid name, and a default that is
    present and not empty exactly when [hasDefault] holds. *)
Lemma parseEnvLine_shape (line : string) (lineNumber : Z) (parsed : EnvLine.t) :
  parseEnvLine line lineNumber = Some parsed ->
  isValidEnvVarName (EnvLine.name parsed) = true
  /\ ((EnvLine.hasDefault parsed = false /\ EnvLine.defaultValue parsed = None)
      \/ (exists v, EnvLine.hasDefault parsed = true
                    /\ EnvLine.defaultValue parsed = Some v
                    /\ v <> EmptyString
                    /\ includes placeholders (toUpperCase v) = false)).
Proof.
  unfold parseEnvLine.
  destruct (_ && _ && _); cbv beta iota zeta.
  all: destruct (match_key_value _) as [[name value] |]; [| discriminate].
  all: destruct (negb (truthy_string name)); [discriminate |].
  all: destruct (isValidEnvVarName name) eqn:Hvalid; cbn [negb]; [| discriminate].
  all: intros H; injection H as <-; cbn [EnvLine.name EnvLine.hasDefault
                                            EnvLine.defaultValue].
  all: split; [exact Hvalid |].
  all: destruct (parseEnvValue_cases value) as [[-> ->] | (v & -> & -> & Hv)];
    [left; split; reflexivity |].
  all: right; exists v; repeat split; try assumption;
    apply not_placeholder_not_empty; exact Hv.
Qed.

Variable path_resolve : string -> string.

(** The findings of the lines from line [lineNumber] on. *)
Lemma scanLines_shape (filePath : string) (publicPrefixes : list string)
      (lines : list string) :
  forall (lineNumber : Z) (finding : Finding.t),
    In finding (scanLines path_resolve filePath publicPrefixes lines lineNumber) ->
    Finding.source finding = dotenv
    /\ isValidEnvVarName (Finding.name finding) = true
    /\ (exists line context,
           Finding.files finding
           = [FileRef.mk (path_resolve filePath) line 1 context None]
           /\ lineNumber <= line < lineNumber + Z.of_nat (List.length lines))
    /\ (Finding.required finding = true <-> Finding.defaultValue finding = None)
    /\ (forall v, Finding.defaultValue finding = Some v ->
                  v <> EmptyString
                  /\ includes placeholders (toUpperCase v) = false)
    /\ Finding.isPublic finding
       = isPublicVariable (Finding.name finding) publicPrefixes.
Proof.
  induction lines as [| raw rest IH]; intros lineNumber finding Hin; [contradiction |].
  cbn [scanLines] in Hin.
  assert (Hlater :
            In finding (scanLines path_resolve filePath publicPrefixes rest
                                  (lineNumber + 1)) ->
            Finding.source finding = dotenv
            /\ isValidEnvVarName (Finding.name finding) = true
            /\ (exists line context,
                   Finding.files finding
                   = [FileRef.mk (path_resolve filePath) line 1 context None]
                   /\ lineNumber <= line
                      < lineNumber + Z.of_nat (List.length (raw :: rest)))
            /\ (Finding.required finding = true <-> Finding.defaultValue finding = None)
            /\ (forall v, Finding.defaultValue finding = Some v ->
                          v <> EmptyString
                          /\ includes placeholders (toUpperCase v) = false)
            /\ Finding.isPublic finding
               = isPublicVariable (Finding.name finding) publicPrefixes).
  { intros H. destruct (IH _ _ H) as (Hs & Hn & (line & context & Hf & Hb) & Hrest).
    split; [exact Hs |]. split; [exact Hn |]. split; [| exact Hrest].
    exists line, context. split; [exact Hf |]. cbn [List.length]. lia. }
  destruct (negb (truthy_string (trim raw)) || startsWith "#" (trim raw));
    [exact (Hlater Hin) |].
  destruct (parseEnvLine (trim raw) lineNumber) as [envVar |] eqn:Hparse;
    [| exact (Hlater Hin)].
  destruct Hin as [<- | Hin]; [| exact (Hlater Hin)].
  destruct (parseEnvLine_shape _ _ _ Hparse) as [Hvalid Hdefault].
  cbn [createFinding Finding.source Finding.name Finding.files Finding.required
       Finding.defaultValue Finding.isPublic FindingOptions.required
       FindingOptions.defaultValue FindingOptions.isPublic nullish].
  split; [reflexivity |]. split; [exact Hvalid |]. split.
  { eexists _, _. split; [reflexivity |]. cbn [List.length]. lia. }
  destruct Hdefault as [[-> ->] | (v & -> & -> & Hne & Hplace)]; cbn [truthy negb].
  - split; [split; reflexivity |]. split; [intros w Hw; discriminate Hw | reflexivity].
  - assert (Htruthy : truthy_string v = true).
    { unfold truthy_string. apply negb_true_iff. apply String.eqb_neq. exact Hne. }
    rewrite Htruthy. split; [split; discriminate |].
    split; [| reflexivity].
    intros w Hw. injection Hw as <-. split; assumption.
Qed.

End DotenvFacts.

(** X16. [parseEnvValue] records a value exactly when it reports one,
    and a recorded value is never empty and never one of the
    placeholders, compared without regard to case. *)
Theorem parseEnvValue_recorded_value (value : string) :
  (ParsedValue.hasValue (parseEnvValue value) = true
   <-> exists v, ParsedValue.value (parseEnvValue value) = Some v)
  /\ (forall v, ParsedValue.value (parseEnvValue value) = Some v ->
                v <> EmptyString
                /\ ~ In (toUpperCase v) placeholders)
  /\ ParsedValue.hasValue (parseEnvValue EmptyString) = false.
Proof.
  split; [| split; [| reflexivity]].
  - destruct (parseEnvValue_cases value) as [[-> ->] | (v & -> & -> & _)].
    + split; [discriminate | intros (v & Hv); discriminate Hv].
    + split; eauto.
  - intros v Hv.
    destruct (parseEnvValue_cases value) as [[Hnone _] | (w & Hw & _ & Hplace)];
      [congruence |].
    rewrite Hw in Hv. injection Hv as ->.
    split; [exact (not_placeholder_not_empty v Hplace) |].
    intros Hin. apply existsb_eqb_In in Hin. unfold includes in Hplace. congruence.
Qed.

(** X17. Every finding the dotenv provider makes of a file has the
    source [dotenv], a valid name, and one reference, at column 1 of a
    line of the file; it is required exactly when it has no default, and
    a default is never empty nor a placeholder. A file that cannot be
    read, or is empty, gives no finding. *)
Theorem dotenv_scanFile_findings
        (path_resolve : string -> string)
        (readFileSafe : string -> Z -> option string)
        (filePath : string) (options : ScanOptions.t) (finding : Finding.t) :
  In finding (dotenv_scanFile path_resolve readFileSafe filePath options) ->
  (exists content,
      readFileSafe filePath (nullish (ScanOptions.maxFileSize options) (1024 * 1024))
      = Some content
      /\ content <> EmptyString
      /\ exists line context,
          Finding.files finding
          = [FileRef.mk (path_resolve filePath) line 1 context None]
          /\ 1 <= line
             <= Z.of_nat (List.length (split (String newline EmptyString) content)))
  /\ Finding.source finding = dotenv
  /\ isValidEnvVarName (Finding.name finding) = true
  /\ (Finding.required finding = true <-> Finding.defaultValue finding = None)
  /\ (forall v, Finding.defaultValue finding = Some v ->
                v <> EmptyString /\ includes placeholders (toUpperCase v) = false).
Proof.
  unfold dotenv_scanFile.
  destruct (readFileSafe filePath _) as [content |]; [| contradiction].
  destruct content as [| c content']; [contradiction |].
  cbn [truthy_string String.eqb negb]. intros Hin.
  destruct (scanLines_shape path_resolve filePath _ _ _ _ Hin)
    as (Hsource & Hname & (line & context & Hfiles & Hbound) & Hreq & Hdef & _).
  split; [| split; [exact Hsource | split; [exact Hname | split; assumption]]].
  eexists. split; [reflexivity |]. split; [discriminate |].
  exists line, context. split; [exact Hfiles | lia].
Qed.

Lemma dotenv_scanFile_findings_witness :
  exists finding,
    In finding (dotenv_scanFile (fun p => p) (fun _ _ => Some "PUBLIC_KEY= # No default")
                                "/project/.env" ScanOptions.empty)
    /\ Finding.name finding = "PUBLIC_KEY"
    /\ (Finding.required finding = true <-> Finding.defaultValue finding = None)
    /\ Finding.required finding = true.
Proof.
  eexists. split; [left; reflexivity |]. split; [reflexivity |]. split; [| reflexivity].
  apply (dotenv_scanFile_findings
           (fun p => p) (fun _ _ => Some "PUBLIC_KEY= # No default")
           "/project/.env" ScanOptions.empty).
  left. reflexivity.
Defined.

(** ** More on the shell provider *)

Section ReferenceFacts.

Lemma span_split (p : ascii -> bool) (s : string) :
  s = fst (span p s) ++ snd (span p s)
  /\ string_forallb p (fst (span p s)) = true.
Proof.
  induction s as [| c rest IH]; cbn; [split; reflexivity |].
  destruct (p c) eqn:Hc; [| split; reflexivity].
  destruct (span p rest) as [taken left]. cbn in *.
  destruct IH as [IH1 IH2]. rewrite Hc. split; [rewrite <- IH1; reflexivity | exact IH2].
Qed.

Lemma append_assoc (a b c : string) : (a ++ b) ++ c = a ++ (b ++ c).
Proof. induction a as [| x a IH]; cbn; [reflexivity | rewrite IH; reflexivity]. Qed.

Lemma len_append (a b : string) : len (a ++ b) = len a + len b.
Proof.
  unfold len. induction a as [| x a IH]; cbn [append String.length]; [lia |].
  rewrite !Nat2Z.inj_succ. lia.
Qed.

Lemma ident_char_not_colon (c : ascii) :
  is_ident_char c = true -> not_colon c = true.
Proof.
  destruct c as [[] [] [] [] [] [] [] []]; vm_compute; intros H;
    solve [reflexivity | discriminate H].
Qed.

Lemma prefix_colon_false (needle_tail : string) (c : ascii) (rest : string) :
  not_colon c = true ->
  String.prefix (String ":" needle_tail) (String c rest) = false.
Proof.
  intros Hc. cbn [String.prefix].
  destruct (Ascii.ascii_dec ":" c) as [<- | Hneq]; [discriminate Hc | reflexivity].
Qed.

(** Looking for a text that starts with a colon passes over a name. *)
Lemma indexOf_from_over_name (needle_tail name rest : string) (i : Z) :
  string_forallb not_colon name = true ->
  rest <> EmptyString ->
  indexOf_from (String ":" needle_tail) (name ++ rest) i
  = indexOf_from (String ":" needle_tail) rest (i + len name).
Proof.
  intros Hname Hrest. revert i. induction name as [| c name IH]; intros i.
  - cbn [append]. f_equal. unfold len. cbn. lia.
  - cbn in Hname. apply andb_prop in Hname. destruct Hname as [Hc Hname].
    cbn [append]. unfold indexOf_from at 1. fold indexOf_from.
    rewrite (prefix_colon_false _ _ _ Hc), (IH Hname). f_equal.
    unfold len. cbn [String.length]. rewrite Nat2Z.inj_succ. lia.
Qed.

Lemma indexOf_colon_in_name (needle_tail name : string) :
  string_forallb not_colon name = true ->
  indexOf (String ":" needle_tail) name = -1.
Proof.
  intros Hname. unfold indexOf. generalize 0.
  induction name as [| c name IH]; intros i; [reflexivity |].
  cbn in Hname. apply andb_prop in Hname. destruct Hname as [Hc Hname].
  unfold indexOf_from. fold indexOf_from.
  rewrite (prefix_colon_false _ _ _ Hc). apply IH. exact Hname.
Qed.

Lemma split_go_over_name (name rest piece : string) :
  string_forallb not_colon name = true ->
  split_go ":-" (name ++ rest) O piece = split_go ":-" rest O (piece ++ name).
Proof.
  intros Hname. revert piece. induction name as [| c name IH]; intros piece.
  - cbn [append]. f_equal. induction piece as [| x piece IHp]; cbn; congruence.
  - cbn in Hname. apply andb_prop in Hname. destruct Hname as [Hc Hname].
    cbn [append split_go]. rewrite (prefix_colon_false _ _ _ Hc), (IH Hname).
    f_equal. rewrite append_assoc. reflexivity.
Qed.

Lemma split_go_nonempty (sep s : string) :
  forall (skip : nat) (piece : string), split_go sep s skip piece <> [].
Proof.
  induction s as [| c rest IH]; intros skip piece; cbn [split_go]; [discriminate |].
  destruct skip; [| apply IH].
  destruct (String.prefix sep (String c rest)); [discriminate | apply IH].
Qed.

Lemma split_go_at_sep (text piece : string) :
  split_go ":-" (String ":" (String "-" text)) O piece
  = piece :: split_go ":-" text O EmptyString.
Proof. destruct text; reflexivity. Qed.

Lemma indexOf_from_at_sep (text : string) (i : Z) :
  indexOf_from ":-" (String ":" (String "-" text)) i = i.
Proof. destruct text; reflexivity. Qed.

(** The first piece of [content.split(':-')] for a name followed by the
    operator. *)
Lemma split_name_default (name text : string) :
  string_forallb not_colon name = true ->
  exists pieces,
    split ":-" (name ++ ":-" ++ text) = name :: pieces /\ pieces <> [].
Proof.
  intros Hname. unfold split. rewrite (split_go_over_name _ _ _ Hname).
  cbn [append]. rewrite split_go_at_sep.
  eexists. split; [reflexivity | apply split_go_nonempty].
Qed.

Lemma leading_valid (c : ascii) (rest : string) :
  is_ident_start c = true ->
  isValidEnvVarName (String c (fst (span is_ident_char rest))) = true.
Proof.
  intros Hc. unfold isValidEnvVarName. cbn [truthy_string String.eqb negb].
  rewrite Hc, (span_of_all _ _ (proj2 (span_split is_ident_char rest))). reflexivity.
Qed.

Lemma varRef_at_form (s : string) (m : RegexMatch.t) :
  varRef_at s = Some m ->
  exists name post,
    isValidEnvVarName name = true
    /\ s = RegexMatch.fullMatch m ++ post
    /\ MatchForm m name.
Proof.
  unfold varRef_at.
  destruct s as [| d after_dollar]; [discriminate |].
  destruct (Ascii.ascii_dec d "$") as [-> | Hd];
    [| destruct d as [[] [] [] [] [] [] [] []]; try discriminate; contradiction].
  destruct (varRef_braced after_dollar) as [content |] eqn:Hbraced.
  - intros H. injection H as <-. cbn [RegexMatch.fullMatch RegexMatch.group1
                                        RegexMatch.group2].
    unfold varRef_braced in Hbraced.
    destruct after_dollar as [| b [| c rest]]; try discriminate.
    { destruct b as [[] [] [] [] [] [] [] []]; discriminate. }
    destruct (Ascii.ascii_dec b "{") as [-> | Hb];
      [| destruct b as [[] [] [] [] [] [] [] []]; try discriminate; contradiction].
    destruct (is_ident_start c) eqn:Hc; [| discriminate].
    pose proof (span_split is_ident_char rest) as [Hrest Hall].
    pose proof (leading_valid c rest Hc) as Hvalid.
    destruct (span is_ident_char rest) as [name_tail after_name]. cbn [fst snd] in *.
    exists (String c name_tail).
    destruct after_name as [| a1 after1].
    { discriminate. }
    destruct (Ascii.ascii_dec a1 "}") as [-> | Hclose].
    { injection Hbraced as <-. exists after1. split; [exact Hvalid |]. split.
      - rewrite Hrest. cbn [append]. rewrite ?append_assoc. reflexivity.
      - apply BracedForm; reflexivity. }
    destruct (Ascii.ascii_dec a1 ":") as [-> | Hcolon];
      [| destruct a1 as [[] [] [] [] [] [] [] []]; try discriminate; contradiction].
    destruct after1 as [| a2 after2]; [discriminate |].
    destruct (Ascii.ascii_dec a2 "-") as [-> | Hdash];
      [| destruct a2 as [[] [] [] [] [] [] [] []]; try discriminate; contradiction].
    pose proof (span_split (fun d => negb (Ascii.eqb d "}")) after2) as [Htext _].
    destruct (span (fun d => negb (Ascii.eqb d "}")) after2) as [text closing].
    cbn [fst snd] in Htext.
    destruct closing as [| e post]; [discriminate |].
    destruct (Ascii.ascii_dec e "}") as [-> | He];
      [| destruct e as [[] [] [] [] [] [] [] []]; try discriminate; contradiction].
    injection Hbraced as <-. exists post. split; [exact Hvalid |]. split.
    + rewrite Hrest, Htext. cbn [append]. rewrite ?append_assoc. cbn [append].
      rewrite ?append_assoc. reflexivity.
    + apply (DefaultForm _ _ text); cbn [append]; rewrite ?append_assoc; reflexivity.
  - unfold varRef_simple. destruct after_dollar as [| c rest]; [discriminate |].
    destruct (is_ident_start c) eqn:Hc; [| discriminate].
    intros H. injection H as <-. cbn [RegexMatch.fullMatch RegexMatch.group1
                                        RegexMatch.group2].
    pose proof (span_split is_ident_char rest) as [Hrest _].
    exists (String c (fst (span is_ident_char rest))), (snd (span is_ident_char rest)).
    split; [apply leading_valid; exact Hc |]. split.
    + cbn [append]. rewrite <- Hrest. reflexivity.
    + apply SimpleForm; reflexivity.
Qed.

Lemma valid_name_not_colon (name : string) :
  isValidEnvVarName name = true ->
  string_forallb not_colon name = true /\ name <> EmptyString.
Proof.
  intros Hvalid. destruct (valid_name_shape name Hvalid) as (c & tail & -> & Hc & Htail).
  split; [| discriminate]. cbn.
  rewrite (ident_char_not_colon c (ident_start_is_ident_char c Hc)).
  exact (string_forallb_impl _ _ tail ident_char_not_colon Htail).
Qed.

(** The reference built from a match of either form. *)
Lemma reference_of_form (m : RegexMatch.t) (name : string) (index : Z) :
  isValidEnvVarName name = true ->
  MatchForm m name ->
  exists hasDefault defaultValue,
    reference_of_match m index
    = Some (VarRef.mk name hasDefault defaultValue (index + 1)
                      (index + len (RegexMatch.fullMatch m)))
    /\ (hasDefault = true <-> defaultValue <> None)
    /\ (hasDefault = true <->
        exists text, RegexMatch.fullMatch m = "${" ++ name ++ ":-" ++ text ++ "}").
Proof.
  intros Hvalid Hform.
  destruct (valid_name_not_colon name Hvalid) as [Hcolon Hne].
  assert (Htruthy : truthy_string name = true).
  { unfold truthy_string. apply negb_true_iff. apply String.eqb_neq. exact Hne. }
  unfold reference_of_match.
  destruct Hform as [Hg1 Hg2 Hfull | Hg1 Hfull | text Hg1 Hfull].
  - rewrite Hg1, Hg2. cbn [nullish]. rewrite Htruthy. cbn [negb].
    exists false, None. split; [reflexivity |]. split.
    + split; [discriminate | intros H; contradiction].
    + split; [discriminate |]. intros (text & Htext). rewrite Hfull in Htext.
      cbn [append] in Htext. injection Htext as Htext.
      destruct (valid_name_shape name Hvalid) as (c & tail & Hshape & Hc & _).
      rewrite Hshape in Htext at 1. injection Htext as -> _. discriminate Hc.
  - rewrite Hg1, Htruthy. unfold str_includes.
    rewrite !(indexOf_colon_in_name _ name Hcolon). cbn [Z.leb Z.compare].
    rewrite Htruthy. cbn [negb].
    exists false, None. split; [reflexivity |]. split.
    + split; [discriminate | intros H; contradiction].
    + split; [discriminate |]. intros (text & Htext). rewrite Hfull in Htext.
      cbn [append] in Htext. injection Htext as Htext. apply append_cancel in Htext.
      discriminate Htext.
  - rewrite Hg1.
    assert (Hcontent : truthy_string (name ++ ":-" ++ text) = true)
      by (destruct name; [contradiction | reflexivity]).
    rewrite Hcontent. unfold str_includes, indexOf.
    rewrite (indexOf_from_over_name "-" name (":-" ++ text) 0 Hcolon)
      by discriminate.
    cbn [append]. rewrite indexOf_from_at_sep.
    assert (Hpos : (0 <=? 0 + len name) = true) by (apply Z.leb_le; unfold len; lia).
    rewrite Hpos.
    destruct (split_name_default name text Hcolon) as (pieces & Hsplit & Hpieces).
    unfold split_limit. cbn [append] in Hsplit. rewrite Hsplit.
    destruct pieces as [| piece pieces']; [contradiction |].
    cbn [firstn part nth]. rewrite Htruthy. cbn [negb].
    exists true, (Some (strip_quotes piece)). split; [reflexivity |]. split.
    + split; [discriminate | reflexivity].
    + split; [| reflexivity]. intros _. exists text. exact Hfull.
Qed.

Lemma exec_all_location (s : string) :
  forall (index : Z) (skip : nat) (m : RegexMatch.t) (i : Z),
    In (m, i) (exec_all s index skip) ->
    exists pre rest,
      s = pre ++ rest /\ i = index + len pre /\ varRef_at rest = Some m.
Proof.
  induction s as [| c s' IH]; intros index skip m i Hin; [contradiction |].
  assert (Hlater : forall k,
             In (m, i) (exec_all s' (index + 1) k) ->
             exists pre rest,
               String c s' = pre ++ rest /\ i = index + len pre
               /\ varRef_at rest = Some m).
  { intros k H. destruct (IH _ _ _ _ H) as (pre & rest & -> & -> & Hat).
    exists (String c pre), rest. split; [reflexivity |]. split; [| exact Hat].
    unfold len. cbn [String.length]. rewrite Nat2Z.inj_succ. lia. }
  cbn [exec_all] in Hin. destruct skip as [| k]; [| exact (Hlater _ Hin)].
  destruct (varRef_at (String c s')) as [found |] eqn:Hat; [| exact (Hlater _ Hin)].
  destruct Hin as [Heq | Hin]; [| exact (Hlater _ Hin)].
  injection Heq as -> ->.
  exists EmptyString, (String c s'). split; [reflexivity |]. split; [| exact Hat].
  unfold len. cbn. lia.
Qed.

End ReferenceFacts.

(** X18. Every reference [extractVariableReferences] finds on a line is
    where it says it is and has one of three forms: the line is some
    text, then [$NAME], [${NAME}] or [${NAME:-text}], then more text,
    with [startColumn] the position of the dollar sign counted from 1
    and [endColumn] the position of the last character. The name is a
    valid variable name, and the reference has a default exactly when it
    has the third form; then, and only then, [defaultValue] is set. *)
Theorem extractVariableReferences_located (line : string) (reference : VarRef.t) :
  In reference (extractVariableReferences line) ->
  isValidEnvVarName (VarRef.name reference) = true
  /\ (VarRef.hasDefault reference = true <-> VarRef.defaultValue reference <> None)
  /\ exists pre matched post,
      line = pre ++ matched ++ post
      /\ VarRef.startColumn reference = len pre + 1
      /\ VarRef.endColumn reference = len pre + len matched
      /\ (matched = "$" ++ VarRef.name reference
          \/ matched = "${" ++ VarRef.name reference ++ "}"
          \/ exists text,
              matched = "${" ++ VarRef.name reference ++ ":-" ++ text ++ "}")
      /\ (VarRef.hasDefault reference = true <->
          exists text, matched = "${" ++ VarRef.name reference ++ ":-" ++ text ++ "}").
Proof.
  unfold extractVariableReferences. intros Hin.
  apply in_flat_map in Hin. destruct Hin as ([m i] & Hfound & Hin). cbn [fst snd] in Hin.
  destruct (exec_all_location line 0 O m i Hfound) as (pre & rest & Hline & Hi & Hat).
  destruct (varRef_at_form rest m Hat) as (name & post & Hvalid & Hrest & Hform).
  destruct (reference_of_form m name i Hvalid Hform)
    as (hasDefault & defaultValue & Href & Hdefault & Hthird).
  rewrite Href in Hin. destruct Hin as [<- | []].
  cbn [VarRef.name VarRef.hasDefault VarRef.defaultValue VarRef.startColumn
       VarRef.endColumn].
  split; [exact Hvalid |]. split; [exact Hdefault |].
  exists pre, (RegexMatch.fullMatch m), post.
  split; [rewrite Hline, Hrest; reflexivity |].
  split; [lia |]. split; [lia |]. split; [| exact Hthird].
  destruct Hform as [_ _ Hfull | _ Hfull | text _ Hfull]; eauto.
Qed.

Lemma extractVariableReferences_located_witness :
  exists reference,
    In reference (extractVariableReferences "echo ${NODE_ENV:-development}")
    /\ VarRef.name reference = "NODE_ENV"
    /\ isValidEnvVarName (VarRef.name reference) = true
    /\ (VarRef.hasDefault reference = true <-> VarRef.defaultValue reference <> None).
Proof.
  eexists. split; [left; reflexivity |]. split; [reflexivity |].
  destruct (extractVariableReferences_located
              "echo ${NODE_ENV:-development}" _ (or_introl eq_refl))
    as (Hvalid & Hdefault & _).
  split; [exact Hvalid | exact Hdefault].
Defined.

Section ScriptFacts.

(** The flags of the references of a line. *)
Lemma reference_flags (line : string) (reference : VarRef.t) :
  In reference (extractVariableReferences line) ->
  isValidEnvVarName (VarRef.name reference) = true
  /\ (VarRef.hasDefault reference = true <-> VarRef.defaultValue reference <> None).
Proof.
  unfold extractVariableReferences. intros Hin.
  apply in_flat_map in Hin. destruct Hin as ([m i] & Hfound & Hin). cbn [fst snd] in Hin.
  destruct (exec_all_location line 0 O m i Hfound) as (pre & rest & Hline & Hi & Hat).
  destruct (varRef_at_form rest m Hat) as (name & post & Hvalid & Hrest & Hform).
  destruct (reference_of_form m name i Hvalid Hform)
    as (hasDefault & defaultValue & Href & Hdefault & _).
  rewrite Href in Hin. destruct Hin as [<- | []].
  split; [exact Hvalid | exact Hdefault].
Qed.

Variable path_resolve : string -> string.
Variable filePath : string.
Variable publicPrefixes : list string.
Variable lines : list string.
Variable assignedVars : list string.

Lemma truthy_not_empty (o : option string) (v : string) :
  (if truthy o then o else None) = Some v -> v <> EmptyString.
Proof.
  destruct o as [w |]; cbn; [| discriminate].
  unfold truthy_string. destruct (String.eqb_spec w EmptyString); cbn; [discriminate |].
  intros H. injection H as <-. assumption.
Qed.

Lemma addReference_ok (i : nat) (m : list (string * Finding.t)) (varRef : VarRef.t) :
  (i < List.length lines)%nat ->
  (VarRef.hasDefault varRef = true <-> VarRef.defaultValue varRef <> None) ->
  shellMapOk (path_resolve filePath) (Z.of_nat (List.length lines)) assignedVars m ->
  shellMapOk (path_resolve filePath) (Z.of_nat (List.length lines)) assignedVars
             (addReference path_resolve filePath publicPrefixes lines assignedVars
                           i m varRef).
Proof.
  intros Hi Hflags [Hnd Hentries]. unfold addReference.
  destruct (isValidEnvVarName (VarRef.name varRef)) eqn:Hvalid; cbn [negb];
    [| split; assumption].
  destruct (isBuiltinVariable (VarRef.name varRef)) eqn:Hbuiltin; [split; assumption |].
  destruct (set_has assignedVars (VarRef.name varRef) && negb (VarRef.hasDefault varRef))
    eqn:Hlocal; [split; assumption |].
  assert (Hnone : VarRef.hasDefault varRef = false -> VarRef.defaultValue varRef = None).
  { intros Hfalse. destruct (VarRef.defaultValue varRef) eqn:Hd; [| reflexivity].
    assert (VarRef.hasDefault varRef = true) by (apply Hflags; discriminate).
    congruence. }
  assert (Href : forall r,
             In r [createFileRef path_resolve filePath (Z.of_nat i + 1)
                     (VarRef.endColumn varRef - VarRef.startColumn varRef + 1)
                     (Some (getContext lines i (VarRef.name varRef)))] ->
             FileRef.filePath r = path_resolve filePath
             /\ 1 <= FileRef.line r <= Z.of_nat (List.length lines)
             /\ FileRef.context r <> None).
  { intros r [<- | []]. cbn. split; [reflexivity |]. split; [lia | discriminate]. }
  destruct (map_get (VarRef.name varRef) m) as [existing |] eqn:Hget.
  - destruct (Hentries _ _ (map_get_entry _ _ _ Hget))
      as (Hname & _ & _ & _ & Hreq & _ & _ & Hfiles & _).
    split; [apply map_set_keys_NoDup; exact Hnd |].
    intros k f Hin. apply In_map_set in Hin. destruct Hin as [[-> ->] | Hin];
      [| exact (Hentries k f Hin)].
    split; [reflexivity |].
    unfold shellFindingOk.
    cbn [createFinding Finding.source Finding.name Finding.files Finding.required
         Finding.defaultValue Finding.notes FindingOptions.required
         FindingOptions.defaultValue FindingOptions.notes nullish].
    split; [reflexivity |]. split; [exact Hvalid |]. split; [exact Hbuiltin |].
    split; [| split; [intros v; apply truthy_not_empty |]].
    + intros Hboth. apply andb_prop in Hboth. destruct Hboth as [Hex Hno].
      apply negb_true_iff in Hno. rewrite (Hnone Hno). split; [reflexivity |].
      rewrite Hname. apply Hreq. exact Hex.
    + split; [destruct (Finding.files existing); discriminate |].
      split; [| reflexivity].
      intros r Hr. apply in_app_or in Hr. destruct Hr as [Hr | Hr];
        [exact (Hfiles r Hr) | exact (Href r Hr)].
  - split; [apply map_set_keys_NoDup; exact Hnd |].
    intros k f Hin. apply In_map_set in Hin. destruct Hin as [[-> ->] | Hin];
      [| exact (Hentries k f Hin)].
    split; [reflexivity |].
    unfold shellFindingOk.
    cbn [createFinding Finding.source Finding.name Finding.files Finding.required
         Finding.defaultValue Finding.notes FindingOptions.required
         FindingOptions.defaultValue FindingOptions.notes nullish].
    split; [reflexivity |]. split; [exact Hvalid |]. split; [exact Hbuiltin |].
    split; [| split; [intros v; apply truthy_not_empty |]].
    + intros Hno. apply negb_true_iff in Hno. rewrite (Hnone Hno).
      split; [reflexivity |].
      rewrite Hno in Hlocal. cbn [negb] in Hlocal. rewrite andb_true_r in Hlocal.
      exact Hlocal.
    + split; [discriminate |]. split; [exact Href | reflexivity].
Qed.

Lemma scanLine_ok (i : nat) (line : string) (m : list (string * Finding.t)) :
  (i < List.length lines)%nat ->
  shellMapOk (path_resolve filePath) (Z.of_nat (List.length lines)) assignedVars m ->
  shellMapOk (path_resolve filePath) (Z.of_nat (List.length lines)) assignedVars
             (scanLine path_resolve filePath publicPrefixes lines assignedVars
                       m i line).
Proof.
  intros Hi Hm. unfold scanLine.
  destruct (negb (truthy_string line)); [exact Hm |].
  destruct (negb (truthy_string (trim line)) || comment_test (trim line)); [exact Hm |].
  assert (Hrefs : forall r, In r (extractVariableReferences line) ->
                            VarRef.hasDefault r = true <-> VarRef.defaultValue r <> None)
    by (intros r Hr; apply (reference_flags line r Hr)).
  revert m Hm. induction (extractVariableReferences line) as [| r refs IH];
    intros m Hm; [exact Hm |].
  cbn [fold_left]. apply IH.
  - intros r' Hr'. apply Hrefs. right. exact Hr'.
  - apply addReference_ok; [exact Hi | apply Hrefs; left; reflexivity | exact Hm].
Qed.

Lemma scanLinesFrom_ok (rest : list string) :
  forall (i : nat) (m : list (string * Finding.t)),
    (i + List.length rest = List.length lines)%nat ->
    shellMapOk (path_resolve filePath) (Z.of_nat (List.length lines)) assignedVars m ->
    shellMapOk (path_resolve filePath) (Z.of_nat (List.length lines)) assignedVars
               (scanLinesFrom path_resolve filePath publicPrefixes lines assignedVars
                              rest i m).
Proof.
  induction rest as [| line later IH]; intros i m Hlen Hm; [exact Hm |].
  cbn [scanLinesFrom]. cbn [List.length] in Hlen. apply IH; [lia |].
  apply scanLine_ok; [lia | exact Hm].
Qed.

End ScriptFacts.

(** What [scanContent] returns: findings of pairwise different names,
    each as [shellFindingOk] says. *)
Lemma scanContent_ok
      (path_resolve : string -> string)
      (content filePath : string) (options : ScanOptions.t) :
  let lines := split (String newline EmptyString) content in
  let assignedVars := fold_left recordAssignment lines [] in
  let findings := scanContent path_resolve content filePath options in
  NoDup (map Finding.name findings)
  /\ (forall f, In f findings ->
                shellFindingOk (path_resolve filePath) (Z.of_nat (List.length lines))
                               assignedVars f).
Proof.
  intros lines assignedVars findings.
  assert (Hok : shellMapOk
                  (path_resolve filePath) (Z.of_nat (List.length lines)) assignedVars
                  (scanLinesFrom path_resolve filePath
                                 (nullish (ScanOptions.publicPrefixes options) [])
                                 lines assignedVars lines O [])).
  { apply scanLinesFrom_ok; [reflexivity |].
    split; [constructor | intros k f []]. }
  destruct Hok as [Hnd Hentries].
  subst findings. unfold scanContent. fold lines. fold assignedVars.
  set (m := scanLinesFrom _ _ _ _ _ _ _ _) in *.
  split.
  - replace (map Finding.name (map_values m)) with (map_keys m); [exact Hnd |].
    unfold map_values, map_keys. rewrite map_map. apply map_ext_in.
    intros [k f] Hin. cbn. apply (Hentries k f Hin).
  - intros f Hf. unfold map_values in Hf. apply in_map_iff in Hf.
    destruct Hf as ([k g] & <- & Hin). apply (Hentries k g Hin).
Qed.

(** X19. The findings of a shell script have pairwise different names;
    each has the source [shell], a valid name, no notes and at least one
    reference, and every reference names the script, a line of the
    script and a context. *)
Theorem shell_scanContent_findings
        (path_resolve : string -> string)
        (content filePath : string) (options : ScanOptions.t) :
  let lineCount :=
    Z.of_nat (List.length (split (String newline EmptyString) content)) in
  let findings := scanContent path_resolve content filePath options in
  NoDup (map Finding.name findings)
  /\ (forall f, In f findings ->
                Finding.source f = shell
                /\ isValidEnvVarName (Finding.name f) = true
                /\ Finding.notes f = None
                /\ Finding.files f <> []
                /\ (forall r, In r (Finding.files f) ->
                              FileRef.filePath r = path_resolve filePath
                              /\ 1 <= FileRef.line r <= lineCount
                              /\ FileRef.context r <> None)).
Proof.
  intros lineCount findings.
  destruct (scanContent_ok path_resolve content filePath options) as [Hnd Hall].
  split; [exact Hnd |]. intros f Hf.
  destruct (Hall f Hf) as (Hs & Hv & _ & _ & _ & Hne & Hfiles & Hnotes).
  repeat split; try assumption; apply (Hfiles r H).
Qed.



(** ** More on the AST provider *)

Section GuardFacts.

Lemma truthy_some (o : option string) (v : string) :
  (if truthy o then o else None) = Some v -> o = Some v /\ v <> EmptyString.
Proof.
  destruct o as [w |]; cbn; [| discriminate].
  unfold truthy_string. destruct (String.eqb_spec w EmptyString); cbn; [discriminate |].
  intros H. injection H as <-. split; [reflexivity | assumption].
Qed.

Lemma createEnvVarNode_guarded (name : string) (source : Source) (path : NodePath)
      (context : UsageContext.t) :
  (forall v, UsageContext.defaultValue context = Some v ->
             UsageContext.hasGuards context = true) ->
  default_is_guarded (createEnvVarNode name source path context).
Proof.
  intros Hcontext v Hv. cbn in Hv. apply truthy_some in Hv. destruct Hv as [Hv Hne].
  split; [exact Hne | exact (Hcontext v Hv)].
Qed.

(** A default is captured only from the right operand of a logical OR
    or a nullish coalescing, and then the guard is registered. *)
Lemma analyzeUsageContext_default (path : NodePath) (v : string) :
  UsageContext.defaultValue (analyzeUsageContext path) = Some v ->
  UsageContext.hasGuards (analyzeUsageContext path) = true
  /\ v <> EmptyString
  /\ exists operator lhs,
      Path.parent path = Some (LogicalExpression operator lhs (StringLiteral v))
      /\ (operator = "||" \/ operator = "??").
Proof.
  unfold analyzeUsageContext.
  destruct (Path.parent path) as [parent |]; [| discriminate].
  cbn [UsageContext.defaultValue UsageContext.hasGuards].
  intros Hv. apply truthy_some in Hv. destruct Hv as [Hv Hne].
  destruct parent as [| | | | | operator lhs rhs | | | | | | | | | | | | |];
    cbn [isLogical right_literal] in Hv |- *; try discriminate Hv.
  destruct (String.eqb_spec operator "??") as [-> | Hnullish].
  - cbn [String.eqb Ascii.eqb Bool.eqb] in Hv |- *.
    destruct rhs; try discriminate Hv. injection Hv as ->.
    split; [destruct (inIfTest path); reflexivity |]. split; [exact Hne |]. eauto.
  - destruct (String.eqb_spec operator "||") as [-> | Hor]; [| discriminate Hv].
    destruct rhs; try discriminate Hv. injection Hv as ->.
    split; [destruct (inIfTest path); reflexivity |]. split; [exact Hne |]. eauto.
Qed.

Lemma visit_guarded (path : NodePath) (node : EnvVarNode.t) :
  In node (visit path) -> default_is_guarded node.
Proof.
  assert (Husage : forall name source,
             default_is_guarded
               (createEnvVarNode name source path (analyzeUsageContext path))).
  { intros name source. apply createEnvVarNode_guarded.
    intros v Hv. apply (analyzeUsageContext_default path v Hv). }
  destruct path as [n key parent parentPath].
  unfold visit. cbn [Path.node].
  destruct n as [| | | | loc object property computed | | | | | | | |
                 loc id init | | | | | |];
    try contradiction.
  - unfold analyzeProcessEnvAccess, analyzeImportMetaEnvAccess. cbn [Path.node].
    destruct (isProcessEnv object); destruct (isImportMetaEnv object);
      destruct property; cbn; intros Hin; try contradiction;
      destruct Hin as [<- | []]; apply Husage.
  - unfold analyzeDestructuring. cbn [Path.node].
    destruct id; try contradiction.
    destruct (destructuringSource init) as [source |]; [| contradiction].
    intros Hin. apply in_flat_map in Hin. destruct Hin as (prop & _ & Hin).
    destruct prop as [| | | | | | | | | pkey value | | | | | | | | |];
      try contradiction.
    destruct pkey; try contradiction.
    assert (Hplain : default_is_guarded
                       (createEnvVarNode name source
                          (mkPath (VariableDeclarator loc (ObjectPattern properties) init)
                                  key parent parentPath)
                          (UsageContext.mk false None)))
      by (apply createEnvVarNode_guarded; intros v Hv; discriminate Hv).
    destruct value; cbn [destructuredProperty] in Hin;
      try (destruct Hin as [<- | []]; exact Hplain).
    destruct value2; cbn [truthy] in Hin;
      try (destruct Hin as [<- | []]; exact Hplain).
    destruct (truthy_string value) eqn:Htruthy;
      destruct Hin as [<- | []]; [| exact Hplain].
    apply createEnvVarNode_guarded. intros v _. reflexivity.
Qed.

Lemma extractEnvVariables_guarded (root : Node) (node : EnvVarNode.t) :
  In node (extractEnvVariables root) -> default_is_guarded node.
Proof.
  unfold extractEnvVariables. intros Hin. apply in_flat_map in Hin.
  destruct Hin as (path & _ & Hnode). exact (visit_guarded path node Hnode).
Qed.

End GuardFacts.

Section FindingsOfFileFacts.

Variable path_resolve : string -> string.
Variable filePath : string.
Variable publicPrefixes : list string.

Lemma filed_under_app (k : string) (done : list EnvVarNode.t) (node : EnvVarNode.t) :
  filed_under k (done ++ [node])
  = (filed_under k done
     ++ if String.eqb (findingKey node) k then [node] else [])%list.
Proof. unfold filed_under. rewrite filter_app. reflexivity. Qed.

Lemma first_default_app (ns : list EnvVarNode.t) (n : EnvVarNode.t) :
  first_default (ns ++ [n])
  = match first_default ns with
    | Some v => Some v
    | None => EnvVarNode.defaultValue n
    end.
Proof.
  induction ns as [| first rest IH]; cbn [app first_default].
  - destruct (EnvVarNode.defaultValue n); reflexivity.
  - destruct (EnvVarNode.defaultValue first); [reflexivity | exact IH].
Qed.

Lemma addNode_ok (m : list (string * Finding.t)) (done : list EnvVarNode.t)
      (node : EnvVarNode.t) :
  default_is_guarded node ->
  astMapOk publicPrefixes done m ->
  astMapOk publicPrefixes (done ++ [node])
           (addNode path_resolve filePath publicPrefixes m node).
Proof.
  intros Hguarded (Hnd & Hkeyed & Hall).
  assert (Hkeyed' := addNode_keyed path_resolve filePath publicPrefixes m node Hkeyed).
  split; [| split; [exact Hkeyed' |]].
  { destruct (addNode_sets path_resolve filePath publicPrefixes m node) as (g & -> & _).
    apply map_set_keys_NoDup. exact Hnd. }
  intros k. rewrite filed_under_app. unfold addNode.
  destruct (String.eqb_spec (findingKey node) k) as [<- | Hneq].
  - pose proof (Hall (findingKey node)) as Hhere.
    destruct (map_get (findingKey node) m) as [existing |] eqn:Hget;
      rewrite map_get_set_eq.
    + destruct Hhere as (Hne & Hreq & Hlen & Hfirst & Hdef & Hpub & Hnotes).
      pose proof (Hkeyed _ _ Hget) as Hkey. unfold findingKey in Hkey.
      apply key_injective in Hkey. destruct Hkey as [_ Hname].
      unfold astFindingOk.
      cbn [createFinding Finding.required Finding.files Finding.defaultValue
           Finding.isPublic Finding.name Finding.notes FindingOptions.required
           FindingOptions.defaultValue FindingOptions.isPublic FindingOptions.notes
           nullish].
      split; [destruct (filed_under (findingKey node) done); discriminate |].
      split; [rewrite forallb_app, Hreq; cbn; rewrite andb_true_r; reflexivity |].
      split; [rewrite !length_app, Hlen; reflexivity |].
      split.
      { rewrite first_default_app, <- Hfirst.
        destruct (Finding.defaultValue existing) as [w |] eqn:Hexisting.
        - destruct (Hdef w eq_refl) as [Hw _]. cbn [truthy]. unfold truthy_string.
          destruct (String.eqb_spec w EmptyString); [contradiction | reflexivity].
        - cbn [truthy orb].
          destruct (EnvVarNode.defaultValue node) as [v |] eqn:Hnode; [| reflexivity].
          destruct (Hguarded v Hnode) as [Hv _]. cbn [truthy]. unfold truthy_string.
          destruct (String.eqb_spec v EmptyString); [contradiction | reflexivity]. }
      split; [| split; [rewrite Hpub, <- Hname; apply orb_diag | reflexivity]].
      intros v Hv.
      destruct (truthy (Finding.defaultValue existing)
                || truthy (EnvVarNode.defaultValue node)); [| discriminate Hv].
      destruct (Finding.defaultValue existing) as [w |] eqn:Hexisting.
      * injection Hv as <-. destruct (Hdef w eq_refl) as [Hw Hfalse].
        split; [exact Hw |]. rewrite Hfalse. reflexivity.
      * destruct (Hguarded v Hv) as [Hw Hguards].
        split; [exact Hw |]. rewrite Hguards. apply andb_false_r.
    + rewrite Hhere. unfold astFindingOk.
      cbn [createFinding Finding.required Finding.files Finding.defaultValue
           Finding.isPublic Finding.name Finding.notes FindingOptions.required
           FindingOptions.defaultValue FindingOptions.isPublic FindingOptions.notes
           nullish app forallb List.length first_default].
      split; [discriminate |].
      split; [rewrite andb_true_r; reflexivity |].
      split; [reflexivity |].
      split.
      { destruct (EnvVarNode.defaultValue node) as [v |] eqn:Hnode; [| reflexivity].
        destruct (Hguarded v Hnode) as [Hv _]. cbn [truthy]. unfold truthy_string.
        destruct (String.eqb_spec v EmptyString); [contradiction | reflexivity]. }
      split; [| split; reflexivity].
      intros v Hv. apply truthy_some in Hv. destruct Hv as [Hv _].
      destruct (Hguarded v Hv) as [Hw Hguards].
      split; [exact Hw |]. rewrite Hguards. reflexivity.
  - assert (Hsame : forall f,
               map_get k (map_set (findingKey node) f m) = map_get k m)
      by (intros f; apply map_get_set_neq; congruence).
    rewrite app_nil_r. pose proof (Hall k) as Hk.
    destruct (map_get (findingKey node) m); rewrite Hsame; exact Hk.
Qed.

Lemma fold_addNode_ok (nodes : list EnvVarNode.t) :
  forall (m : list (string * Finding.t)) (done : list EnvVarNode.t),
    (forall node, In node nodes -> default_is_guarded node) ->
    astMapOk publicPrefixes done m ->
    astMapOk publicPrefixes (done ++ nodes)
             (fold_left (addNode path_resolve filePath publicPrefixes) nodes m).
Proof.
  induction nodes as [| node rest IH]; intros m done Hguarded Hm; cbn [fold_left].
  - rewrite app_nil_r. exact Hm.
  - replace (done ++ node :: rest)%list with ((done ++ [node]) ++ rest)%list
      by (rewrite <- app_assoc; reflexivity).
    apply IH.
    + intros n Hn. apply Hguarded. right. exact Hn.
    + apply addNode_ok; [apply Hguarded; left; reflexivity | exact Hm].
Qed.

Lemma empty_map_ok : astMapOk publicPrefixes [] [].
Proof.
  split; [constructor |]. split; [intros k f H; discriminate H |].
  intros k. reflexivity.
Qed.

Lemma filed_under_observations (f : Finding.t) (nodes : list EnvVarNode.t) :
  filed_under (Source_tag (Finding.source f) ++ ":" ++ Finding.name f) nodes
  = observations_of (Finding.source f) (Finding.name f) nodes.
Proof.
  unfold filed_under, observations_of. apply filter_ext. intros n.
  unfold findingKey.
  destruct (String.eqb_spec (Source_tag (EnvVarNode.source n) ++ ":" ++ EnvVarNode.name n)
                            (Source_tag (Finding.source f) ++ ":" ++ Finding.name f))
    as [Heq | Hneq].
  - apply key_injective in Heq. destruct Heq as [-> ->].
    rewrite String.eqb_refl. destruct (Finding.source f); reflexivity.
  - destruct (Source_eqb (EnvVarNode.source n) (Finding.source f)) eqn:Hs;
      [| reflexivity].
    destruct (String.eqb_spec (EnvVarNode.name n) (Finding.name f)) as [Hn |];
      [| reflexivity].
    exfalso. apply Hneq. rewrite Hn.
    destruct (EnvVarNode.source n), (Finding.source f); try discriminate Hs;
      reflexivity.
Qed.

Lemma map_values_get {V : Type} (m : list (string * V)) (v : V) :
  NoDup (map_keys m) -> In v (map_values m) -> exists k, map_get k m = Some v.
Proof.
  intros Hnd Hin. unfold map_values in Hin. apply in_map_iff in Hin.
  destruct Hin as ([k w] & Hw & Hin). cbn in Hw. subst w.
  exists k. apply In_NoDup_map_get; assumption.
Qed.

End FindingsOfFileFacts.

Section AstFindingFacts.

Variable path_resolve : string -> string.

Lemma fold_addNode_keys (filePath : string) (publicPrefixes : list string)
      (nodes : list EnvVarNode.t) :
  forall m : list (string * Finding.t),
    NoDup (map_keys m) -> keyed m ->
    NoDup (map_keys (fold_left (addNode path_resolve filePath publicPrefixes) nodes m))
    /\ keyed (fold_left (addNode path_resolve filePath publicPrefixes) nodes m).
Proof.
  induction nodes as [| node rest IH]; intros m Hnd Hkeyed; cbn [fold_left];
    [split; assumption |].
  apply IH; [| apply addNode_keyed; exact Hkeyed].
  destruct (addNode_sets path_resolve filePath publicPrefixes m node) as (g & -> & _).
  apply map_set_keys_NoDup. exact Hnd.
Qed.

Lemma keyed_values_keys (m : list (string * Finding.t)) :
  NoDup (map_keys m) -> keyed m ->
  map (fun f => Source_tag (Finding.source f) ++ ":" ++ Finding.name f) (map_values m)
  = map_keys m.
Proof.
  intros Hnd Hkeyed. unfold map_values, map_keys. rewrite map_map.
  apply map_ext_in. intros [k f] Hin. cbn [fst snd].
  symmetry. apply Hkeyed. apply In_NoDup_map_get; assumption.
Qed.

Lemma convertNodesToFindings_finding_ok (nodes : list EnvVarNode.t)
      (filePath : string) (options : ScanOptions.t) (f : Finding.t) :
  (forall node, In node nodes -> default_is_guarded node) ->
  In f (convertNodesToFindings path_resolve nodes filePath options) ->
  astFindingOk (nullish (ScanOptions.publicPrefixes options) [])
               (observations_of (Finding.source f) (Finding.name f) nodes) f.
Proof.
  intros Hguarded Hin. unfold convertNodesToFindings in Hin.
  destruct (fold_addNode_ok path_resolve filePath
              (nullish (ScanOptions.publicPrefixes options) [])
              nodes [] [] Hguarded
              (empty_map_ok (nullish (ScanOptions.publicPrefixes options) [])))
    as (Hnd & Hkeyed & Hall).
  destruct (map_values_get _ f Hnd Hin) as (k & Hget).
  pose proof (Hall k) as Hk. rewrite Hget in Hk.
  rewrite (Hkeyed k f Hget) in Hk. rewrite filed_under_observations in Hk.
  exact Hk.
Qed.

(** X21. A finding of the AST provider sums up the observations of its
    variable in the file: there is at least one, the finding has one
    file reference for each, it is required exactly when none of them
    is guarded, and it is public exactly when its name starts with a
    public prefix. *)
Theorem ast_finding_summarises_observations (root : Node) (filePath : string)
        (options : ScanOptions.t) (f : Finding.t) :
  In f (convertNodesToFindings path_resolve (extractEnvVariables root)
                               filePath options) ->
  let ns := observations_of (Finding.source f) (Finding.name f)
                            (extractEnvVariables root) in
  ns <> []
  /\ Finding.required f = forallb unguarded ns
  /\ List.length (Finding.files f) = List.length ns
  /\ Finding.isPublic f
     = isPublicVariable (Finding.name f)
                        (nullish (ScanOptions.publicPrefixes options) []).
Proof.
  intros Hin.
  destruct (convertNodesToFindings_finding_ok
              (extractEnvVariables root) filePath options f
              (extractEnvVariables_guarded root) Hin)
    as (Hne & Hreq & Hlen & _ & _ & Hpub & _).
  repeat split; assumption.
Qed.

(** X22. The default of a finding of the AST provider is the first
    default among the observations of its variable in the file; a
    finding with a default has a non-empty one and is not required. *)
Theorem ast_finding_default (root : Node) (filePath : string)
        (options : ScanOptions.t) (f : Finding.t) :
  In f (convertNodesToFindings path_resolve (extractEnvVariables root)
                               filePath options) ->
  Finding.defaultValue f
  = first_default (observations_of (Finding.source f) (Finding.name f)
                                   (extractEnvVariables root))
  /\ forall v, Finding.defaultValue f = Some v ->
               v <> EmptyString /\ Finding.required f = false.
Proof.
  intros Hin.
  destruct (convertNodesToFindings_finding_ok
              (extractEnvVariables root) filePath options f
              (extractEnvVariables_guarded root) Hin)
    as (_ & _ & _ & Hfirst & Hdef & _).
  split; assumption.
Qed.

(** X23. The AST provider reports a variable of a file once for each
    source tag: no two findings of a file share source and name, and
    every observation has its finding. *)
Theorem ast_one_finding_per_variable (nodes : list EnvVarNode.t)
        (filePath : string) (options : ScanOptions.t) :
  NoDup (map (fun f => (Finding.source f, Finding.name f))
             (convertNodesToFindings path_resolve nodes filePath options))
  /\ forall node, In node nodes ->
       exists f, In f (convertNodesToFindings path_resolve nodes filePath options)
                 /\ Finding.source f = EnvVarNode.source node
                 /\ Finding.name f = EnvVarNode.name node.
Proof.
  split.
  - unfold convertNodesToFindings.
    assert (Hempty : keyed []) by (intros k f H; discriminate H).
    destruct (fold_addNode_keys filePath
                (nullish (ScanOptions.publicPrefixes options) []) nodes []
                (NoDup_nil _) Hempty)
      as [Hnd Hkeyed].
    rewrite <- (keyed_values_keys _ Hnd Hkeyed) in Hnd.
    rewrite <- (map_map (fun f => (Finding.source f, Finding.name f))
                        (fun p => Source_tag (fst p) ++ ":" ++ snd p)) in Hnd.
    exact (NoDup_map_inv _ _ Hnd).
  - intros node Hnode.
    destruct (convertNodesToFindings_covers path_resolve nodes filePath options
                                            node Hnode)
      as (f & Hin & Hname & Hsource).
    exists f. repeat split; assumption.
Qed.

End AstFindingFacts.

Lemma ast_finding_summarises_observations_witness :
  let f := Finding.mk "PORT" ast
                      [FileRef.mk "/app/config.js" 1 13 None None;
                       FileRef.mk "/app/config.js" 3 4 None None]
                      false None false None in
  let ns := observations_of ast "PORT" (extractEnvVariables sample_guards) in
  In f (convertNodesToFindings (fun p => p) (extractEnvVariables sample_guards)
                               "/app/config.js" ScanOptions.empty)
  /\ ns <> []
  /\ Finding.required f = forallb unguarded ns
  /\ List.length (Finding.files f) = List.length ns
  /\ Finding.isPublic f = isPublicVariable "PORT" [].
Proof.
  intros f ns.
  assert (Hin : In f (convertNodesToFindings (fun p => p)
                                             (extractEnvVariables sample_guards)
                                             "/app/config.js" ScanOptions.empty))
    by (vm_compute; left; reflexivity).
  split; [exact Hin |].
  exact (ast_finding_summarises_observations
           (fun p => p) sample_guards "/app/config.js" ScanOptions.empty f Hin).
Defined.

Lemma ast_finding_default_witness :
  let f := Finding.mk "HOST" ast [FileRef.mk "/app/config.js" 2 13 None None]
                      false (Some "localhost") false None in
  In f (convertNodesToFindings (fun p => p) (extractEnvVariables sample_guards)
                               "/app/config.js" ScanOptions.empty)
  /\ Finding.defaultValue f
     = first_default (observations_of ast "HOST" (extractEnvVariables sample_guards))
  /\ forall v, Finding.defaultValue f = Some v ->
               v <> EmptyString /\ Finding.required f = false.
Proof.
  intros f.
  assert (Hin : In f (convertNodesToFindings (fun p => p)
                                             (extractEnvVariables sample_guards)
                                             "/app/config.js" ScanOptions.empty))
    by (vm_compute; right; left; reflexivity).
  split; [exact Hin |].
  exact (ast_finding_default
           (fun p => p) sample_guards "/app/config.js" ScanOptions.empty f Hin).
Defined.

Section AstScanFacts.

Variable path_resolve : string -> string.
Variable readFileSafe : string -> Z -> option string.
Variable parse : string -> list string -> js Node.
Variable error_text : JsError -> string.
Variable error_line : JsError -> option Z.

Lemma ast_scanFile_throws_ParseError (filePath : string) (options : ScanOptions.t)
      (error : JsError) :
  ast_scanFile path_resolve readFileSafe parse error_text error_line filePath options
  = inl error ->
  isParseError error = true.
Proof.
  unfold ast_scanFile.
  destruct (readFileSafe filePath _) as [content |]; [| discriminate].
  destruct (negb (truthy_string content)); [discriminate |].
  destruct (parseCode parse content filePath) as [thrown | tree]; cbn;
    [| discriminate].
  intros H. injection H as <-. reflexivity.
Qed.

Lemma ast_scanFiles_spec (supportedFiles : list string) (options : ScanOptions.t) :
  forall findings,
    ast_scanFiles path_resolve readFileSafe parse error_text error_line
                  supportedFiles options findings
    = inr (findings
           ++ flat_map
                (fun file =>
                   match ast_scanFile path_resolve readFileSafe parse error_text
                                      error_line file options with
                   | inr fileFindings => fileFindings
                   | inl _ => []
                   end)
                supportedFiles)%list.
Proof.
  induction supportedFiles as [| file rest IH]; intros findings;
    cbn [ast_scanFiles flat_map].
  - rewrite app_nil_r. reflexivity.
  - destruct (ast_scanFile path_resolve readFileSafe parse error_text error_line
                           file options) as [error | fileFindings] eqn:Hfile.
    + pose proof (ast_scanFile_throws_ParseError file options error Hfile) as Hparse.
      destruct error; try discriminate Hparse.
      cbn. rewrite IH. reflexivity.
    + cbn. rewrite IH, app_assoc. reflexivity.
Qed.

(** X24. The scan of the AST provider never throws: it returns the
    findings of the files with a supported extension, in the order of
    the files, and a file that fails to parse contributes nothing. *)
Theorem ast_scan_skips_unparsable_files (files : list string)
        (options : ScanOptions.t) :
  ast_scan path_resolve readFileSafe parse error_text error_line files options
  = inr (flat_map
           (fun file =>
              match ast_scanFile path_resolve readFileSafe parse error_text
                                 error_line file options with
              | inr fileFindings => fileFindings
              | inl _ => []
              end)
           (filter (fun file => existsb (fun ext => endsWith ext file) ast_extensions)
                   files)).
Proof.
  unfold ast_scan. rewrite ast_scanFiles_spec. reflexivity.
Qed.

End AstScanFacts.

(** ** The YAML provider *)

Section DockerEnvFacts.

Lemma valid_name_of_shape (c : ascii) (tail : string) :
  is_ident_start c = true -> string_forallb is_ident_char tail = true ->
  isValidEnvVarName (String c tail) = true.
Proof.
  intros Hstart Htail. unfold isValidEnvVarName. cbn [truthy_string String.eqb negb].
  rewrite Hstart, (span_of_all _ _ Htail). reflexivity.
Qed.

Lemma append_empty_r (s : string) : s ++ EmptyString = s.
Proof. induction s as [| c rest IH]; cbn; [reflexivity | rewrite IH; reflexivity]. Qed.

Lemma equals_sign_no_ident_char : is_ident_char "=" = false.
Proof. reflexivity. Qed.

Lemma match_docker_env_plain (name : string) :
  isValidEnvVarName name = true -> match_docker_env name = Some (name, None).
Proof.
  intros Hvalid. apply valid_name_shape in Hvalid.
  destruct Hvalid as (c & tail & -> & Hstart & Htail).
  unfold match_docker_env. rewrite Hstart, (span_of_all _ _ Htail). reflexivity.
Qed.

Lemma match_docker_env_assigned (name value : string) :
  isValidEnvVarName name = true ->
  string_forallb (fun d => negb (is_line_terminator d)) value = true ->
  match_docker_env (name ++ "=" ++ value) = Some (name, Some value).
Proof.
  intros Hvalid Hvalue. apply valid_name_shape in Hvalid.
  destruct Hvalid as (c & tail & -> & Hstart & Htail).
  cbn [append]. unfold match_docker_env. rewrite Hstart.
  rewrite (span_stops is_ident_char tail "=" value Htail equals_sign_no_ident_char).
  rewrite Hvalue. reflexivity.
Qed.

Lemma match_docker_env_shape (envVar name : string) (value : option string) :
  match_docker_env envVar = Some (name, value) ->
  isValidEnvVarName name = true
  /\ match value with
     | None => envVar = name
     | Some v =>
         envVar = name ++ "=" ++ v
         /\ string_forallb (fun d => negb (is_line_terminator d)) v = true
     end.
Proof.
  unfold match_docker_env. destruct envVar as [| c rest]; [discriminate |].
  destruct (is_ident_start c) eqn:Hstart; [| discriminate].
  destruct (span_split is_ident_char rest) as [Hrest Htail].
  destruct (span is_ident_char rest) as [name_tail after_name]. cbn [fst snd] in *.
  destruct after_name as [| d value'].
  - intros H. injection H as <- <-. rewrite Hrest, append_empty_r.
    split; [apply valid_name_of_shape; assumption | reflexivity].
  - destruct (Ascii.eqb_spec d "=") as [-> | Hd].
    + destruct (string_forallb _ value') eqn:Hvalue; [| discriminate].
      intros H. injection H as <- <-.
      split; [apply valid_name_of_shape; assumption |].
      split; [rewrite Hrest; reflexivity | exact Hvalue].
    + intros H. exfalso.
      destruct d as [[] [] [] [] [] [] [] []]; try discriminate H.
      apply Hd. reflexivity.
Qed.

End DockerEnvFacts.

Lemma valid_name_truthy (name : string) :
  isValidEnvVarName name = true -> truthy_string name = true.
Proof.
  intros Hvalid. apply valid_name_shape in Hvalid.
  destruct Hvalid as (c & tail & -> & _). reflexivity.
Qed.

Lemma truthy_string_not_empty (s : string) :
  truthy_string s = true <-> s <> EmptyString.
Proof.
  unfold truthy_string. destruct (String.eqb_spec s EmptyString); cbn; split;
    congruence.
Qed.

Lemma parseDockerEnvVar_shape (envVar : string) (p : DockerEnvVar.t) :
  parseDockerEnvVar envVar = Some p ->
  isValidEnvVarName (DockerEnvVar.name p) = true
  /\ (envVar = DockerEnvVar.name p
      \/ exists value,
          envVar = DockerEnvVar.name p ++ "=" ++ value
          /\ string_forallb (fun d => negb (is_line_terminator d)) value = true)
  /\ DockerEnvVar.hasDefault p = truthy (DockerEnvVar.defaultValue p)
  /\ (forall v, DockerEnvVar.defaultValue p = Some v ->
                v <> EmptyString /\ envVar = DockerEnvVar.name p ++ "=" ++ v).
Proof.
  unfold parseDockerEnvVar.
  destruct (match_docker_env envVar) as [[name value] |] eqn:Hmatch; [| discriminate].
  destruct (match_docker_env_shape envVar name value Hmatch) as [Hvalid Hshape].
  rewrite Hvalid, (valid_name_truthy name Hvalid). cbn [negb orb].
  intros H. injection H as <-.
  cbn [DockerEnvVar.name DockerEnvVar.defaultValue DockerEnvVar.hasDefault].
  split; [exact Hvalid |].
  destruct value as [v |]; cbn [truthy].
  - destruct Hshape as [-> Hvalue].
    split; [right; exists v; split; [reflexivity | exact Hvalue] |].
    destruct (truthy_string v) eqn:Hv; cbn [truthy].
    + split; [symmetry; exact Hv |].
      intros w Hw. injection Hw as <-.
      split; [apply truthy_string_not_empty; exact Hv | reflexivity].
    + split; [reflexivity | intros w Hw; discriminate Hw].
  - split; [left; exact Hshape |].
    split; [reflexivity | intros w Hw; discriminate Hw].
Qed.

(** X25. [parseDockerEnvVar] reads an item of an [environment] list: a
    valid name alone gives that name without a default, and a valid
    name, [=] and a text without line breaks gives the name with the
    text as its default when the text is not empty, and without a
    default when it is. Nothing else is accepted, and a default is
    reported exactly when one is recorded. *)
Theorem parseDockerEnvVar_forms :
  (forall name,
      isValidEnvVarName name = true ->
      parseDockerEnvVar name = Some (DockerEnvVar.mk name None false))
  /\ (forall name value,
         isValidEnvVarName name = true ->
         string_forallb (fun d => negb (is_line_terminator d)) value = true ->
         parseDockerEnvVar (name ++ "=" ++ value)
         = Some (DockerEnvVar.mk name
                                 (if truthy_string value then Some value else None)
                                 (truthy_string value)))
  /\ (forall envVar p,
         parseDockerEnvVar envVar = Some p ->
         isValidEnvVarName (DockerEnvVar.name p) = true
         /\ (envVar = DockerEnvVar.name p
             \/ exists value,
                 envVar = DockerEnvVar.name p ++ "=" ++ value
                 /\ string_forallb (fun d => negb (is_line_terminator d)) value = true)
         /\ (DockerEnvVar.hasDefault p = true <-> DockerEnvVar.defaultValue p <> None)
         /\ (forall v, DockerEnvVar.defaultValue p = Some v ->
                       v <> EmptyString
                       /\ envVar = DockerEnvVar.name p ++ "=" ++ v)).
Proof.
  split; [| split].
  - intros name Hvalid. unfold parseDockerEnvVar.
    rewrite (match_docker_env_plain name Hvalid), Hvalid,
      (valid_name_truthy name Hvalid).
    reflexivity.
  - intros name value Hvalid Hvalue. unfold parseDockerEnvVar.
    rewrite (match_docker_env_assigned name value Hvalid Hvalue), Hvalid,
      (valid_name_truthy name Hvalid).
    cbn [negb orb truthy]. destruct (truthy_string value); reflexivity.
  - intros envVar p Hp.
    destruct (parseDockerEnvVar_shape envVar p Hp) as (Hvalid & Hform & Hhas & Hdef).
    split; [exact Hvalid |]. split; [exact Hform |]. split; [| exact Hdef].
    rewrite Hhas. destruct (DockerEnvVar.defaultValue p) as [v |] eqn:Hv.
    + destruct (Hdef v eq_refl) as [Hne _]. cbn [truthy].
      rewrite (proj2 (truthy_string_not_empty v) Hne). split; congruence.
    + cbn [truthy]. split; [discriminate | congruence].
Qed.

Section YamlFacts.

Variable path_resolve : string -> string.

Lemma stringDefault_some (value : JsValue) (v : string) :
  stringDefault value = Some v -> value = JsString v /\ v <> EmptyString.
Proof.
  unfold stringDefault.
  destruct value as [| | b | n | s | items | props]; cbn; try discriminate.
  - destruct b; discriminate.
  - destruct (negb (n =? 0)); discriminate.
  - destruct (truthy_string s) eqn:Hs; cbn; [| discriminate].
    intros H. injection H as <-.
    split; [reflexivity | apply truthy_string_not_empty; exact Hs].
Qed.

Lemma yamlFindingOk_weaken (source : Source) (publicPrefixes : list string)
      (filePath : string) (P Q : string -> Prop) (f : Finding.t) :
  (forall context, P context -> Q context) ->
  yamlFindingOk path_resolve source publicPrefixes filePath P f ->
  yamlFindingOk path_resolve source publicPrefixes filePath Q f.
Proof.
  intros HPQ (Hsource & Hvalid & (line & context & Hfiles & Hline & HP) & Hrest).
  split; [exact Hsource |]. split; [exact Hvalid |].
  split; [| exact Hrest].
  exists line, context. split; [exact Hfiles |]. split; [exact Hline | exact (HPQ _ HP)].
Qed.

Lemma entryFinding_ok (source : Source) (context filePath : string)
      (publicPrefixes : list string) (required : JsValue -> bool)
      (name : string) (value : JsValue) (index : Z) (f : Finding.t) :
  (forall v, required (JsString v) = false) ->
  In f (entryFinding path_resolve source context filePath publicPrefixes required
                     name value index) ->
  yamlFindingOk path_resolve source publicPrefixes filePath (eq context) f
  /\ Finding.name f = name
  /\ Finding.required f = required value.
Proof.
  intros Hrequired. unfold entryFinding.
  destruct (isValidEnvVarName name) eqn:Hvalid; [| contradiction].
  intros [<- | []]. unfold yamlFindingOk, createFinding, createFileRef.
  cbn [Finding.source Finding.name Finding.files Finding.defaultValue
       Finding.required Finding.isPublic Finding.notes FindingOptions.required
       FindingOptions.defaultValue FindingOptions.isPublic FindingOptions.notes
       nullish].
  split; [| split; reflexivity].
  split; [reflexivity |]. split; [exact Hvalid |].
  split.
  { eexists _, _. split; [reflexivity |]. split; [| reflexivity].
    unfold estimateLineNumber. lia. }
  split; [| split; reflexivity].
  intros v Hv. apply stringDefault_some in Hv. destruct Hv as [-> Hne].
  split; [exact Hne | apply Hrequired].
Qed.

Lemma scanEntries_ok (source : Source) (context filePath : string)
      (publicPrefixes : list string) (required : JsValue -> bool)
      (entries : list (string * JsValue)) (f : Finding.t) :
  (forall v, required (JsString v) = false) ->
  forall index,
    In f (scanEntries path_resolve source context filePath publicPrefixes required
                      entries index) ->
    yamlFindingOk path_resolve source publicPrefixes filePath (eq context) f
    /\ exists name value,
        In (name, value) entries /\ Finding.name f = name
        /\ Finding.required f = required value.
Proof.
  intros Hrequired.
  induction entries as [| [name value] rest IH]; intros index; cbn [scanEntries];
    [contradiction |].
  intros Hin. apply in_app_or in Hin. destruct Hin as [Hin | Hin].
  - destruct (entryFinding_ok _ _ _ _ _ _ _ _ _ Hrequired Hin) as (Hok & Hname & Hreq).
    split; [exact Hok |]. exists name, value.
    split; [left; reflexivity |]. split; assumption.
  - destruct (IH _ Hin) as (Hok & n & v & Hnv & Hname & Hreq).
    split; [exact Hok |]. exists n, v. split; [right; exact Hnv |].
    split; assumption.
Qed.

Lemma scanEnvironmentArray_ok (serviceName filePath : string)
      (publicPrefixes : list string) (items : list JsValue) :
  forall (index : Z) (findings result : list Finding.t),
    0 <= index ->
    (forall f, In f findings ->
               yamlFindingOk path_resolve docker publicPrefixes filePath
                             (eq ("Service: " ++ serviceName)) f) ->
    scanEnvironmentArray path_resolve serviceName filePath publicPrefixes items
                         index findings
    = inr result ->
    forall f, In f result ->
              yamlFindingOk path_resolve docker publicPrefixes filePath
                            (eq ("Service: " ++ serviceName)) f.
Proof.
  induction items as [| envVar rest IH]; intros index findings result Hindex Hfindings;
    cbn [scanEnvironmentArray].
  - intros H. injection H as <-. exact Hfindings.
  - destruct envVar as [| | b | n | s | items | props]; cbn; try discriminate.
    apply IH; [lia |].
    destruct (parseDockerEnvVar s) as [parsed |] eqn:Hparsed; [| exact Hfindings].
    destruct (parseDockerEnvVar_shape s parsed Hparsed) as (Hvalid & _ & Hhas & Hdef).
    intros f Hin. apply in_app_or in Hin. destruct Hin as [Hin | [<- | []]];
      [exact (Hfindings f Hin) |].
    unfold yamlFindingOk, createFinding, createFileRef.
    cbn [Finding.source Finding.name Finding.files Finding.defaultValue
         Finding.required Finding.isPublic Finding.notes FindingOptions.required
         FindingOptions.defaultValue FindingOptions.isPublic FindingOptions.notes
         nullish].
    split; [reflexivity |]. split; [exact Hvalid |].
    split.
    { eexists _, _. split; [reflexivity |]. split; [| reflexivity].
      unfold estimateLineNumber. lia. }
    split; [| split; reflexivity].
    intros v Hv. apply truthy_some in Hv. destruct Hv as [Hv Hne].
    split; [exact Hne |]. rewrite Hhas, Hv. cbn [truthy].
    rewrite (proj2 (truthy_string_not_empty v) Hne). reflexivity.
Qed.

Lemma scanEnvironment_ok (service : JsValue) (serviceName filePath : string)
      (options : ScanOptions.t) (result : list Finding.t) :
  scanEnvironment path_resolve service serviceName filePath options = inr result ->
  forall f, In f result ->
            yamlFindingOk path_resolve docker
                          (nullish (ScanOptions.publicPrefixes options) []) filePath
                          (eq ("Service: " ++ serviceName)) f.
Proof.
  unfold scanEnvironment.
  destruct (truthy_value (get service "environment"));
    [| intros H; injection H as <-; contradiction].
  assert (Hentries :
            forall entries result,
              inr (scanEntries path_resolve docker ("Service: " ++ serviceName) filePath
                               (nullish (ScanOptions.publicPrefixes options) [])
                               isNullish entries 0)
              = (inr result : js (list Finding.t)) ->
              forall f, In f result ->
                        yamlFindingOk path_resolve docker
                                      (nullish (ScanOptions.publicPrefixes options) [])
                                      filePath (eq ("Service: " ++ serviceName)) f).
  { intros entries r H. injection H as <-. intros f Hin.
    apply (scanEntries_ok docker _ filePath _ isNullish entries f) in Hin;
      [exact (proj1 Hin) | reflexivity]. }
  destruct (get service "environment") as [| | b | n | s | items | props]; cbn;
    try (intros H; injection H as <-; contradiction).
  - apply scanEnvironmentArray_ok; [lia | contradiction].
  - apply Hentries.
Qed.

Lemma scanDockerService_environment (service : JsValue)
      (serviceName filePath : string) (options : ScanOptions.t)
      (result : list Finding.t) :
  scanDockerService path_resolve service serviceName filePath options = inr result ->
  scanEnvironment path_resolve service serviceName filePath options = inr result.
Proof.
  unfold scanDockerService.
  destruct (scanEnvironment path_resolve service serviceName filePath options)
    as [error | findings]; cbn; [discriminate |].
  destruct (logEnvFiles service) as [error | []]; cbn; [discriminate |].
  intros H. exact H.
Qed.

Lemma scanDockerService_ok (service : JsValue) (serviceName filePath : string)
      (options : ScanOptions.t) (result : list Finding.t) :
  scanDockerService path_resolve service serviceName filePath options = inr result ->
  forall f, In f result ->
            yamlFindingOk path_resolve docker
                          (nullish (ScanOptions.publicPrefixes options) []) filePath
                          (eq ("Service: " ++ serviceName)) f.
Proof.
  intros Hservice. apply (scanEnvironment_ok service).
  apply scanDockerService_environment. exact Hservice.
Qed.

Lemma scanServices_ok (filePath : string) (options : ScanOptions.t)
      (P : string -> Prop) (services : list (string * JsValue)) :
  forall findings result,
    (forall serviceName service,
        In (serviceName, service) services -> P ("Service: " ++ serviceName)) ->
    (forall f, In f findings ->
               yamlFindingOk path_resolve docker
                             (nullish (ScanOptions.publicPrefixes options) [])
                             filePath P f) ->
    scanServices path_resolve filePath options services findings = inr result ->
    forall f, In f result ->
              yamlFindingOk path_resolve docker
                            (nullish (ScanOptions.publicPrefixes options) [])
                            filePath P f.
Proof.
  induction services as [| [serviceName service] rest IH];
    intros findings result Hservices Hfindings; cbn [scanServices].
  - intros H. injection H as <-. exact Hfindings.
  - assert (Hrest : forall n s, In (n, s) rest -> P ("Service: " ++ n))
      by (intros n s Hin; apply (Hservices n s); right; exact Hin).
    destruct (isObjectValue service); [| apply IH; assumption].
    destruct (scanDockerService path_resolve service serviceName filePath options)
      as [error | serviceFindings] eqn:Hservice; cbn; [discriminate |].
    apply IH; [exact Hrest |].
    intros f Hin. apply in_app_or in Hin. destruct Hin as [Hin | Hin].
    + exact (Hfindings f Hin).
    + apply (yamlFindingOk_weaken docker _ filePath
                                  (eq ("Service: " ++ serviceName)) P).
      * intros context <-. apply (Hservices serviceName service). left. reflexivity.
      * exact (scanDockerService_ok _ _ _ _ _ Hservice f Hin).
Qed.

Lemma scanDockerCompose_ok (parsed : JsValue) (filePath : string)
      (options : ScanOptions.t) (findings : list Finding.t) :
  scanDockerCompose path_resolve parsed filePath options = inr findings ->
  forall f, In f findings ->
            yamlFindingOk path_resolve docker
                          (nullish (ScanOptions.publicPrefixes options) []) filePath
                          (serviceContext parsed) f.
Proof.
  unfold scanDockerCompose.
  destruct (negb (truthy_value parsed) || negb (String.eqb (typeof parsed) "object"));
    [intros H; injection H as <-; contradiction |].
  destruct (isObjectValue (get parsed "services"));
    [| intros H; injection H as <-; contradiction].
  apply scanServices_ok; [| contradiction].
  intros serviceName service Hin. exists serviceName, service.
  split; [exact Hin | reflexivity].
Qed.

Lemma scanEnvironmentArray_throws (serviceName filePath : string)
      (publicPrefixes : list string) (item : JsValue) (items : list JsValue) :
  In item items -> (forall s, item <> JsString s) ->
  forall index findings,
  exists error,
    scanEnvironmentArray path_resolve serviceName filePath publicPrefixes items
                         index findings
    = inl error.
Proof.
  intros Hin Hitem.
  induction items as [| envVar rest IH]; intros index findings; [contradiction |].
  cbn [scanEnvironmentArray].
  destruct envVar as [| | b | n | s | elements | props]; cbn;
    try (eexists; reflexivity).
  destruct Hin as [Heq | Hin]; [exfalso; exact (Hitem s (eq_sym Heq)) |].
  apply (IH Hin).
Qed.

Lemma scanServices_throws (filePath : string) (options : ScanOptions.t)
      (serviceName : string) (service : JsValue) (error : JsError)
      (services : list (string * JsValue)) :
  In (serviceName, service) services ->
  isObjectValue service = true ->
  scanDockerService path_resolve service serviceName filePath options = inl error ->
  forall findings,
  exists thrown,
    scanServices path_resolve filePath options services findings = inl thrown.
Proof.
  intros Hin Hobject Hthrows.
  induction services as [| [name value] rest IH]; intros findings; [contradiction |].
  cbn [scanServices].
  destruct Hin as [Heq | Hin].
  - injection Heq as -> ->. rewrite Hobject, Hthrows. cbn. eexists. reflexivity.
  - destruct (isObjectValue value); [| apply (IH Hin)].
    destruct (scanDockerService path_resolve value name filePath options)
      as [thrown | serviceFindings]; cbn; [eexists; reflexivity | apply (IH Hin)].
Qed.

Lemma scanSteps_ok (jobName filePath : string) (publicPrefixes : list string)
      (steps : list JsValue) (f : Finding.t) :
  forall stepIndex,
    0 <= stepIndex ->
    In f (scanSteps path_resolve jobName filePath publicPrefixes steps stepIndex) ->
    yamlFindingOk path_resolve gha publicPrefixes filePath (jobContext jobName) f
    /\ Finding.required f = false.
Proof.
  induction steps as [| step rest IH]; intros stepIndex Hindex; cbn [scanSteps];
    [contradiction |].
  intros Hin. apply in_app_or in Hin. destruct Hin as [Hin | Hin];
    [| apply (IH (stepIndex + 1)); [lia | exact Hin]].
  destruct (truthy_value step && isObjectValue (get step "env")); [| contradiction].
  apply scanEntries_ok in Hin; [| reflexivity].
  destruct Hin as (Hok & name & value & _ & _ & Hreq).
  split; [| exact Hreq].
  apply (yamlFindingOk_weaken gha _ filePath _ (jobContext jobName) f) in Hok;
    [exact Hok |].
  intros context <-. right. exists (stepIndex + 1). split; [lia | reflexivity].
Qed.

Lemma scanGitHubJob_ok (job : JsValue) (jobName filePath : string)
      (options : ScanOptions.t) (f : Finding.t) :
  In f (scanGitHubJob path_resolve job jobName filePath options) ->
  yamlFindingOk path_resolve gha (nullish (ScanOptions.publicPrefixes options) [])
                filePath (jobContext jobName) f
  /\ Finding.required f = false.
Proof.
  unfold scanGitHubJob. intros Hin. apply in_app_or in Hin.
  destruct Hin as [Hin | Hin].
  - destruct (isObjectValue (get job "env")); [| contradiction].
    apply scanEntries_ok in Hin; [| reflexivity].
    destruct Hin as (Hok & name & value & _ & _ & Hreq).
    split; [| exact Hreq].
    apply (yamlFindingOk_weaken gha _ filePath _ (jobContext jobName) f) in Hok;
      [exact Hok |].
    intros context <-. left. reflexivity.
  - destruct (truthy_value (get job "steps")); [| contradiction].
    destruct (get job "steps") as [| | b | n | s | steps | props]; try contradiction.
    apply (scanSteps_ok jobName filePath _ steps f 0); [lia | exact Hin].
Qed.

Lemma scanGitHubActions_ok (parsed : JsValue) (filePath : string)
      (options : ScanOptions.t) (f : Finding.t) :
  In f (scanGitHubActions path_resolve parsed filePath options) ->
  yamlFindingOk path_resolve gha (nullish (ScanOptions.publicPrefixes options) [])
                filePath (workflowContext parsed) f
  /\ Finding.required f = false.
Proof.
  unfold scanGitHubActions.
  destruct (negb (truthy_value parsed) || negb (String.eqb (typeof parsed) "object"));
    [contradiction |].
  intros Hin. apply in_app_or in Hin. destruct Hin as [Hin | Hin].
  - destruct (isObjectValue (get parsed "jobs")); [| contradiction].
    apply in_flat_map in Hin. destruct Hin as ([jobName job] & Hjob & Hin).
    destruct (isObjectValue job); [| contradiction].
    apply scanGitHubJob_ok in Hin. destruct Hin as [Hok Hreq].
    split; [| exact Hreq].
    apply (yamlFindingOk_weaken gha _ filePath (jobContext jobName)); [| exact Hok].
    intros context Hcontext. right. exists jobName, job. split; assumption.
  - destruct (isObjectValue (get parsed "env")); [| contradiction].
    apply scanEntries_ok in Hin; [| reflexivity].
    destruct Hin as (Hok & name & value & _ & _ & Hreq).
    split; [| exact Hreq].
    apply (yamlFindingOk_weaken gha _ filePath (eq "Workflow environment"));
      [| exact Hok].
    intros context <-. left. reflexivity.
Qed.

End YamlFacts.

(** X26. Every finding of a Docker Compose document has the source
    [docker], a valid name and one reference, at column 1, whose context
    names a service of the document. A finding with a default has a
    non-empty one and is not required. *)
Theorem docker_compose_findings
        (path_resolve : string -> string) (parsed : JsValue) (filePath : string)
        (options : ScanOptions.t) (findings : list Finding.t) (f : Finding.t) :
  scanDockerCompose path_resolve parsed filePath options = inr findings ->
  In f findings ->
  Finding.source f = docker
  /\ isValidEnvVarName (Finding.name f) = true
  /\ (exists line serviceName service,
         In (serviceName, service) (Object_entries (get parsed "services"))
         /\ Finding.files f
            = [FileRef.mk (path_resolve filePath) line 1
                          (Some ("Service: " ++ serviceName)) None]
         /\ 1 <= line)
  /\ (forall v, Finding.defaultValue f = Some v ->
                v <> EmptyString /\ Finding.required f = false)
  /\ Finding.isPublic f
     = isPublicVariable (Finding.name f)
                        (nullish (ScanOptions.publicPrefixes options) [])
  /\ Finding.notes f = None.
Proof.
  intros Hscan Hin.
  destruct (scanDockerCompose_ok path_resolve parsed filePath options findings
                                 Hscan f Hin)
    as (Hsource & Hvalid & (line & context & Hfiles & Hline & Hcontext) & Hrest).
  split; [exact Hsource |]. split; [exact Hvalid |]. split; [| exact Hrest].
  destruct Hcontext as (serviceName & service & Hservice & ->).
  exists line, serviceName, service. repeat split; assumption.
Qed.

Lemma docker_compose_findings_witness :
  let f := Finding.mk "PORT" docker
                      [FileRef.mk "/p/docker-compose.yml" 1 1 (Some "Service: web")
                                  None]
                      false (Some "3000") false None in
  exists findings,
    scanDockerCompose (fun p => p) sample_compose "/p/docker-compose.yml"
                      ScanOptions.empty
    = inr findings
    /\ In f findings
    /\ Finding.source f = docker
    /\ forall v, Finding.defaultValue f = Some v ->
                 v <> EmptyString /\ Finding.required f = false.
Proof.
  intros f.
  destruct (scanDockerCompose (fun p => p) sample_compose "/p/docker-compose.yml"
                              ScanOptions.empty) as [error | findings] eqn:Hscan;
    [vm_compute in Hscan; discriminate Hscan |].
  assert (Hin : In f findings).
  { vm_compute in Hscan. injection Hscan as <-. left. reflexivity. }
  exists findings. split; [reflexivity |]. split; [exact Hin |].
  destruct (docker_compose_findings (fun p => p) sample_compose
                                    "/p/docker-compose.yml" ScanOptions.empty
                                    findings f Hscan Hin)
    as (Hsource & _ & _ & Hdefault & _).
  split; [exact Hsource | exact Hdefault].
Defined.

(** X27. An [environment] list with an item that is not a string makes
    the scan of the Docker Compose document throw, and the provider then
    reports nothing at all for the file, whatever its other services
    declare. *)
Theorem compose_non_string_item_drops_file
        (path_resolve path_basename : string -> string)
        (readFile : string -> js string) (parseYaml : string -> js JsValue)
        (filePath content : string) (options : ScanOptions.t)
        (parsed service item : JsValue) (serviceName : string)
        (items : list JsValue) :
  readFile filePath = inr content ->
  parseYaml content = inr parsed ->
  str_includes "compose" (path_basename filePath) = true ->
  isObjectValue parsed = true ->
  isObjectValue (get parsed "services") = true ->
  In (serviceName, service) (Object_entries (get parsed "services")) ->
  isObjectValue service = true ->
  get service "environment" = JsArray items ->
  In item items ->
  (forall s, item <> JsString s) ->
  (exists error, scanDockerCompose path_resolve parsed filePath options = inl error)
  /\ yaml_scanFile path_resolve path_basename readFile parseYaml filePath options
     = inr [].
Proof.
  intros Hread Hparse Hname Hparsed Hservices Hservice Hobject Henvironment Hitem Hstring.
  assert (Hguard : negb (truthy_value parsed)
                   || negb (String.eqb (typeof parsed) "object") = false).
  { unfold isObjectValue in Hparsed. apply andb_prop in Hparsed.
    destruct Hparsed as [-> ->]. reflexivity. }
  assert (Hthrows : exists error,
             scanDockerCompose path_resolve parsed filePath options = inl error).
  { unfold scanDockerCompose. rewrite Hguard, Hservices.
    destruct (scanEnvironmentArray_throws
                path_resolve serviceName filePath
                (nullish (ScanOptions.publicPrefixes options) [])
                item items Hitem Hstring 0 [])
      as [error Herror].
    apply (scanServices_throws path_resolve filePath options serviceName service
                               error _ Hservice Hobject).
    unfold scanDockerService, scanEnvironment. rewrite Henvironment, Herror.
    reflexivity. }
  split; [exact Hthrows |].
  destruct Hthrows as [error Herror].
  unfold yaml_scanFile. rewrite Hread. cbn. rewrite Hparse. cbn.
  rewrite Hguard, Hname, orb_true_r, Herror. reflexivity.
Qed.

Lemma compose_non_string_item_drops_file_witness :
  (exists error,
      scanDockerCompose (fun p => p) keyed_item_compose "docker-compose.yml"
                        ScanOptions.empty
      = inl error)
  /\ yaml_scanFile (fun p => p) (fun p => p)
                   (fun _ => inr "services") (fun _ => inr keyed_item_compose)
                   "docker-compose.yml" ScanOptions.empty
     = inr [].
Proof.
  apply (compose_non_string_item_drops_file
           (fun p => p) (fun p => p)
           (fun _ => inr "services") (fun _ => inr keyed_item_compose)
           "docker-compose.yml" "services" ScanOptions.empty
           keyed_item_compose
           (JsObject [("environment",
                       JsArray [JsString "PORT=3000";
                                JsObject [("DEBUG", JsNumber 1)]])])
           (JsObject [("DEBUG", JsNumber 1)])
           "web"
           [JsString "PORT=3000"; JsObject [("DEBUG", JsNumber 1)]]).
  - reflexivity.
  - reflexivity.
  - reflexivity.
  - reflexivity.
  - reflexivity.
  - left. reflexivity.
  - reflexivity.
  - reflexivity.
  - right. left. reflexivity.
  - intros s H. discriminate H.
Defined.

(** X28. Every finding of a GitHub Actions workflow has the source
    [gha], a valid name and one reference, at column 1, whose context is
    the workflow, a job of the document or a step of such a job; it is
    never required, and a default is never empty. *)
Theorem github_actions_findings
        (path_resolve : string -> string) (parsed : JsValue) (filePath : string)
        (options : ScanOptions.t) (f : Finding.t) :
  In f (scanGitHubActions path_resolve parsed filePath options) ->
  Finding.source f = gha
  /\ Finding.required f = false
  /\ isValidEnvVarName (Finding.name f) = true
  /\ (exists line context,
         Finding.files f
         = [FileRef.mk (path_resolve filePath) line 1 (Some context) None]
         /\ 1 <= line
         /\ workflowContext parsed context)
  /\ (forall v, Finding.defaultValue f = Some v -> v <> EmptyString)
  /\ Finding.isPublic f
     = isPublicVariable (Finding.name f)
                        (nullish (ScanOptions.publicPrefixes options) [])
  /\ Finding.notes f = None.
Proof.
  intros Hin.
  destruct (scanGitHubActions_ok path_resolve parsed filePath options f Hin)
    as ((Hsource & Hvalid & Hfiles & Hdefault & Hpublic & Hnotes) & Hrequired).
  repeat (split; [assumption |]).
  split; [| split; assumption].
  intros v Hv. exact (proj1 (Hdefault v Hv)).
Qed.

Lemma github_actions_findings_witness :
  let f := Finding.mk "TOKEN" gha
                      [FileRef.mk ".github/workflows/ci.yml" 1 1
                                  (Some "Job: build, Step: 1") None]
                      false (Some "secret") false None in
  In f (scanGitHubActions (fun p => p) sample_workflow ".github/workflows/ci.yml"
                          ScanOptions.empty)
  /\ Finding.source f = gha
  /\ Finding.required f = false
  /\ isValidEnvVarName (Finding.name f) = true.
Proof.
  intros f.
  assert (Hin : In f (scanGitHubActions (fun p => p) sample_workflow
                                        ".github/workflows/ci.yml"
                                        ScanOptions.empty))
    by (vm_compute; left; reflexivity).
  split; [exact Hin |].
  destruct (github_actions_findings (fun p => p) sample_workflow
                                    ".github/workflows/ci.yml" ScanOptions.empty
                                    f Hin)
    as (Hsource & Hrequired & Hvalid & _).
  repeat split; assumption.
Defined.

Lemma indexOf_from_found (needle s : string) :
  forall i, 0 <= i -> 0 <= indexOf_from needle s i ->
            exists pre post, s = pre ++ needle ++ post.
Proof.
  induction s as [| c rest IH]; intros i Hi; unfold indexOf_from; fold indexOf_from.
  - destruct (String.prefix needle EmptyString) eqn:Hprefix; [| lia].
    intros _. apply startsWith_iff in Hprefix. destruct Hprefix as [post Hpost].
    exists EmptyString, post. exact Hpost.
  - destruct (String.prefix needle (String c rest)) eqn:Hprefix.
    + intros _. apply startsWith_iff in Hprefix. destruct Hprefix as [post Hpost].
      exists EmptyString, post. exact Hpost.
    + intros Hfound. destruct (IH (i + 1) ltac:(lia) Hfound) as (pre & post & ->).
      exists (String c pre), post. reflexivity.
Qed.

Lemma indexOf_from_finds (needle post pre : string) :
  forall i, 0 <= i -> 0 <= indexOf_from needle (pre ++ needle ++ post) i.
Proof.
  induction pre as [| c pre IH]; intros i Hi.
  - cbn [append].
    assert (Hprefix : String.prefix needle (needle ++ post) = true)
      by (apply startsWith_iff; exists post; reflexivity).
    revert Hprefix. destruct (needle ++ post); intros Hprefix;
      unfold indexOf_from; fold indexOf_from; rewrite Hprefix; exact Hi.
  - cbn [append]. unfold indexOf_from; fold indexOf_from.
    destruct (String.prefix needle (String c (pre ++ needle ++ post)));
      [exact Hi | apply IH; lia].
Qed.

Lemma str_includes_iff (needle s : string) :
  str_includes needle s = true <-> exists pre post, s = pre ++ needle ++ post.
Proof.
  unfold str_includes, indexOf. rewrite Z.leb_le. split.
  - apply indexOf_from_found. lia.
  - intros (pre & post & ->). apply indexOf_from_finds. lia.
Qed.

Lemma includes_docker_compose (s : string) :
  str_includes "compose" s = false -> str_includes "docker-compose" s = false.
Proof.
  intros Hcompose. destruct (str_includes "docker-compose" s) eqn:Hdocker;
    [| reflexivity].
  apply str_includes_iff in Hdocker. destruct Hdocker as (pre & post & ->).
  rewrite <- Hcompose. symmetry. apply str_includes_iff.
  exists (pre ++ "docker-"), post. rewrite append_assoc. reflexivity.
Qed.

Section YamlScanFacts.

Variable path_resolve : string -> string.
Variable path_basename : string -> string.
Variable path_extname : string -> string.
Variable readFile : string -> js string.
Variable parseYaml : string -> js JsValue.

Lemma yaml_scanFile_returns (filePath : string) (options : ScanOptions.t) :
  exists findings,
    yaml_scanFile path_resolve path_basename readFile parseYaml filePath options
    = inr findings.
Proof.
  unfold yaml_scanFile.
  destruct (readFile filePath) as [error | content]; cbn;
    [eexists; reflexivity |].
  destruct (parseYaml content) as [error | parsed]; cbn;
    [eexists; reflexivity |].
  destruct (negb (truthy_value parsed) || negb (String.eqb (typeof parsed) "object"));
    cbn; [eexists; reflexivity |].
  destruct (str_includes "docker-compose" (path_basename filePath)
            || str_includes "compose" (path_basename filePath)).
  - destruct (scanDockerCompose path_resolve parsed filePath options); cbn;
      eexists; reflexivity.
  - destruct (str_includes ".github/workflows" filePath); cbn; eexists; reflexivity.
Qed.

Lemma yaml_scanFiles_spec (yamlFiles : list string) (options : ScanOptions.t) :
  forall findings,
    yaml_scanFiles path_resolve path_basename readFile parseYaml yamlFiles options
                   findings
    = inr (findings
           ++ flat_map
                (fun file =>
                   match yaml_scanFile path_resolve path_basename readFile parseYaml
                                       file options with
                   | inr fileFindings => fileFindings
                   | inl _ => []
                   end)
                yamlFiles)%list.
Proof.
  induction yamlFiles as [| file rest IH]; intros findings;
    cbn [yaml_scanFiles flat_map].
  - rewrite app_nil_r. reflexivity.
  - destruct (yaml_scanFile path_resolve path_basename readFile parseYaml file options)
      as [error | fileFindings]; cbn; rewrite IH.
    + reflexivity.
    + rewrite app_assoc. reflexivity.
Qed.

(** X29. The scan of the YAML provider never throws, and neither does
    the scan of one file: the result is the findings of the files with
    the extension [.yml] or [.yaml], in the order of the files. A file
    that cannot be read or parsed gives nothing, and so does every file
    that is neither named like a Compose file nor under
    [.github/workflows]. *)
Theorem yaml_scan_never_throws (files : list string) (options : ScanOptions.t) :
  yaml_scan path_resolve path_basename path_extname readFile parseYaml files options
  = inr (flat_map
           (fun file =>
              match yaml_scanFile path_resolve path_basename readFile parseYaml
                                  file options with
              | inr fileFindings => fileFindings
              | inl _ => []
              end)
           (filter (isYamlFile path_extname) files))
  /\ (forall file,
         exists findings,
           yaml_scanFile path_resolve path_basename readFile parseYaml file options
           = inr findings)
  /\ (forall file,
         (forall content, readFile file <> inr content)
         \/ (forall content, readFile file = inr content ->
                             forall parsed, parseYaml content <> inr parsed)
         \/ (str_includes "compose" (path_basename file) = false
             /\ str_includes ".github/workflows" file = false) ->
         yaml_scanFile path_resolve path_basename readFile parseYaml file options
         = inr []).
Proof.
  split; [| split].
  - unfold yaml_scan. rewrite yaml_scanFiles_spec. reflexivity.
  - intros file. apply yaml_scanFile_returns.
  - intros file Hcase. unfold yaml_scanFile.
    destruct (readFile file) as [error | content] eqn:Hread; cbn; [reflexivity |].
    destruct Hcase as [Hunread | Hcase]; [exfalso; exact (Hunread content eq_refl) |].
    destruct (parseYaml content) as [error | parsed] eqn:Hparse; cbn; [reflexivity |].
    destruct Hcase as [Hunparsed | [Hcompose Hworkflow]];
      [exfalso; exact (Hunparsed content eq_refl parsed Hparse) |].
    destruct (negb (truthy_value parsed) || negb (String.eqb (typeof parsed) "object"));
      cbn; [reflexivity |].
    rewrite (includes_docker_compose _ Hcompose), Hcompose, Hworkflow. reflexivity.
Qed.

End YamlScanFacts.

(** X30. The name of the file decides first: a workflow under
    [.github/workflows] whose file name contains [compose] is read as a
    Docker Compose document, and without [services] it gives no
    findings, whatever environment its jobs declare. *)
Theorem compose_named_workflow_not_scanned
        (path_resolve path_basename : string -> string)
        (readFile : string -> js string) (parseYaml : string -> js JsValue)
        (filePath content : string) (parsed : JsValue) (options : ScanOptions.t) :
  str_includes "compose" (path_basename filePath) = true ->
  readFile filePath = inr content ->
  parseYaml content = inr parsed ->
  isObjectValue (get parsed "services") = false ->
  yaml_scanFile path_resolve path_basename readFile parseYaml filePath options
  = inr [].
Proof.
  intros Hname Hread Hparse Hservices.
  unfold yaml_scanFile. rewrite Hread. cbn. rewrite Hparse. cbn.
  destruct (negb (truthy_value parsed) || negb (String.eqb (typeof parsed) "object"))
    eqn:Hguard; cbn; [reflexivity |].
  rewrite Hname, orb_true_r. unfold scanDockerCompose.
  rewrite Hguard, Hservices. reflexivity.
Qed.

Lemma compose_named_workflow_not_scanned_witness :
  str_includes ".github/workflows" ".github/workflows/compose.yml" = true
  /\ scanGitHubActions (fun p => p) sample_workflow ".github/workflows/compose.yml"
                       ScanOptions.empty
     <> []
  /\ yaml_scanFile (fun p => p) (fun _ => "compose.yml")
                   (fun _ => inr "jobs") (fun _ => inr sample_workflow)
                   ".github/workflows/compose.yml" ScanOptions.empty
     = inr [].
Proof.
  split; [reflexivity |]. split; [vm_compute; discriminate |].
  apply (compose_named_workflow_not_scanned
           (fun p => p) (fun _ => "compose.yml")
           (fun _ => inr "jobs") (fun _ => inr sample_workflow)
           ".github/workflows/compose.yml" "jobs" sample_workflow
           ScanOptions.empty);
    reflexivity.
Defined.
